(** * Worker WebSocket channel (pkg/channels/worker_ws.go)

    A shallow embedding of the client side of the worker mesh protocol:
    configuration validation, interval resolution, target and payload
    building, the auth handshake, the inbound dispatcher and the identity
    store, followed by the properties of the channel's specification.

    Go strings are byte strings: [string] is used with one [ascii] per byte.
    The Go library functions the channel calls (strings, strconv, fmt,
    encoding/json) are modelled in the modules [GoStrings], [Float64] and
    [Json]; the channel itself is in [WorkerWS].

    A method of the channel is a function on a [World]: the channel's
    fields together with the connections closed, the frames written, the
    file system and the deliveries to the bus. The sections the code runs
    under its mutexes are single steps here, so the locks do not appear;
    log lines are not kept; the clock, the dialer and the frames a
    connection delivers are arguments, and so is what the other
    goroutines do to the world while the read loop is blocked in a read. *)

From Stdlib Require Import ZArith Lia Bool List Ascii String.
From Stdlib Require Import Numbers.DecimalString Floats.SpecFloat.
From Stdlib Require Numbers.DecimalPos Numbers.DecimalZ.
From stdpp Require Import base option gmap strings list fin_maps.

Set Warnings "-register-all".
#[local] Open Scope Z_scope.

(** A Go call that returns a value or an error. *)
Inductive result (E A : Type) : Type :=
| Ok (a : A)
| Err (e : E).

Arguments Ok {E A} a.
Arguments Err {E A} e.

(* ===================================================================== *)
(** * Package strings, and the integer verbs of fmt *)
(* ===================================================================== *)

Module GoStrings.

(** A byte given by its code. *)
Definition byte (n : N) : ascii := ascii_of_N n.

Definition code (c : ascii) : N := N_of_ascii c.

Definition bytes_of (s : string) : list ascii := list_ascii_of_string s.

Definition string_of (l : list ascii) : string := string_of_list_ascii l.

(** The [asciiSpace] table of package strings: tab, newline, vertical tab,
    form feed, carriage return, space. *)
Definition is_ascii_space (c : ascii) : bool :=
  let n := code c in ((9 <=? n) && (n <=? 13) || (n =? 32))%N.

(** [unicode.IsSpace] on a two-byte rune: U+0085 (NEL) and U+00A0 (NBSP). *)
Definition is_space2 (c1 c2 : ascii) : bool :=
  ((code c1 =? 194) && ((code c2 =? 133) || (code c2 =? 160)))%N.

(** [unicode.IsSpace] on a three-byte rune: U+1680, U+2000..U+200A, U+2028,
    U+2029, U+202F, U+205F, U+3000. *)
Definition is_space3 (c1 c2 c3 : ascii) : bool :=
  let a := code c1 in
  let b := code c2 in
  let c := code c3 in
  ((a =? 225) && (b =? 154) && (c =? 128)
   || (a =? 226) && (b =? 128)
      && ((128 <=? c) && (c <=? 138) || (c =? 168) || (c =? 169) || (c =? 175))
   || (a =? 226) && (b =? 129) && (c =? 159)
   || (a =? 227) && (b =? 128) && (c =? 128))%N.

(** [strings.TrimLeftFunc(s, unicode.IsSpace)]: runes are decoded from the
    front; a byte that starts no white-space rune stops the scan. *)
Fixpoint trim_left (l : list ascii) : list ascii :=
  match l with
  | [] => []
  | c1 :: r1 =>
      if is_ascii_space c1 then trim_left r1
      else match r1 with
           | [] => l
           | c2 :: r2 =>
               if is_space2 c1 c2 then trim_left r2
               else match r2 with
                    | [] => l
                    | c3 :: r3 => if is_space3 c1 c2 c3 then trim_left r3 else l
                    end
           end
  end.

(** The same scan over the reversed bytes, for [strings.TrimRightFunc]: the
    last byte comes first, so a rune's bytes are met in reverse order. *)
Fixpoint trim_left_rev (l : list ascii) : list ascii :=
  match l with
  | [] => []
  | c1 :: r1 =>
      if is_ascii_space c1 then trim_left_rev r1
      else match r1 with
           | [] => l
           | c2 :: r2 =>
               if is_space2 c2 c1 then trim_left_rev r2
               else match r2 with
                    | [] => l
                    | c3 :: r3 => if is_space3 c3 c2 c1 then trim_left_rev r3 else l
                    end
           end
  end.

Definition trim_right (l : list ascii) : list ascii := rev (trim_left_rev (rev l)).

(** [strings.TrimSpace]: leading white space is removed, then trailing. *)
Definition TrimSpace (s : string) : string :=
  string_of (trim_right (trim_left (bytes_of s))).

(** [strings.Contains(s, sep)] for a one-byte separator. *)
Definition Contains (s : string) (sep : ascii) : bool :=
  existsb (Ascii.eqb sep) (bytes_of s).

(** [strings.Split(s, sep)] for a one-byte separator: every piece between
    separators, empty ones included; a string without separator is one piece. *)
Fixpoint split_bytes (sep : ascii) (l : list ascii) : list (list ascii) :=
  match l with
  | [] => [[]]
  | c :: r =>
      if Ascii.eqb c sep then [] :: split_bytes sep r
      else match split_bytes sep r with
           | [] => [[c]]
           | p :: ps => (c :: p) :: ps
           end
  end.

Definition Split (s : string) (sep : ascii) : list string :=
  map string_of (split_bytes sep (bytes_of s)).

(** ASCII lower case of a byte. *)
Definition lower (c : ascii) : ascii :=
  let n := code c in
  if ((65 <=? n) && (n <=? 90))%N then byte (n + 32) else c.

Definition upper (c : ascii) : ascii :=
  let n := code c in
  if ((97 <=? n) && (n <=? 122))%N then byte (n - 32) else c.

(** [strings.EqualFold(s, t)] for a [t] made of ASCII letters other than
    k and s: those letters have no case variant outside ASCII (the only
    such variants are U+212A for k and U+017F for s), so the Unicode
    simple folding of the library comes down to comparing bytes up to ASCII
    case. *)
Definition EqualFold_ascii (s t : string) : bool :=
  String.eqb (string_of (map lower (bytes_of s))) (string_of (map lower (bytes_of t))).

(** The verb [%d]: a signed decimal numeral. *)
Definition format_d (z : Z) : string := NilZero.string_of_int (Z.to_int z).

End GoStrings.

(* ===================================================================== *)
(** * float64: strconv.ParseFloat and the verb %.0f *)
(* ===================================================================== *)

Module Float64.

(** A float64 is an IEEE 754 binary64 datum: a signed zero, a signed
    infinity, a NaN or [(-1)^s * m * 2^e]. *)
Definition float64 : Set := spec_float.

Definition prec : Z := 53.
Definition emax : Z := 1024.

Definition digit_val (c : ascii) : option Z :=
  let n := GoStrings.code c in
  if ((48 <=? n) && (n <=? 57))%N then Some (Z.of_N n - 48) else None.

(** The parts of a decimal literal [-ddd.ddd(e|E)(+|-)ddd] while it is read. *)
Inductive num_stage : Set := NInt | NFrac | NExpSign | NExp.

Record num_acc : Set := mkNumAcc {
  na_stage : num_stage;
  na_mant : Z;       (* the digits read so far, as one integer *)
  na_frac : Z;       (* how many of them came after the point *)
  na_eneg : bool;    (* sign of the exponent *)
  na_exp : Z         (* the exponent's digits *)
}.

Definition num_step (a : num_acc) (c : ascii) : option num_acc :=
  match digit_val c, na_stage a with
  | Some d, NInt => Some (mkNumAcc NInt (10 * na_mant a + d) 0 false 0)
  | Some d, NFrac =>
      Some (mkNumAcc NFrac (10 * na_mant a + d) (na_frac a + 1) false 0)
  | Some d, (NExpSign | NExp) =>
      Some (mkNumAcc NExp (na_mant a) (na_frac a) (na_eneg a) (10 * na_exp a + d))
  | None, NInt =>
      if Ascii.eqb c "." then Some (mkNumAcc NFrac (na_mant a) 0 false 0)
      else if Ascii.eqb c "e" || Ascii.eqb c "E"
           then Some (mkNumAcc NExpSign (na_mant a) 0 false 0)
           else None
  | None, NFrac =>
      if Ascii.eqb c "e" || Ascii.eqb c "E"
      then Some (mkNumAcc NExpSign (na_mant a) (na_frac a) false 0)
      else None
  | None, NExpSign =>
      if Ascii.eqb c "+" then Some (mkNumAcc NExp (na_mant a) (na_frac a) false 0)
      else if Ascii.eqb c "-" then Some (mkNumAcc NExp (na_mant a) (na_frac a) true 0)
           else None
  | None, NExp => None
  end.

Fixpoint num_run (a : num_acc) (l : list ascii) : option num_acc :=
  match l with
  | [] => Some a
  | c :: r => match num_step a c with
              | Some a' => num_run a' r
              | None => None
              end
  end.

(** A literal as sign, integer mantissa and power of ten:
    the value is [(-1)^neg * mant * 10^exp10]. *)
Definition decompose (lit : string) : option (bool * Z * Z) :=
  let l := GoStrings.bytes_of lit in
  let '(neg, body) := match l with
                      | c :: r => if Ascii.eqb c "-" then (true, r) else (false, l)
                      | [] => (false, l)
                      end in
  match num_run (mkNumAcc NInt 0 0 false 0) body with
  | Some a =>
      let e := if na_eneg a then - na_exp a else na_exp a in
      Some (neg, na_mant a, e - na_frac a)
  | None => None
  end.

Definition signed (neg : bool) (m : Z) : Z := if neg then - m else m.

(** The binary64 nearest to [(-1)^neg * mant * 10^exp10], ties to even.
    For a negative power of ten the quotient is taken with at least 64
    bits and a sticky bit for the remainder, which [binary_normalize] then
    rounds once. *)
Definition of_decimal (neg : bool) (mant exp10 : Z) : float64 :=
  if mant =? 0 then S754_zero neg
  else if 0 <=? exp10
       then binary_normalize prec emax (signed neg (mant * 10 ^ exp10)) 0 false
       else
         let den := 10 ^ (- exp10) in
         let s := Z.max 0 (64 + Z.log2 den - Z.log2 mant) in
         let num := mant * 2 ^ s in
         let q := num / den in
         let sticky := if num mod den =? 0 then 0 else 1 in
         binary_normalize prec emax (signed neg (2 * q + sticky)) (- (s + 1)) false.

(** [strconv.ParseFloat(s, 64)] on a JSON number literal: the correctly
    rounded value, or an error when it is out of range (rounds to an
    infinity). A value too small for the format rounds to a zero or a
    subnormal without error. *)
Definition ParseFloat (lit : string) : option float64 :=
  match decompose lit with
  | Some (neg, mant, exp10) =>
      match of_decimal neg mant exp10 with
      | S754_infinity _ => None
      | f => Some f
      end
  | None => None
  end.

(** The integer nearest to [m * 2^e], ties to even. *)
Definition round_half_even (m : positive) (e : Z) : Z :=
  if 0 <=? e then Z.pos m * 2 ^ e
  else
    let d := 2 ^ (- e) in
    let q := Z.pos m / d in
    let r := Z.pos m mod d in
    if (d <? 2 * r) || ((d =? 2 * r) && Z.odd q) then q + 1 else q.

(** [fmt.Sprintf("%.0f", f)]: the value rounded to an integer (ties to
    even) in decimal, with the sign of [f] kept even when the digits are 0. *)
Definition format_f0 (f : float64) : string :=
  match f with
  | S754_zero s => if s then "-0" else "0"
  | S754_infinity s => if s then "-Inf" else "+Inf"
  | S754_nan => "NaN"
  | S754_finite s m e =>
      let digits := GoStrings.format_d (round_half_even m e) in
      if s then String "-" digits else digits
  end%string.

End Float64.

(* ===================================================================== *)
(** * Dynamic values (Go's [any]) *)
(* ===================================================================== *)

(** The dynamic types that reach the channel: what encoding/json stores in
    an [any] (nil, string, float64, bool, map[string]any, []any), the
    numeric types [asString] switches on, and the []string that
    [resolveTarget] and [cleanTags] produce. *)
Inductive any : Type :=
| VNil
| VString (s : string)
| VJsonNumber (lit : string)
| VFloat64 (f : Float64.float64)
| VInt64 (n : Z)
| VInt (n : Z)
| VBool (b : bool)
| VMap (m : gmap string any)
| VSlice (l : list any)
| VStrings (l : list string).

(** [m[k]] on a map[string]any: the zero value nil when the key is absent
    (also on a nil map). *)
Definition map_index (m : gmap string any) (k : string) : any :=
  default VNil (m !! k).

(* ===================================================================== *)
(** * Package encoding/json *)
(* ===================================================================== *)

Module Json.

Import GoStrings.

(** ** Syntax *)

(** A JSON text as the decoder sees it before it stores anything: numbers
    keep their literal, strings and member names are unquoted, members keep
    their order and their duplicates. *)
Inductive json : Type :=
| JNull
| JBool (b : bool)
| JNumber (lit : string)
| JString (s : string)
| JArray (elems : list json)
| JObject (members : list (string * json)).

Inductive token : Type :=
| TLBrace | TRBrace | TLBracket | TRBracket | TComma | TColon
| TString (s : string)
| TNumber (lit : string)
| TTrue | TFalse | TNull.

(** ** Strings: escapes, UTF-16 surrogates, UTF-8 *)

Definition hex_val (c : ascii) : option N :=
  let n := code c in
  if ((48 <=? n) && (n <=? 57))%N then Some (n - 48)%N
  else if ((97 <=? n) && (n <=? 102))%N then Some (n - 87)%N
  else if ((65 <=? n) && (n <=? 70))%N then Some (n - 55)%N
  else None.

Definition hex4 (a b c d : ascii) : option N :=
  match hex_val a, hex_val b, hex_val c, hex_val d with
  | Some x, Some y, Some z, Some w => Some (((x * 16 + y) * 16 + z) * 16 + w)%N
  | _, _, _, _ => None
  end.

(** [utf8.EncodeRune] for a rune below 0x110000 that is no surrogate. *)
Definition encode_rune (r : N) : list ascii :=
  if (r <? 128)%N then [byte r]
  else if (r <? 2048)%N then [byte (192 + r / 64); byte (128 + r mod 64)]
  else if (r <? 65536)%N
       then [byte (224 + r / 4096); byte (128 + (r / 64) mod 64); byte (128 + r mod 64)]
       else [byte (240 + r / 262144); byte (128 + (r / 4096) mod 64);
             byte (128 + (r / 64) mod 64); byte (128 + r mod 64)].

(** U+FFFD, the replacement character. *)
Definition replacement : list ascii := [byte 239; byte 191; byte 189].

Definition is_cont (c : ascii) : bool := ((128 <=? code c) && (code c <=? 191))%N.

(** The range the second byte of a sequence must lie in, after the first
    byte (the [acceptRanges] of package utf8), and the number of bytes that
    follow the first; [None] for a byte that starts no sequence. *)
Definition lead_info (c : ascii) : option (N * N * nat) :=
  let n := code c in
  if ((194 <=? n) && (n <=? 223))%N then Some (128%N, 191%N, 1%nat)
  else if (n =? 224)%N then Some (160%N, 191%N, 2%nat)
  else if ((225 <=? n) && (n <=? 236) || (238 <=? n) && (n <=? 239))%N
       then Some (128%N, 191%N, 2%nat)
  else if (n =? 237)%N then Some (128%N, 159%N, 2%nat)
  else if (n =? 240)%N then Some (144%N, 191%N, 3%nat)
  else if ((241 <=? n) && (n <=? 243))%N then Some (128%N, 191%N, 3%nat)
  else if (n =? 244)%N then Some (128%N, 143%N, 3%nat)
  else None.

Definition in_range (lo hi : N) (c : ascii) : bool :=
  ((lo <=? code c) && (code c <=? hi))%N.

(** Every byte that [utf8.DecodeRune] rejects becomes U+FFFD, one byte at a
    time; well-formed sequences are copied. *)
Fixpoint coerce_utf8 (l : list ascii) : list ascii :=
  match l with
  | [] => []
  | c1 :: r1 =>
      if (code c1 <? 128)%N then c1 :: coerce_utf8 r1
      else
        let bad := replacement ++ coerce_utf8 r1 in
        match lead_info c1 with
        | None => bad
        | Some (lo, hi, n) =>
            match r1 with
            | [] => bad
            | c2 :: r2 =>
                if negb (in_range lo hi c2) then bad
                else match n with
                     | 1%nat => c1 :: c2 :: coerce_utf8 r2
                     | _ =>
                         match r2 with
                         | [] => bad
                         | c3 :: r3 =>
                             if negb (is_cont c3) then bad
                             else match n with
                                  | 2%nat => c1 :: c2 :: c3 :: coerce_utf8 r3
                                  | _ =>
                                      match r3 with
                                      | [] => bad
                                      | c4 :: r4 =>
                                          if negb (is_cont c4) then bad
                                          else c1 :: c2 :: c3 :: c4 :: coerce_utf8 r4
                                      end
                                  end
                         end
                     end
            end
        end
  end.

(** The body of a string literal, escape by escape: a byte (raw, or from a
    one-letter escape) or the 16-bit unit of a [\uXXXX]. *)
Inductive unit16 : Set := UByte (c : ascii) | U16 (n : N).

Definition simple_escape (c : ascii) : option ascii :=
  let n := code c in
  if (n =? 34)%N || (n =? 92)%N || (n =? 47)%N then Some c
  else if (n =? 98)%N then Some (byte 8)
  else if (n =? 102)%N then Some (byte 12)
  else if (n =? 110)%N then Some (byte 10)
  else if (n =? 114)%N then Some (byte 13)
  else if (n =? 116)%N then Some (byte 9)
  else None.

Fixpoint units_of (l : list ascii) : option (list unit16) :=
  match l with
  | [] => Some []
  | c :: r =>
      if (code c =? 92)%N then
        match r with
        | e :: r' =>
            if (code e =? 117)%N then
              match r' with
              | h1 :: h2 :: h3 :: h4 :: r'' =>
                  match hex4 h1 h2 h3 h4, units_of r'' with
                  | Some n, Some us => Some (U16 n :: us)
                  | _, _ => None
                  end
              | _ => None
              end
            else
              match simple_escape e, units_of r' with
              | Some b, Some us => Some (UByte b :: us)
              | _, _ => None
              end
        | [] => None
        end
      else if (code c <? 32)%N || (code c =? 34)%N then None
      else match units_of r with
           | Some us => Some (UByte c :: us)
           | None => None
           end
  end.

Definition is_surrogate (n : N) : bool := ((55296 <=? n) && (n <? 57344))%N.

(** [utf16.DecodeRune]: a high surrogate followed by a low one. *)
Definition decode_pair (hi lo : N) : option N :=
  if ((55296 <=? hi) && (hi <? 56320) && (56320 <=? lo) && (lo <? 57344))%N
  then Some ((hi - 55296) * 1024 + (lo - 56320) + 65536)%N
  else None.

(** Runs of bytes are kept as they are (they are coerced to UTF-8
    afterwards, see [unquote]); a [\u] unit is encoded, a surrogate with
    its partner when the next unit is one, as U+FFFD otherwise. The
    marker [None] separates what is already UTF-8 from raw bytes. *)
Fixpoint join_units (us : list unit16) : list (option ascii * list ascii) :=
  match us with
  | [] => []
  | UByte c :: r => (Some c, []) :: join_units r
  | U16 n :: r =>
      if is_surrogate n then
        match r with
        | U16 n2 :: r2 =>
            match decode_pair n n2 with
            | Some rune => (None, encode_rune rune) :: join_units r2
            | None => (None, replacement) :: join_units r
            end
        | _ => (None, replacement) :: join_units r
        end
      else (None, encode_rune n) :: join_units r
  end.

(** Raw bytes are gathered into maximal runs, each run coerced to UTF-8. *)
Fixpoint flush_units (run : list ascii) (l : list (option ascii * list ascii)) : list ascii :=
  match l with
  | [] => coerce_utf8 (rev run)
  | (Some c, _) :: r => flush_units (c :: run) r
  | (None, enc) :: r => coerce_utf8 (rev run) ++ enc ++ flush_units [] r
  end.

(** [unquote]: the Go string a literal's body stands for. *)
Definition unquote (body : list ascii) : option string :=
  match units_of body with
  | Some us => Some (string_of (flush_units [] (join_units us)))
  | None => None
  end.

(** ** The scanner *)

(** States of the scanner inside a number ([stateNeg], [state0], [state1],
    [stateDot], [stateDot0], [stateE], [stateESign], [stateE0]). *)
Inductive num_state : Set := SNeg | S0 | S1 | SDot | SDot0 | SE | SESign | SE0.

Definition is_digit (c : ascii) : bool := ((48 <=? code c) && (code c <=? 57))%N.

Definition is_exp (c : ascii) : bool := ((code c =? 101) || (code c =? 69))%N.

(** One more byte of a number: the next state, or [None] when the byte is
    not part of the number. *)
Definition num_next (st : num_state) (c : ascii) : option num_state :=
  match st with
  | SNeg => if (code c =? 48)%N then Some S0 else if is_digit c then Some S1 else None
  | S0 => if (code c =? 46)%N then Some SDot else if is_exp c then Some SE else None
  | S1 => if is_digit c then Some S1
          else if (code c =? 46)%N then Some SDot
          else if is_exp c then Some SE else None
  | SDot => if is_digit c then Some SDot0 else None
  | SDot0 => if is_digit c then Some SDot0 else if is_exp c then Some SE else None
  | SE => if (code c =? 43)%N || (code c =? 45)%N then Some SESign
          else if is_digit c then Some SE0 else None
  | SESign => if is_digit c then Some SE0 else None
  | SE0 => if is_digit c then Some SE0 else None
  end.

(** The states a number may end in. *)
Definition num_final (st : num_state) : bool :=
  match st with
  | S0 | S1 | SDot0 | SE0 => true
  | _ => false
  end.

Inductive lex_state : Type :=
| LIdle
| LString (body : list ascii)                  (* bytes after the quote, reversed *)
| LEscape (body : list ascii)                  (* after a backslash *)
| LHex (body : list ascii) (due : nat)         (* inside \u, hex digits still due *)
| LNumber (st : num_state) (lit : list ascii)  (* reversed *)
| LLiteral (rest : list ascii) (tok : token).  (* the letters still due *)

(** JSON white space: space, tab, carriage return, newline. *)
Definition is_json_space (c : ascii) : bool :=
  let n := code c in ((n =? 32) || (n =? 9) || (n =? 13) || (n =? 10))%N.

(** A byte where a token may start. *)
Definition lex_idle (c : ascii) : option (lex_state * list token) :=
  let n := code c in
  if is_json_space c then Some (LIdle, [])
  else if (n =? 123)%N then Some (LIdle, [TLBrace])
  else if (n =? 125)%N then Some (LIdle, [TRBrace])
  else if (n =? 91)%N then Some (LIdle, [TLBracket])
  else if (n =? 93)%N then Some (LIdle, [TRBracket])
  else if (n =? 44)%N then Some (LIdle, [TComma])
  else if (n =? 58)%N then Some (LIdle, [TColon])
  else if (n =? 34)%N then Some (LString [], [])
  else if (n =? 45)%N then Some (LNumber SNeg [c], [])
  else if (n =? 48)%N then Some (LNumber S0 [c], [])
  else if is_digit c then Some (LNumber S1 [c], [])
  else if (n =? 116)%N then Some (LLiteral (bytes_of "rue") TTrue, [])
  else if (n =? 102)%N then Some (LLiteral (bytes_of "alse") TFalse, [])
  else if (n =? 110)%N then Some (LLiteral (bytes_of "ull") TNull, [])
  else None.

Definition lex_step (st : lex_state) (c : ascii) : option (lex_state * list token) :=
  match st with
  | LIdle => lex_idle c
  | LString body =>
      if (code c =? 34)%N then
        match unquote (rev body) with
        | Some s => Some (LIdle, [TString s])
        | None => None
        end
      else if (code c =? 92)%N then Some (LEscape (c :: body), [])
      else if (code c <? 32)%N then None
      else Some (LString (c :: body), [])
  | LEscape body =>
      if (code c =? 117)%N then Some (LHex (c :: body) 4, [])
      else match simple_escape c with
           | Some _ => Some (LString (c :: body), [])
           | None => None
           end
  | LHex body due =>
      match hex_val c, due with
      | Some _, 1%nat => Some (LString (c :: body), [])
      | Some _, S k => Some (LHex (c :: body) k, [])
      | _, _ => None
      end
  | LNumber ns lit =>
      match num_next ns c with
      | Some ns' => Some (LNumber ns' (c :: lit), [])
      | None =>
          if num_final ns then
            match lex_idle c with
            | Some (st', toks) => Some (st', TNumber (string_of (rev lit)) :: toks)
            | None => None
            end
          else None
      end
  | LLiteral rest tok =>
      match rest with
      | [] => None
      | e :: rest' =>
          if Ascii.eqb c e
          then match rest' with
               | [] => Some (LIdle, [tok])
               | _ => Some (LLiteral rest' tok, [])
               end
          else None
      end
  end.

(** At the end of the input a number may be pending; any other open token
    is an unexpected end of input. *)
Definition lex_end (st : lex_state) : option (list token) :=
  match st with
  | LIdle => Some []
  | LNumber ns lit => if num_final ns then Some [TNumber (string_of (rev lit))] else None
  | _ => None
  end.

Fixpoint lex_run (st : lex_state) (l : list ascii) : option (list token) :=
  match l with
  | [] => lex_end st
  | c :: r =>
      match lex_step st c with
      | Some (st', toks) =>
          match lex_run st' r with
          | Some ts => Some (toks ++ ts)
          | None => None
          end
      | None => None
      end
  end.

Definition lex (s : string) : option (list token) := lex_run LIdle (bytes_of s).

(** ** The parser: the scanner's stack of open arrays and objects *)

Inductive frame : Type :=
| FArr (done : list json)                              (* reversed *)
| FObj (done : list (string * json)) (key : string).   (* reversed; pending name *)

Inductive mode : Set :=
| MValue          (* a value is due *)
| MValueOrClose   (* after [: a value or ] *)
| MKeyOrClose     (* after {: a name or } *)
| MKey            (* after , in an object: a name *)
| MColon          (* after a name *)
| MNext.          (* after a value in an array or object: , or the closer *)

Inductive pstate : Type :=
| PRun (stack : list frame) (depth : N) (m : mode)
| PDone (v : json).

(** [maxNestingDepth] of the scanner. *)
Definition maxNestingDepth : N := 10000.

(** A value is complete: it is the whole text, the next element of the
    open array, or the value of the pending name of the open object. *)
Definition complete (stack : list frame) (depth : N) (v : json) : pstate :=
  match stack with
  | [] => PDone v
  | FArr done :: rest => PRun (FArr (v :: done) :: rest) depth MNext
  | FObj done key :: rest => PRun (FObj ((key, v) :: done) key :: rest) depth MNext
  end.

Definition scalar (t : token) : option json :=
  match t with
  | TString s => Some (JString s)
  | TNumber lit => Some (JNumber lit)
  | TTrue => Some (JBool true)
  | TFalse => Some (JBool false)
  | TNull => Some JNull
  | _ => None
  end.

Definition open_frame (stack : list frame) (depth : N) (f : frame) (m : mode) : option pstate :=
  if (depth + 1 <=? maxNestingDepth)%N then Some (PRun (f :: stack) (depth + 1) m) else None.

Definition begin_value (stack : list frame) (depth : N) (t : token) : option pstate :=
  match t with
  | TLBracket => open_frame stack depth (FArr []) MValueOrClose
  | TLBrace => open_frame stack depth (FObj [] "") MKeyOrClose
  | _ => match scalar t with
         | Some v => Some (complete stack depth v)
         | None => None
         end
  end.

Definition close_array (stack : list frame) (depth : N) : option pstate :=
  match stack with
  | FArr done :: rest => Some (complete rest (depth - 1) (JArray (rev done)))
  | _ => None
  end.

Definition close_object (stack : list frame) (depth : N) : option pstate :=
  match stack with
  | FObj done _ :: rest => Some (complete rest (depth - 1) (JObject (rev done)))
  | _ => None
  end.

Definition set_key (stack : list frame) (depth : N) (k : string) : option pstate :=
  match stack with
  | FObj done _ :: rest => Some (PRun (FObj done k :: rest) depth MColon)
  | _ => None
  end.

Definition parse_step (st : pstate) (t : token) : option pstate :=
  match st with
  | PDone _ => None
  | PRun stack depth m =>
      match m, t with
      | MValue, _ => begin_value stack depth t
      | MValueOrClose, TRBracket => close_array stack depth
      | MValueOrClose, _ => begin_value stack depth t
      | MKeyOrClose, TRBrace => close_object stack depth
      | (MKeyOrClose | MKey), TString k => set_key stack depth k
      | MColon, TColon => Some (PRun stack depth MValue)
      | MNext, TComma =>
          match stack with
          | FArr _ :: _ => Some (PRun stack depth MValue)
          | FObj _ _ :: _ => Some (PRun stack depth MKey)
          | [] => None
          end
      | MNext, TRBracket => close_array stack depth
      | MNext, TRBrace => close_object stack depth
      | _, _ => None
      end
  end.

Fixpoint parse_run (st : pstate) (ts : list token) : option json :=
  match ts with
  | [] => match st with
          | PDone v => Some v
          | PRun _ _ _ => None
          end
  | t :: r => match parse_step st t with
              | Some st' => parse_run st' r
              | None => None
              end
  end.

(** The JSON value a text stands for; [None] is a syntax error. *)
Definition parse (s : string) : option json :=
  match lex s with
  | Some ts => parse_run (PRun [] 0 MValue) ts
  | None => None
  end.

(** ** Unmarshal *)

Inductive unmarshal_error : Set :=
| SyntaxError           (* the text is not JSON *)
| UnmarshalTypeError.   (* a value does not fit the Go type it is stored in *)

(** A value stored in an [any]: numbers become float64 (an error when out
    of range), objects become maps in which a later duplicate name
    replaces an earlier one. *)
Fixpoint to_any (j : json) : option any :=
  match j with
  | JNull => Some VNil
  | JBool b => Some (VBool b)
  | JNumber lit => option_map VFloat64 (Float64.ParseFloat lit)
  | JString s => Some (VString s)
  | JArray elems =>
      option_map VSlice
        ((fix go (l : list json) : option (list any) :=
            match l with
            | [] => Some []
            | e :: r => match to_any e, go r with
                        | Some a, Some ar => Some (a :: ar)
                        | _, _ => None
                        end
            end) elems)
  | JObject members =>
      option_map VMap
        ((fix go (l : list (string * json)) (acc : gmap string any)
            : option (gmap string any) :=
            match l with
            | [] => Some acc
            | (k, v) :: r => match to_any v with
                             | Some a => go r (<[k := a]> acc)
                             | None => None
                             end
            end) members ∅)
  end.

(** [json.Unmarshal(data, &v)] for [v] of type [any]. *)
Definition Unmarshal_any (data : string) : result unmarshal_error any :=
  match parse data with
  | None => Err SyntaxError
  | Some j => match to_any j with
              | Some a => Ok a
              | None => Err UnmarshalTypeError
              end
  end.

(** [json.Unmarshal(data, &m)] for a nil [m] of type map[string]any: an
    object fills a fresh map, null leaves the map nil (read like the empty
    map), anything else does not fit. *)
Definition Unmarshal_map (data : string) : result unmarshal_error (gmap string any) :=
  match parse data with
  | None => Err SyntaxError
  | Some JNull => Ok ∅
  | Some (JObject members) =>
      match to_any (JObject members) with
      | Some (VMap m) => Ok m
      | _ => Err UnmarshalTypeError
      end
  | Some _ => Err UnmarshalTypeError
  end.

(** [foldName]: the form under which the decoder looks a member name up
    among the fields of a struct when no field has exactly that name.
    ASCII letters go to upper case; U+017F and U+212A, the two runes
    outside ASCII whose fold orbit has an ASCII letter, go to S and K; the
    other runes stay outside ASCII. *)
Fixpoint foldName (l : list ascii) : list ascii :=
  match l with
  | [] => []
  | c1 :: r1 =>
      match r1 with
      | c2 :: r2 =>
          if ((code c1 =? 197) && (code c2 =? 191))%N then "S"%char :: foldName r2
          else match r2 with
               | c3 :: r3 =>
                   if ((code c1 =? 226) && (code c2 =? 132) && (code c3 =? 170))%N
                   then "K"%char :: foldName r3
                   else upper c1 :: foldName r1
               | [] => upper c1 :: foldName r1
               end
      | [] => [upper c1]
      end
  end.

(** Whether a member name selects the field tagged [field] (an ASCII name). *)
Definition names_field (name field : string) : bool :=
  String.eqb name field
  || String.eqb (string_of (foldName (bytes_of name)))
                (string_of (map upper (bytes_of field))).

(** A JSON value stored in a field of type string or bool: null leaves the
    field as it is, a value of another kind is a type error. *)
Definition store_string (v : json) (old : string) : option string :=
  match v with
  | JString s => Some s
  | JNull => Some old
  | _ => None
  end.

Definition store_bool (v : json) (old : bool) : option bool :=
  match v with
  | JBool b => Some b
  | JNull => Some old
  | _ => None
  end.

(** Decoding into a struct: the members are stored in order (a later
    duplicate overwrites), members that name no field are skipped, a
    member that does not fit its field makes the call fail. The struct is
    given by [store], which stores one member. *)
Fixpoint store_members {A : Type} (store : string -> json -> A -> option A)
    (members : list (string * json)) (a : A) : option A :=
  match members with
  | [] => Some a
  | (k, v) :: r =>
      match store k v a with
      | Some a' => store_members store r a'
      | None => None
      end
  end.

Definition Unmarshal_struct {A : Type} (store : string -> json -> A -> option A)
    (zero : A) (data : string) : result unmarshal_error A :=
  match parse data with
  | None => Err SyntaxError
  | Some JNull => Ok zero
  | Some (JObject members) =>
      match store_members store members zero with
      | Some a => Ok a
      | None => Err UnmarshalTypeError
      end
  | Some _ => Err UnmarshalTypeError
  end.

(** ** Marshal: string literals *)

Definition hex_digit (n : N) : ascii :=
  if (n <? 10)%N then byte (48 + n) else byte (87 + n).

Definition u00 (n : N) : list ascii :=
  bytes_of "\u00" ++ [hex_digit (n / 16); hex_digit (n mod 16)].

(** One ASCII byte of a string, as [appendString] writes it with HTML
    escaping on (the default of [Marshal] and [MarshalIndent]). *)
Definition encode_ascii (c : ascii) : list ascii :=
  let n := code c in
  if (n =? 34)%N || (n =? 92)%N then ["\"%char; c]
  else if (n =? 8)%N then bytes_of "\b"
  else if (n =? 12)%N then bytes_of "\f"
  else if (n =? 10)%N then bytes_of "\n"
  else if (n =? 13)%N then bytes_of "\r"
  else if (n =? 9)%N then bytes_of "\t"
  else if (n <? 32)%N || (n =? 60)%N || (n =? 62)%N || (n =? 38)%N then u00 n
  else [c].

(** The bytes of a string between the quotes: invalid UTF-8 is written
    [\ufffd], U+2028 and U+2029 are escaped, other runes are copied. *)
Fixpoint encode_bytes (l : list ascii) : list ascii :=
  match l with
  | [] => []
  | c1 :: r1 =>
      if (code c1 <? 128)%N then encode_ascii c1 ++ encode_bytes r1
      else
        let bad := bytes_of "\ufffd" ++ encode_bytes r1 in
        match lead_info c1 with
        | None => bad
        | Some (lo, hi, n) =>
            match r1 with
            | [] => bad
            | c2 :: r2 =>
                if negb (in_range lo hi c2) then bad
                else match n with
                     | 1%nat => c1 :: c2 :: encode_bytes r2
                     | _ =>
                         match r2 with
                         | [] => bad
                         | c3 :: r3 =>
                             if negb (is_cont c3) then bad
                             else match n with
                                  | 2%nat =>
                                      if ((code c1 =? 226) && (code c2 =? 128)
                                          && ((code c3 =? 168) || (code c3 =? 169)))%N
                                      then bytes_of "\u202" ++ [hex_digit (code c3 - 160)]
                                             ++ encode_bytes r3
                                      else c1 :: c2 :: c3 :: encode_bytes r3
                                  | _ =>
                                      match r3 with
                                      | [] => bad
                                      | c4 :: r4 =>
                                          if negb (is_cont c4) then bad
                                          else c1 :: c2 :: c3 :: c4 :: encode_bytes r4
                                      end
                                  end
                         end
                     end
            end
        end
  end.

Definition dquote : ascii := byte 34.

(** A Go string as a JSON string literal. *)
Definition quote (s : string) : string :=
  string_of (dquote :: encode_bytes (bytes_of s) ++ [dquote]).

End Json.

(* ===================================================================== *)
(** * The channel *)
(* ===================================================================== *)

(** The two library functions whose result depends on the shortest
    decimal form of a float64 are left open: [fmt.Sprintf("%v", v)] and
    [json.Marshal(v)] on a dynamic value. Everything is stated for every
    such pair of functions. *)
Class GoLib : Type := {
  Sprint_v : any -> string;
  Marshal : any -> option string   (* [None]: Marshal returns an error *)
}.

Module WorkerWS.

Import GoStrings Json.
#[local] Open Scope string_scope.
#[local] Open Scope Z_scope.

(** ** Data *)

(** Modelled from the spec: config.WorkerWSConfig is declared in
    pkg/config, outside the sources at hand. Its fields are the options of
    the spec's configuration surface, with the names the channel reads them
    under; the two intervals are Go ints (64-bit on the platforms the image
    is built for). *)
Record WorkerWSConfig : Type := {
  Address : string;
  Role : string;
  Name : string;
  Tags : list string;
  AuthKey : string;
  IdentityFile : string;
  ReconnectInterval : Z;
  PingInterval : Z;
  AllowFrom : list string
}.

Record workerWSIdentity : Type := mkIdentity {
  ID : string;
  Key : string
}.

(** A [*websocket.Conn] that is not nil: connections are told apart by
    their address. A nil pointer is [None]. *)
Definition Conn : Type := positive.

(** The state of a context: not created yet ([cancel] is nil), live, or
    cancelled. *)
Inductive context : Set := NoContext | Live | Cancelled.

Record WorkerWSChannel : Type := mkChannel {
  running : bool;              (* the flag of the embedded BaseChannel *)
  config : WorkerWSConfig;
  ctx : context;
  conn : option Conn;
  identity : workerWSIdentity
}.

(** Modelled from the spec: bus.OutboundMessage is declared in pkg/bus;
    the caller of [Send] passes [{ChatID, Content}]. *)
Record OutboundMessage : Type := {
  ChatID : string;
  Content : string
}.

(** Modelled from the spec: the bus-facing call
    [deliver(fromID, displayName, content, attachments, metadata)] that
    BaseChannel.HandleMessage stands for; the channel passes no attachments. *)
Record Delivery : Type := mkDelivery {
  d_from : string;
  d_display : string;
  d_content : string;
  d_metadata : gmap string string
}.

(** The file system as the identity store sees it: the content of the
    files that exist, and the paths on which the system refuses reads and
    writes. Directories are not kept. *)
Record FileSystem : Type := mkFS {
  files : gmap string string;
  denied : gset string
}.

(** What the process gets from its environment: [os.UserHomeDir] and
    [filepath.Join]. *)
Record Env : Type := {
  UserHomeDir : string;
  Join : string -> string -> string
}.

(** The channel with what its calls act on: the connections that were
    closed, the frames written (oldest first), the file system, and the
    deliveries made to the bus (oldest first). Log lines are not kept. *)
Record World : Type := mkWorld {
  chan : WorkerWSChannel;
  env : Env;
  closed : gset Conn;
  written : list (Conn * string);
  fs : FileSystem;
  delivered : list Delivery
}.

(** Errors, as the channel builds them: [fmt.Errorf] with a text of its
    own, or a text wrapping the error of a library call. *)
Inductive cause : Set :=
| JsonError (e : unmarshal_error)
| MarshalError        (* json.Marshal *)
| ReadError           (* conn.ReadMessage: deadline, closed or broken connection *)
| WriteError          (* conn.WriteMessage *)
| DialError           (* dialer.Dial *)
| FileError.          (* package os, other than a file that does not exist *)

Inductive error : Set :=
| Errorf (text : string)
| Errorq (text : string) (arg : string)   (* the text, then [%q] of a string *)
| Lib (c : cause)                         (* a library error returned as it is *)
| Wrapf (text : string) (e : error).      (* [text: %w] *)

(** ** Updates of the channel inside a world *)

Definition set_chan (w : World) (c : WorkerWSChannel) : World :=
  mkWorld c (env w) (closed w) (written w) (fs w) (delivered w).

Definition set_running (c : WorkerWSChannel) (b : bool) : WorkerWSChannel :=
  mkChannel b (config c) (ctx c) (conn c) (identity c).

Definition set_ctx (c : WorkerWSChannel) (x : context) : WorkerWSChannel :=
  mkChannel (running c) (config c) x (conn c) (identity c).

Definition set_conn (c : WorkerWSChannel) (k : option Conn) : WorkerWSChannel :=
  mkChannel (running c) (config c) (ctx c) k (identity c).

Definition set_identity (c : WorkerWSChannel) (id : workerWSIdentity) : WorkerWSChannel :=
  mkChannel (running c) (config c) (ctx c) (conn c) id.

(** [conn.Close()] on a connection that is not nil. *)
Definition Close (w : World) (k : Conn) : World :=
  mkWorld (chan w) (env w) ({[k]} ∪ closed w) (written w) (fs w) (delivered w).

(** [conn.WriteMessage(websocket.TextMessage, data)]: a closed connection
    refuses the frame. *)
Definition WriteMessage (w : World) (k : Conn) (data : string) : World * option error :=
  if decide (k ∈ closed w) then (w, Some (Lib WriteError))
  else (mkWorld (chan w) (env w) (closed w) (written w ++ [(k, data)]) (fs w) (delivered w),
        None).

Definition set_fs (w : World) (f : FileSystem) : World :=
  mkWorld (chan w) (env w) (closed w) (written w) f (delivered w).

(** [os.ReadFile]. *)
Inductive read_file : Type :=
| FileData (data : string)
| NotExist
| ReadDenied.

Definition ReadFile (f : FileSystem) (path : string) : read_file :=
  if decide (path ∈ denied f) then ReadDenied
  else match files f !! path with
       | Some data => FileData data
       | None => NotExist
       end.

(** [os.MkdirAll] of the directory, then [os.WriteFile]. *)
Definition WriteFile (f : FileSystem) (path data : string) : FileSystem * option error :=
  if decide (path ∈ denied f) then (f, Some (Lib FileError))
  else (mkFS (<[path := data]> (files f)) (denied f), None).

(** ** BaseChannel *)

(** Modelled from the spec: BaseChannel.IsRunning and setRunning are in
    pkg/channels/base.go, outside the sources at hand; they read and set
    the run/not-run state of the channel. *)
Definition IsRunning (c : WorkerWSChannel) : bool := running c.

Definition setRunning (c : WorkerWSChannel) (b : bool) : WorkerWSChannel :=
  set_running c b.

(** Modelled from the spec: BaseChannel.IsAllowed, the allow-list check:
    a sender passes if the configured allow-list is empty (allow-all) or
    contains the sender id. *)
Definition IsAllowed (c : WorkerWSChannel) (sender : string) : bool :=
  match AllowFrom (config c) with
  | [] => true
  | l => existsb (String.eqb sender) l
  end.

(** Modelled from the spec: BaseChannel.HandleMessage hands the message
    over to the bus. *)
Definition HandleMessage (w : World) (d : Delivery) : World :=
  mkWorld (chan w) (env w) (closed w) (written w) (fs w) (delivered w ++ [d]).

(** ** Configuration *)

Fixpoint trimmed_nonempty (l : list string) : list string :=
  match l with
  | [] => []
  | x :: r =>
      let x := TrimSpace x in
      if String.eqb x "" then trimmed_nonempty r else x :: trimmed_nonempty r
  end.

Definition cleanTags (c : WorkerWSChannel) : list string :=
  trimmed_nonempty (Tags (config c)).

Definition validateConfig (c : WorkerWSChannel) : option error :=
  if String.eqb (TrimSpace (Address (config c))) ""
  then Some (Errorf "worker_ws.address is required")
  else if String.eqb (TrimSpace (Role (config c))) ""
  then Some (Errorf "worker_ws.role is required")
  else if negb (String.eqb (Role (config c)) "employee")
          && negb (String.eqb (Role (config c)) "boss")
  then Some (Errorf "worker_ws.role must be boss or employee")
  else if String.eqb (TrimSpace (Name (config c))) ""
  then Some (Errorf "worker_ws.name is required")
  else if (length (cleanTags c) =? 0)%nat
  then Some (Errorf "worker_ws.tags requires at least one non-empty tag")
  else None.

(** ** Intervals *)

(** An int64 after an operation that may overflow. *)
Definition wrap64 (z : Z) : Z := (z + 2 ^ 63) mod 2 ^ 64 - 2 ^ 63.

(** [time.Second], in the nanoseconds a [time.Duration] counts. *)
Definition Second : Z := 1000000000.

(** [time.Duration(sec) * time.Second]. *)
Definition seconds (sec : Z) : Z := wrap64 (wrap64 sec * Second).

Definition reconnectInterval (c : WorkerWSChannel) : Z :=
  let sec := ReconnectInterval (config c) in
  if sec <=? 0 then 0
  else
    let sec := if sec <? 5 then 5 else sec in
    seconds sec.

Definition pingInterval (c : WorkerWSChannel) : Z :=
  let sec := PingInterval (config c) in
  let sec := if sec <=? 0 then 15 else sec in
  let sec := if sec <? 5 then 5 else sec in
  seconds sec.

(** ** Identity store *)

Definition workerWSDefaultIdentityFile : string := "~/.mimiclaw/worker_ws_identity.json".

Definition expandHomePath (e : Env) (path : string) : string :=
  match path with
  | EmptyString => path
  | String c0 rest =>
      if Ascii.eqb c0 "~" then
        let home := UserHomeDir e in
        match rest with
        | String c1 rest' =>
            if Ascii.eqb c1 "/" || Ascii.eqb c1 "\" then Join e home rest' else home
        | EmptyString => home
        end
      else path
  end.

Definition resolveIdentityPath (w : World) : string :=
  let path := TrimSpace (IdentityFile (config (chan w))) in
  let path := if String.eqb path "" then workerWSDefaultIdentityFile else path in
  expandHomePath (env w) path.

(** How a member of the identity file is stored in a [workerWSIdentity]
    (fields tagged [id] and [key]). *)
Definition store_identity (k : string) (v : json) (id : workerWSIdentity)
    : option workerWSIdentity :=
  if names_field k "id" then option_map (fun s => mkIdentity s (Key id)) (store_string v (ID id))
  else if names_field k "key"
       then option_map (fun s => mkIdentity (ID id) s) (store_string v (Key id))
       else Some id.

Definition loadIdentity (w : World) : World * option error :=
  let path := resolveIdentityPath w in
  match ReadFile (fs w) path with
  | NotExist => (w, None)
  | ReadDenied => (w, Some (Lib FileError))
  | FileData data =>
      match Unmarshal_struct store_identity (mkIdentity "" "") data with
      | Err e => (w, Some (Lib (JsonError e)))
      | Ok id =>
          if String.eqb (ID id) "" || String.eqb (Key id) "" then (w, None)
          else (set_chan w (set_identity (chan w) id), None)
      end
  end.

Definition newline : string := String (byte 10) "".

(** [json.MarshalIndent(id, "", "  ")] on an identity. *)
Definition MarshalIndent_identity (id : workerWSIdentity) : string :=
  "{" ++ newline ++ "  " ++ quote "id" ++ ": " ++ quote (ID id) ++ "," ++ newline
      ++ "  " ++ quote "key" ++ ": " ++ quote (Key id) ++ newline ++ "}".

Definition saveIdentity (w : World) : World * option error :=
  let path := resolveIdentityPath w in
  let id := identity (chan w) in
  if String.eqb (ID id) "" || String.eqb (Key id) "" then (w, None)
  else
    let data := MarshalIndent_identity id in
    let '(f, err) := WriteFile (fs w) path data in
    (set_fs w f, err).

(** [NewWorkerWSChannel]: a channel with the zero identity, then a load
    whose error is dropped. *)
Definition NewWorkerWSChannel (cfg : WorkerWSConfig) (e : Env) (f : FileSystem) : World :=
  let c := mkChannel false cfg NoContext None (mkIdentity "" "") in
  fst (loadIdentity (mkWorld c e ∅ [] f [])).

(** ** Outbound envelope *)

Definition resolveTarget (chatID : string) : any :=
  let chatID := TrimSpace chatID in
  if String.eqb chatID "" then VString "*"
  else if String.eqb chatID "*" || EqualFold_ascii chatID "all" then VString chatID
  else
    let fallthrough := VString chatID in
    if Contains chatID "," then
      let parts := Split chatID "," in
      let targets := trimmed_nonempty parts in
      match targets with
      | [t] => VString t
      | _ :: _ :: _ => VStrings targets
      | [] => fallthrough
      end
    else fallthrough.

Definition buildPayload (content : string) : any :=
  let content := TrimSpace content in
  if String.eqb content "" then VMap {["content" := VString ""]}
  else match Unmarshal_any content with
       | Ok parsed => parsed
       | Err _ => VMap {["content" := VString content]}
       end.

(** [nextMsgID], at a clock reading [now] nanoseconds since the epoch. *)
Definition nextMsgID (now : Z) : string := "mimiclaw-" ++ format_d now.

(** [buildAuthMessage], at a clock reading [now_ms] milliseconds. *)
Definition buildAuthMessage (c : WorkerWSChannel) (now_ms : Z) : gmap string any :=
  let msg : gmap string any :=
    <["meta" := VMap (<["timestamp" := VInt64 now_ms]> {["client" := VString "mimiclaw"]})]>
      (<["tags" := VStrings (cleanTags c)]>
         (<["name" := VString (Name (config c))]>
            (<["role" := VString (Role (config c))]> {["type" := VString "auth"]}))) in
  let msg := if String.eqb (TrimSpace (AuthKey (config c))) "" then msg
             else <["authkey" := VString (AuthKey (config c))]> msg in
  let id := ID (identity c) in
  let key := Key (identity c) in
  if negb (String.eqb id "") && negb (String.eqb key "")
  then <["identity" := VMap (<["key" := VString key]> {["id" := VString id]})]> msg
  else msg.

(** ** Handshake *)

Record workerWSAuthOK : Type := mkAuthOK {
  ok_Type : string;
  ok_ID : string;
  ok_Key : string;
  ok_Role : string;
  ok_Reconnected : bool
}.

Definition store_authOK (k : string) (v : json) (a : workerWSAuthOK) : option workerWSAuthOK :=
  if names_field k "type"
  then option_map (fun s => mkAuthOK s (ok_ID a) (ok_Key a) (ok_Role a) (ok_Reconnected a))
                  (store_string v (ok_Type a))
  else if names_field k "id"
  then option_map (fun s => mkAuthOK (ok_Type a) s (ok_Key a) (ok_Role a) (ok_Reconnected a))
                  (store_string v (ok_ID a))
  else if names_field k "key"
  then option_map (fun s => mkAuthOK (ok_Type a) (ok_ID a) s (ok_Role a) (ok_Reconnected a))
                  (store_string v (ok_Key a))
  else if names_field k "role"
  then option_map (fun s => mkAuthOK (ok_Type a) (ok_ID a) (ok_Key a) s (ok_Reconnected a))
                  (store_string v (ok_Role a))
  else if names_field k "reconnected"
  then option_map (fun b => mkAuthOK (ok_Type a) (ok_ID a) (ok_Key a) (ok_Role a) b)
                  (store_bool v (ok_Reconnected a))
  else Some a.

(** The struct both waits decode a frame into first. *)
Record base_frame : Type := mkBase {
  b_Type : string;
  b_Code : string;
  b_Message : string
}.

Definition store_base (k : string) (v : json) (b : base_frame) : option base_frame :=
  if names_field k "type"
  then option_map (fun s => mkBase s (b_Code b) (b_Message b)) (store_string v (b_Type b))
  else if names_field k "code"
  then option_map (fun s => mkBase (b_Type b) s (b_Message b)) (store_string v (b_Code b))
  else if names_field k "message"
  then option_map (fun s => mkBase (b_Type b) (b_Code b) s) (store_string v (b_Message b))
  else Some b.

Definition store_type (k : string) (v : json) (t : string) : option string :=
  if names_field k "type" then store_string v t else Some t.

(** [json.Unmarshal(data, &base)] and [json.Unmarshal(data, &ok)], each
    into a zero struct. *)
Definition unmarshal_base (data : string) : result unmarshal_error base_frame :=
  Unmarshal_struct store_base (mkBase "" "" "") data.

Definition unmarshal_authOK (data : string) : result unmarshal_error workerWSAuthOK :=
  Unmarshal_struct store_authOK (mkAuthOK "" "" "" "" false) data.

(** [awaitHello] on the frames the connection delivers before its read
    fails (deadline or loss): the error, and the frames left. *)
Definition awaitHello (incoming : list string) : option error * list string :=
  match incoming with
  | [] => (Some (Wrapf "waiting hello failed" (Lib ReadError)), [])
  | data :: rest =>
      match Unmarshal_struct store_type "" data with
      | Err e => (Some (Wrapf "hello is not valid json" (Lib (JsonError e))), rest)
      | Ok t =>
          if String.eqb t "hello" then (None, rest)
          else (Some (Errorq "expected hello, got " t), rest)
      end
  end.

(** [awaitAuthOK]: frames are read until one settles the handshake; when
    the frames run out the read fails. *)
Fixpoint awaitAuthOK (incoming : list string) : result error workerWSAuthOK * list string :=
  match incoming with
  | [] => (Err (Wrapf "waiting auth_ok failed" (Lib ReadError)), [])
  | data :: rest =>
      match unmarshal_base data with
      | Err e => (Err (Wrapf "auth response invalid json" (Lib (JsonError e))), rest)
      | Ok base =>
          if String.eqb (b_Type base) "auth_ok" then
            match unmarshal_authOK data with
            | Err e => (Err (Wrapf "parse auth_ok failed" (Lib (JsonError e))), rest)
            | Ok ok =>
                if String.eqb (ok_ID ok) "" || String.eqb (ok_Key ok) ""
                then (Err (Errorf "auth_ok missing id/key"), rest)
                else (Ok ok, rest)
            end
          else if String.eqb (b_Type base) "error" then
            let code := if String.eqb (b_Code base) "" then "auth_failed" else b_Code base in
            (Err (Errorf ("auth rejected: " ++ b_Message base ++ " (" ++ code ++ ")")), rest)
          else awaitAuthOK rest
      end
  end.

(** ** Inbound dispatch *)

Definition asString `{GoLib} (v : any) : string :=
  match v with
  | VString val => val
  | VJsonNumber val => val
  | VFloat64 val => Float64.format_f0 val
  | VInt64 val => format_d val
  | VInt val => format_d val
  | VNil => ""
  | _ => Sprint_v v
  end.

(** [json.Marshal], with the fall-back of [payloadToContent] on an error. *)
Definition marshal_or_print `{GoLib} (p : any) : string :=
  match Marshal p with
  | Some b => b
  | None => Sprint_v p
  end.

(** The loop of [payloadToContent] over the names of the text fields. *)
Fixpoint first_text (p : gmap string any) (keys : list string) : option string :=
  match keys with
  | [] => None
  | key :: r =>
      match map_index p key with
      | VString s => if negb (String.eqb (TrimSpace s) "") then Some s else first_text p r
      | _ => first_text p r
      end
  end.

Definition payloadToContent `{GoLib} (payload : any) : string :=
  match payload with
  | VNil => ""
  | VString p => p
  | VMap p =>
      match first_text p ["content"; "message"; "text"; "result"; "task"] with
      | Some s => s
      | None => marshal_or_print payload
      end
  | _ => marshal_or_print payload
  end.

(** One of the four conditional entries of the metadata. *)
Definition add_metadata `{GoLib} (msg : gmap string any) (key : string)
    (metadata : gmap string string) : gmap string string :=
  let v := asString (map_index msg key) in
  if negb (String.eqb v "") then <[key := v]> metadata else metadata.

Definition handleInboundRoutedMessage `{GoLib} (w : World) (msg : gmap string any) : World :=
  let fromID := asString (map_index msg "from_id") in
  let fromID := if String.eqb fromID "" then "worker_ws" else fromID in
  if negb (IsAllowed (chan w) fromID) then w
  else
    let content := payloadToContent (map_index msg "payload") in
    let content := if String.eqb content "" then "{}" else content in
    let metadata : gmap string string := ∅ in
    let metadata := add_metadata msg "msg_id" metadata in
    let metadata := add_metadata msg "from_role" metadata in
    let metadata := add_metadata msg "to" metadata in
    let metadata := add_metadata msg "timestamp" metadata in
    HandleMessage w (mkDelivery fromID fromID content metadata).

(** [v, _ := x.(string)]. *)
Definition string_or_zero (x : any) : string :=
  match x with
  | VString s => s
  | _ => ""
  end.

Definition handleServerMessage `{GoLib} (w : World) (data : string) : World :=
  match Unmarshal_map data with
  | Err _ => w
  | Ok msg =>
      let msgType := string_or_zero (map_index msg "type") in
      if String.eqb msgType "pong" || String.eqb msgType "health_report_ack" then w
      else if String.eqb msgType "delivery_ack" then w
      else if String.eqb msgType "error" then w
      else if String.eqb msgType "system" then w
      else if String.eqb msgType "message" then handleInboundRoutedMessage w msg
      else if String.eqb msgType "auth_ok" then
        let id := asString (map_index msg "id") in
        if negb (String.eqb id "") then
          let key := asString (map_index msg "key") in
          let w := set_chan w (set_identity (chan w) (mkIdentity id key)) in
          fst (saveIdentity w)
        else w
      else w
  end.

(** ** The connection handle *)

Definition getConn (c : WorkerWSChannel) : option Conn := conn c.

(** [clearConnIfCurrent]; [None] is the panic of calling [Close] through a
    nil pointer, which takes a nil argument while no connection is held. *)
Definition clearConnIfCurrent (w : World) (k : option Conn) : option World :=
  if decide (conn (chan w) = k) then
    match conn (chan w) with
    | Some cur =>
        let w := Close w cur in
        Some (set_chan w (set_conn (chan w) None))
    | None => None
    end
  else Some w.

Definition writeJSONConn `{GoLib} (w : World) (k : Conn) (v : any) : World * option error :=
  match Marshal v with
  | None => (w, Some (Lib MarshalError))
  | Some data => WriteMessage w k data
  end.

Definition sendJSON `{GoLib} (w : World) (v : any) : World * option error :=
  match getConn (chan w) with
  | None => (w, Some (Errorf "worker ws not connected"))
  | Some k => writeJSONConn w k v
  end.

(** ** Facade *)

(** [Send], at a clock reading [now] nanoseconds. *)
Definition Send `{GoLib} (w : World) (now : Z) (msg : OutboundMessage) : World * option error :=
  if negb (IsRunning (chan w)) then (w, Some (Errorf "worker_ws channel not running"))
  else
    let req : gmap string any :=
      <["msg_id" := VString (nextMsgID now)]>
        (<["payload" := buildPayload (Content msg)]>
           (<["to" := resolveTarget (ChatID msg)]> {["type" := VString "message"]})) in
    sendJSON w (VMap req).

Definition cancel (x : context) : context :=
  match x with
  | NoContext => NoContext    (* [c.cancel] is nil: nothing to call *)
  | _ => Cancelled
  end.

Definition Stop (w : World) : World :=
  let w := set_chan w (setRunning (chan w) false) in
  let w := set_chan w (set_ctx (chan w) (cancel (ctx (chan w)))) in
  match conn (chan w) with
  | Some k =>
      let w := Close w k in
      set_chan w (set_conn (chan w) None)
  | None => w
  end.

(** ** Session *)

(** One turn of [readLoop]'s body in which [ReadMessage] returns a frame.
    The loop shares the channel with the other goroutines, and it tests
    the context at the top of the body only: [tn_during] is what the
    others do to the world between that test and the return of the read
    (the loop is blocked in [ReadMessage] meanwhile), [tn_frame] is the
    frame read, [tn_after] is what they do between the dispatch of the
    frame and the loop's next test. *)
Record turn : Type := mkTurn {
  tn_during : World -> World;
  tn_frame : string;
  tn_after : World -> World
}.

(** [readLoop], from a test of the context on, in the world [w] of that
    test. [turns] are the reads that return a frame, in order; [last] is
    what the other goroutines do while the loop is blocked in the read
    that fails. A context that is done at the test ends the loop before
    it reads. After the test nothing looks at the context again until the
    next turn: the frame read is dispatched, and a failed read clears the
    handle, in the world as it is then. [None] is a panic: [c.ctx] is nil
    (no [Start] has set it) and [c.ctx.Done()] is called on it, or
    [clearConnIfCurrent] panics. *)
Fixpoint readLoop `{GoLib} (w : World) (k : option Conn) (turns : list turn)
    (last : World -> World) : option World :=
  match ctx (chan w) with
  | NoContext => None
  | Cancelled => Some w
  | Live =>
      match turns with
      | [] => clearConnIfCurrent (last w) k
      | t :: rest =>
          readLoop (tn_after t (handleServerMessage (tn_during t w) (tn_frame t))) k rest last
      end
  end.

(** [connectAndAuthenticate]. [dial] is what [Dial] returns: nothing, or a
    new connection with the frames it will deliver. The result has the
    frames left for the read loop that is started on success. *)
Definition connectAndAuthenticate `{GoLib} (w : World) (dial : option (Conn * list string))
    (now_ms : Z) : World * option error * list string :=
  match dial with
  | None => (w, Some (Wrapf "dial worker ws failed" (Lib DialError)), [])
  | Some (k, incoming) =>
      match awaitHello incoming with
      | (Some err, rest) => (Close w k, Some err, rest)
      | (None, rest) =>
          match writeJSONConn w k (VMap (buildAuthMessage (chan w) now_ms)) with
          | (w, Some err) => (Close w k, Some (Wrapf "send auth failed" err), rest)
          | (w, None) =>
              match awaitAuthOK rest with
              | (Err err, rest) => (Close w k, Some err, rest)
              | (Ok authOK, rest) =>
                  let w := match conn (chan w) with
                           | Some old => Close w old
                           | None => w
                           end in
                  let w := set_chan w (set_conn (chan w) (Some k)) in
                  let w := set_chan w (set_identity (chan w)
                                         (mkIdentity (ok_ID authOK) (ok_Key authOK))) in
                  let w := fst (saveIdentity w) in
                  (w, None, rest)
              end
          end
      end
  end.

(** ** Notation for the examples *)

(** Frames and contents are written with ['] where the JSON text has a
    double quote. *)
Definition js (s : string) : string :=
  string_of (map (fun c => if Ascii.eqb c "'" then dquote else c) (bytes_of s)).

(** ** Start and the two timer loops *)

(** The goroutines a call starts. *)
Inductive goroutine : Type :=
| GoReadLoop (k : Conn)
| GoReconnectLoop
| GoPingLoop.

(** [context.WithCancel(parent)]: live, unless the parent is done already. *)
Definition WithCancel (parent_done : bool) : context :=
  if parent_done then Cancelled else Live.

(** The read loop [connectAndAuthenticate] starts when it succeeds. *)
Definition read_loop_of (dial : option (Conn * list string)) (err : option error)
    : list goroutine :=
  match dial, err with
  | Some (k, _), None => [GoReadLoop k]
  | _, _ => []
  end.

(** [Start]: the world, the error returned and the goroutines started.
    [parent_done] tells whether the context passed in is done; [dial] and
    [now_ms] are those of the handshake attempt. *)
Definition Start `{GoLib} (w : World) (parent_done : bool)
    (dial : option (Conn * list string)) (now_ms : Z)
    : World * option error * list goroutine :=
  match validateConfig (chan w) with
  | Some err => (w, Some err, [])
  | None =>
      let w := set_chan w (set_ctx (chan w) (WithCancel parent_done)) in
      let '(w, err, _) := connectAndAuthenticate w dial now_ms in
      let readers := read_loop_of dial err in
      match err with
      | Some e =>
          if reconnectInterval (chan w) <=? 0 then (w, Some e, readers)
          else
            let loops := if 0 <? pingInterval (chan w) then [GoPingLoop] else [] in
            (set_chan w (setRunning (chan w) true), None,
             (readers ++ GoReconnectLoop :: loops)%list)
      | None =>
          let loops1 := if 0 <? reconnectInterval (chan w) then [GoReconnectLoop] else [] in
          let loops2 := if 0 <? pingInterval (chan w) then [GoPingLoop] else [] in
          (set_chan w (setRunning (chan w) true), None, (readers ++ loops1 ++ loops2)%list)
      end
  end.

(** The frame of a ping. *)
Definition ping_message : any := VMap {["type" := VString "ping"]}.

(** What [pingLoop] does when its ticker fires (the loop itself chooses
    between the ticker and the cancellation, whichever is ready). The
    error of the send is only logged. *)
Definition pingTick `{GoLib} (w : World) : World :=
  match getConn (chan w) with
  | None => w
  | Some _ => fst (sendJSON w ping_message)
  end.

(** What [reconnectLoop] does when its ticker fires: the world and the
    read loop started, if any. [dial] is what dialling would return; it is
    not looked at while a connection is held. *)
Definition reconnectTick `{GoLib} (w : World) (dial : option (Conn * list string))
    (now_ms : Z) : World * list goroutine :=
  match getConn (chan w) with
  | Some _ => (w, [])
  | None =>
      let '(w, err, _) := connectAndAuthenticate w dial now_ms in
      (w, read_loop_of dial err)
  end.

(** ** Sample data for the examples *)

(** The configuration of the repository's tests. *)
Definition sample_config : WorkerWSConfig :=
  {| Address := "ws://127.0.0.1:3001/ws"; Role := "employee"; Name := "Researcher-1";
     Tags := ["research"]; AuthKey := ""; IdentityFile := "";
     ReconnectInterval := 0; PingInterval := 0; AllowFrom := [] |}.

Definition with_intervals (cfg : WorkerWSConfig) (reconnect ping : Z) : WorkerWSConfig :=
  {| Address := Address cfg; Role := Role cfg; Name := Name cfg; Tags := Tags cfg;
     AuthKey := AuthKey cfg; IdentityFile := IdentityFile cfg;
     ReconnectInterval := reconnect; PingInterval := ping; AllowFrom := AllowFrom cfg |}.

Definition sample_env : Env :=
  {| UserHomeDir := "/home/worker"; Join := fun dir name => dir ++ "/" ++ name |}.

(** A channel as [NewWorkerWSChannel] makes it on an empty file system. *)
Definition fresh_world (cfg : WorkerWSConfig) : World :=
  NewWorkerWSChannel cfg sample_env (mkFS ∅ ∅).

(** The same channel marked running, holding connection [k] and the
    identity [id]. *)
Definition connected_world (cfg : WorkerWSConfig) (k : Conn) (id : workerWSIdentity) : World :=
  let w := fresh_world cfg in
  set_chan w (mkChannel true cfg Live (Some k) id).

(** A stand-in for the library in the examples: every value prints as
    "%v" and marshals to the text "json". The examples depend on neither
    text. *)
Definition example_lib : GoLib :=
  {| Sprint_v := fun _ => "%v"; Marshal := fun _ => Some "json" |}.

End WorkerWS.

(* ===================================================================== *)
(** * Vocabulary of the specification *)
(* ===================================================================== *)

Import GoStrings Json WorkerWS.
#[local] Open Scope string_scope.
#[local] Open Scope Z_scope.

(** An identity is held when both of its fields are set. *)
Definition identity_held (id : workerWSIdentity) : Prop := ID id <> "" /\ Key id <> "".

(** The invariant of the data model: absent as a whole or present as a whole. *)
Definition identity_whole (id : workerWSIdentity) : Prop :=
  (ID id = "" /\ Key id = "") \/ identity_held id.

(** What [Stop] does to the connections closed so far. *)
Definition closed_after_stop (w : World) : gset Conn :=
  match conn (chan w) with
  | Some k => {[k]} ∪ closed w
  | None => closed w
  end.

(** The case variants of "all". *)
Definition all_variants : list string :=
  ["all"; "alL"; "aLl"; "aLL"; "All"; "AlL"; "ALl"; "ALL"].

(** The parts of a comma-separated string, trimmed, without the empty ones. *)
Definition target_items (t : string) : list string :=
  List.filter (fun p => negb (String.eqb p "")) (List.map TrimSpace (Split t ",")).

(** The object [{content: s}]. *)
Definition content_object (s : string) : any := VMap {["content" := VString s]}.

(** A frame the wait for auth_ok passes over: it decodes, and its type is
    neither auth_ok nor error. *)
Definition ignorable (data : string) : Prop :=
  exists base, unmarshal_base data = Ok base
               /\ b_Type base <> "auth_ok" /\ b_Type base <> "error".

(** The four fields of a routed message that go to the metadata. *)
Definition metadata_keys : list string := ["msg_id"; "from_role"; "to"; "timestamp"].

(** The sender a routed message is delivered under. *)
Definition sender_of `{GoLib} (msg : gmap string any) : string :=
  let from := asString (map_index msg "from_id") in
  if String.eqb from "" then "worker_ws" else from.

Fixpoint all_digits (s : string) : bool :=
  match s with
  | EmptyString => true
  | String c r => is_digit c && all_digits r
  end.

Definition digits1 (s : string) : bool :=
  match s with
  | EmptyString => false
  | _ => all_digits s
  end.

(** A decimal integer: one or more digits, after an optional minus sign. *)
Definition decimal_integer (s : string) : bool :=
  match s with
  | String c r => if Ascii.eqb c "-" then digits1 r else digits1 s
  | EmptyString => false
  end.

(** A float64 that is a number: what a JSON number decodes to. *)
Definition finite (f : Float64.float64) : Prop :=
  match f with
  | S754_zero _ | S754_finite _ _ _ => True
  | _ => False
  end.

(** The metadata and the content [handleInboundRoutedMessage] computes. *)
Definition metadata_of `{GoLib} (msg : gmap string any) : gmap string string :=
  add_metadata msg "timestamp"
    (add_metadata msg "to" (add_metadata msg "from_role" (add_metadata msg "msg_id" ∅))).

Definition content_of `{GoLib} (msg : gmap string any) : string :=
  let content := payloadToContent (map_index msg "payload") in
  if String.eqb content "" then "{}" else content.

(** The message a frame decodes to (empty when it does not decode). *)
Definition message_of (data : string) : gmap string any :=
  match Unmarshal_map data with
  | Ok msg => msg
  | Err _ => ∅
  end.

(** ** Vocabulary for the identity file's round trip *)

(** A string with every byte that is not part of well-formed UTF-8
    replaced by U+FFFD: what the decoder makes of a string literal. *)
Definition coerce (s : string) : string := string_of (coerce_utf8 (bytes_of s)).

(** The scanner run over a piece of a text, without the end of input: the
    state reached and the tokens met. *)
Fixpoint lex_steps (st : lex_state) (l : list ascii) : option (lex_state * list token) :=
  match l with
  | [] => Some (st, [])
  | c :: r =>
      match lex_step st c with
      | Some (st', toks) =>
          match lex_steps st' r with
          | Some (st'', ts) => Some (st'', (toks ++ ts)%list)
          | None => None
          end
      | None => None
      end
  end.

(** A byte that stands for itself inside a string literal. *)
Definition plain (c : ascii) : bool :=
  ((32 <=? code c) && negb (code c =? 34) && negb (code c =? 92))%N.

(** Bytes after which the coercion to UTF-8 starts afresh. *)
Definition closed_run (a : list ascii) : Prop :=
  forall b, coerce_utf8 (a ++ b) = (a ++ coerce_utf8 b)%list.

(** Bytes that a string literal holds as they are. *)
Definition str_ok (chunk : list ascii) : Prop :=
  forall body, lex_steps (LString body) chunk = Some (LString (rev chunk ++ body), []).

(** [enc_rel l e d]: the bytes [l] are written as [e] in a string literal,
    which stands for the bytes [d]; piece by piece, each piece kept as it is,
    written as a one-letter escape, or written as a [\u] escape. *)
Inductive enc_rel : list ascii -> list ascii -> list ascii -> Prop :=
| enc_nil : enc_rel [] [] []
| enc_raw (v l e d : list ascii) :
    Forall (fun c => plain c = true) v -> closed_run v ->
    enc_rel l e d -> enc_rel (v ++ l) (v ++ e) (v ++ d)
| enc_esc (c x : ascii) (l e d : list ascii) :
    simple_escape x = Some c -> (code c <? 128)%N = true ->
    enc_rel l e d -> enc_rel (c :: l) ("\"%char :: x :: e) (c :: d)
| enc_u16 (inp : list ascii) (h1 h2 h3 h4 : ascii) (n : N) (l e d : list ascii) :
    hex4 h1 h2 h3 h4 = Some n -> is_surrogate n = false ->
    enc_rel l e d ->
    enc_rel (inp ++ l) ("\"%char :: "u"%char :: h1 :: h2 :: h3 :: h4 :: e)
            (encode_rune n ++ d).

(** ** Vocabulary for payloads *)

(** The names of the text fields of an object payload, in the order
    [payloadToContent] tries them. *)
Definition text_keys : list string := ["content"; "message"; "text"; "result"; "task"].

(** A field that gives the content: a string that is not blank. *)
Definition usable (p : gmap string any) (key : string) : Prop :=
  exists s, map_index p key = VString s /\ TrimSpace s <> "".

(** ** Vocabulary for the facade *)

(** The envelope [Send] builds for a message at clock reading [now]. *)
Definition envelope_of (now : Z) (msg : OutboundMessage) : gmap string any :=
  <["msg_id" := VString (nextMsgID now)]>
    (<["payload" := buildPayload (Content msg)]>
       (<["to" := resolveTarget (ChatID msg)]> {["type" := VString "message"]})).

(** A world with one more frame written. *)
Definition with_frame (w : World) (k : Conn) (data : string) : World :=
  mkWorld (chan w) (env w) (closed w) (written w ++ [(k, data)]) (fs w) (delivered w).

(** The other goroutines do nothing. *)
Definition idle (w : World) : World := w.

(** The turns of a read loop that reads [frames] while the other
    goroutines do nothing. *)
Definition undisturbed (frames : list string) : list turn :=
  map (fun data => mkTurn idle data idle) frames.

(** The other goroutines cancel the context, as the [cancel] of [Stop]
    does, and do nothing else. *)
Definition cancel_only (w : World) : World :=
  set_chan w (set_ctx (chan w) (cancel (ctx (chan w)))).

(** The timer loops [Start] starts for a channel. *)
Definition loops_of (c : WorkerWSChannel) : list goroutine :=
  ((if 0 <? reconnectInterval c then [GoReconnectLoop] else [])
   ++ (if 0 <? pingInterval c then [GoPingLoop] else []))%list.

(* ===================================================================== *)
(** * Properties *)
(* ===================================================================== *)

(** ** Strings *)

Lemma eqb_empty_false (s : string) : String.eqb s "" = false <-> s <> "".
Proof. apply String.eqb_neq. Qed.

(** The loop that trims and drops empties is a map followed by a filter. *)
Lemma trimmed_nonempty_filter (l : list string) :
  trimmed_nonempty l = List.filter (fun x => negb (String.eqb x "")) (List.map TrimSpace l).
Proof.
  induction l as [|x l IH]; simpl; [reflexivity|].
  destruct (String.eqb (TrimSpace x) ""); simpl; now rewrite IH.
Qed.

Lemma trimmed_nonempty_nil (l : list string) :
  trimmed_nonempty l = [] <-> (forall t, In t l -> TrimSpace t = "").
Proof.
  induction l as [|x l IH]; simpl.
  - split; [intros _ t []|reflexivity].
  - destruct (String.eqb_spec (TrimSpace x) "") as [E|E].
    + rewrite IH. split.
      * intros H t [<-|Ht]; auto.
      * intros H t Ht. apply H. now right.
    + split; [discriminate|].
      intros H. exfalso. apply E, H. now left.
Qed.

Lemma trimmed_nonempty_In (l : list string) (x : string) :
  In x (trimmed_nonempty l) <-> x <> "" /\ exists t, In t l /\ TrimSpace t = x.
Proof.
  rewrite trimmed_nonempty_filter, filter_In, in_map_iff, negb_true_iff, eqb_empty_false.
  split.
  - intros [(t & <- & Ht) Hne]. split; [assumption|]. now exists t.
  - intros [Hne (t & Ht & <-)]. split; [|assumption]. now exists t.
Qed.

(** ** The library model on known values *)

Example TrimSpace_unicode :
  TrimSpace (string_of ([byte 9; byte 194; byte 160] ++ bytes_of "a b"
                          ++ [byte 226; byte 128; byte 137; byte 10]))
  = "a b".
Proof. reflexivity. Qed.

Example Split_keeps_empty_parts : Split "a,,b," "," = ["a"; ""; "b"; ""].
Proof. reflexivity. Qed.

Example ParseFloat_rounds_to_even :
  Float64.ParseFloat "9007199254740993" = Float64.ParseFloat "9007199254740992"
  /\ Float64.ParseFloat "1e309" = None
  /\ Float64.ParseFloat "1e-400" = Some (S754_zero false).
Proof. vm_compute. auto. Qed.

Example format_f0_ties :
  option_map Float64.format_f0 (Float64.ParseFloat "0.5") = Some "0"
  /\ option_map Float64.format_f0 (Float64.ParseFloat "1.5") = Some "2"
  /\ option_map Float64.format_f0 (Float64.ParseFloat "2.5") = Some "2"
  /\ option_map Float64.format_f0 (Float64.ParseFloat "-0.4") = Some "-0"
  /\ option_map Float64.format_f0 (Float64.ParseFloat "1e21")
     = Some "1000000000000000000000".
Proof. vm_compute. auto 6. Qed.

Example parse_is_strict :
  parse "01" = None /\ parse "[1,]" = None /\ parse "{'a':1}" = None
  /\ parse "" = None /\ parse "1 2" = None /\ parse "nul" = None
  /\ parse (js " {'a': [1, true, null], 'a': '\u00e9'} ")
     = Some (JObject [("a", JArray [JNumber "1"; JBool true; JNull]);
                      ("a", JString (string_of [byte 195; byte 169]))]).
Proof. vm_compute. auto 8. Qed.

Example Unmarshal_any_last_member_wins :
  Unmarshal_any (js "{'a':1,'a':'x'}") = Ok (VMap {["a" := VString "x"]})
  /\ Unmarshal_any "1e999" = Err UnmarshalTypeError.
Proof. vm_compute. auto. Qed.

Example member_names_fold :
  unmarshal_base (js "{'TYPE':'error','Code':'c','message':null}")
  = Ok (mkBase "error" "c" "").
Proof. vm_compute. reflexivity. Qed.

(** The identity round trip of the specification, on its example. *)
Example identity_round_trip :
  let w := set_chan (fresh_world sample_config)
             (set_identity (chan (fresh_world sample_config)) (mkIdentity "e1" "k1")) in
  let saved := fst (saveIdentity w) in
  files (fs saved) !! "/home/worker/.mimiclaw/worker_ws_identity.json"
  = Some (js ("{" ++ newline ++ "  'id': 'e1'," ++ newline ++ "  'key': 'k1'" ++ newline
              ++ "}"))
  /\ identity (chan (NewWorkerWSChannel sample_config sample_env (fs saved)))
     = mkIdentity "e1" "k1"
  /\ loadIdentity (fresh_world sample_config) = (fresh_world sample_config, None).
Proof. vm_compute. auto. Qed.

(** ** Configuration validation *)

(** C7. [validateConfig] returns no error exactly for the configurations
    that have all four of: an address that is not blank, a role equal to
    "employee" or "boss", a name that is not blank, and at least one tag
    that is not empty after trimming. Every configuration that misses one
    of them gets an error. *)
Theorem validateConfig_iff (c : WorkerWSChannel) :
  validateConfig c = None
  <-> (TrimSpace (Address (config c)) <> ""
       /\ (Role (config c) = "employee" \/ Role (config c) = "boss")
       /\ TrimSpace (Name (config c)) <> ""
       /\ exists t, In t (Tags (config c)) /\ TrimSpace t <> "").
Proof.
  unfold validateConfig.
  assert (Htags : (length (cleanTags c) =? 0)%nat = false
                  <-> exists t, In t (Tags (config c)) /\ TrimSpace t <> "").
  { unfold cleanTags. rewrite Nat.eqb_neq. split.
    - intros Hlen. destruct (trimmed_nonempty (Tags (config c))) as [|x l] eqn:E;
        [now elim Hlen|].
      assert (Hx : In x (trimmed_nonempty (Tags (config c)))) by (rewrite E; now left).
      apply trimmed_nonempty_In in Hx as [Hne (t & Ht & Hx)].
      exists t. split; [assumption|congruence].
    - intros (t & Ht & Hne) Hlen.
      destruct (trimmed_nonempty (Tags (config c))) eqn:E; [|discriminate].
      apply Hne. exact (proj1 (trimmed_nonempty_nil _) E t Ht). }
  destruct (String.eqb_spec (TrimSpace (Address (config c))) "") as [Ha|Ha].
  { split; [discriminate|]. intros (H & _). contradiction. }
  destruct (String.eqb_spec (TrimSpace (Role (config c))) "") as [Hr|Hr].
  { split; [discriminate|]. intros (_ & [E|E] & _); rewrite E in Hr; discriminate Hr. }
  destruct (String.eqb_spec (Role (config c)) "employee") as [He|He];
    destruct (String.eqb_spec (Role (config c)) "boss") as [Hb|Hb]; simpl;
    try (split; [discriminate|]; intros (_ & [E|E] & _); contradiction).
  all: destruct (String.eqb_spec (TrimSpace (Name (config c))) "") as [Hn|Hn];
    try (split; [discriminate|]; intros (_ & _ & H & _); contradiction).
  all: destruct (length (cleanTags c) =? 0)%nat eqn:Hl.
  all: try (split; [discriminate|]; intros (_ & _ & _ & H); apply Htags in H; discriminate H).
  all: split; [intros _|reflexivity]; repeat split; auto; now apply Htags.
Qed.

(** ** Intervals *)





(** ** Send *)

(** C5. [Send] on a channel that is not running returns the not-running
    error, and on a running channel that holds no connection the
    not-connected error. In both cases the error is the result of the call
    and nothing else happens: no frame is written, nothing is tried again,
    the world is as it was. *)
Theorem Send_fails_synchronously `{GoLib} (w : World) (now : Z) (msg : OutboundMessage) :
  (IsRunning (chan w) = false ->
   Send w now msg = (w, Some (Errorf "worker_ws channel not running")))
  /\ (IsRunning (chan w) = true -> getConn (chan w) = None ->
      Send w now msg = (w, Some (Errorf "worker ws not connected"))).
Proof.
  unfold Send, sendJSON. split.
  - intros ->. reflexivity.
  - intros -> ->. reflexivity.
Qed.

Lemma Send_fails_synchronously_witness :
  let stopped := fresh_world sample_config in
  let offline := set_chan stopped (setRunning (chan stopped) true) in
  let msg := {| ChatID := "peer-2"; Content := "hi" |} in
  @Send example_lib stopped 1 msg = (stopped, Some (Errorf "worker_ws channel not running"))
  /\ @Send example_lib offline 1 msg = (offline, Some (Errorf "worker ws not connected")).
Proof.
  split.
  - apply (@Send_fails_synchronously example_lib (fresh_world sample_config)). reflexivity.
  - apply (@Send_fails_synchronously example_lib
             (set_chan (fresh_world sample_config)
                (setRunning (chan (fresh_world sample_config)) true)));
      reflexivity.
Defined.

(** ** The connection handle *)

(** C3. [clearConnIfCurrent(conn)] closes the held connection and puts
    none in its place when the held connection is [conn] itself; when
    another connection is held, or none, the world is left as it is. The
    read loop of a started channel ends with this call when its read
    fails, on the world as the other goroutines have left it by then. *)
Theorem clearConnIfCurrent_spec `{GoLib} (w : World) (k : Conn) :
  (conn (chan w) = Some k ->
   clearConnIfCurrent w (Some k)
   = Some (mkWorld (set_conn (chan w) None) (env w) ({[k]} ∪ closed w)
                   (written w) (fs w) (delivered w)))
  /\ (conn (chan w) <> Some k -> clearConnIfCurrent w (Some k) = Some w)
  /\ (ctx (chan w) = Live ->
      forall last, readLoop w (Some k) [] last = clearConnIfCurrent (last w) (Some k)).
Proof.
  unfold clearConnIfCurrent. repeat split.
  - intros E. rewrite E. destruct (decide (Some k = Some k)); [reflexivity|congruence].
  - intros E. destruct (decide (conn (chan w) = Some k)); [contradiction|reflexivity].
  - intros E last. simpl. now rewrite E.
Qed.

Lemma clearConnIfCurrent_spec_witness :
  let id := mkIdentity "w1" "k1" in
  let w := connected_world sample_config 7%positive id in
  clearConnIfCurrent w (Some 7%positive)
  = Some (mkWorld (mkChannel true sample_config Live None id) sample_env {[7%positive]}
                  [] (mkFS ∅ ∅) [])
  /\ clearConnIfCurrent w (Some 8%positive) = Some w
  /\ @readLoop example_lib w (Some 8%positive) [] idle
     = clearConnIfCurrent w (Some 8%positive).
Proof.
  pose (w := connected_world sample_config 7%positive (mkIdentity "w1" "k1")).
  split; [|split].
  - apply (proj1 (@clearConnIfCurrent_spec example_lib w 7%positive)). reflexivity.
  - apply (proj1 (proj2 (@clearConnIfCurrent_spec example_lib w 8%positive))).
    vm_compute. discriminate.
  - apply (proj2 (proj2 (@clearConnIfCurrent_spec example_lib w 8%positive)) eq_refl idle).
Defined.

(** The call that ends the read loop of a connection never panics: the
    connection it clears is never nil. *)
Lemma readLoop_no_panic `{GoLib} (w : World) (k : Conn) (last : World -> World) :
  ctx (chan w) <> NoContext -> exists w', readLoop w (Some k) [] last = Some w'.
Proof.
  intros Hstarted. simpl.
  destruct (ctx (chan w)); [now elim Hstarted| |eexists; reflexivity].
  unfold clearConnIfCurrent.
  destruct (decide (conn (chan (last w)) = Some k)) as [E|E];
    [rewrite E|]; eexists; reflexivity.
Qed.

(** ** Identity *)

(** The auth message has an [identity] member exactly when an identity is
    held, and then with that id and key. *)
Lemma buildAuthMessage_identity (c : WorkerWSChannel) (now_ms : Z) :
  buildAuthMessage c now_ms !! "identity"
  = if negb (String.eqb (ID (identity c)) "") && negb (String.eqb (Key (identity c)) "")
    then Some (VMap (<["key" := VString (Key (identity c))]>
                       {["id" := VString (ID (identity c))]}))
    else None.
Proof.
  unfold buildAuthMessage.
  destruct (negb (String.eqb (ID (identity c)) "") && negb (String.eqb (Key (identity c)) "")).
  - now rewrite lookup_insert_eq.
  - destruct (String.eqb (TrimSpace (AuthKey (config c))) "");
      repeat (rewrite lookup_insert_ne by discriminate);
      now rewrite lookup_singleton_ne by discriminate.
Qed.

Lemma buildAuthMessage_held (c : WorkerWSChannel) (now_ms : Z) :
  identity_held (identity c) ->
  buildAuthMessage c now_ms !! "identity"
  = Some (VMap (<["key" := VString (Key (identity c))]> {["id" := VString (ID (identity c))]})).
Proof.
  intros [Hi Hk]. rewrite buildAuthMessage_identity.
  apply eqb_empty_false in Hi, Hk. now rewrite Hi, Hk.
Qed.

(** ** Stop *)

(** The effects of a world that connecting leaves alone when it fails
    early, and the frames it adds. *)
Lemma writeJSONConn_written `{GoLib} (w : World) (k : Conn) (v : any) (data : string) :
  k ∉ closed w -> Marshal v = Some data ->
  writeJSONConn w k v
  = (mkWorld (chan w) (env w) (closed w) (written w ++ [(k, data)]) (fs w) (delivered w), None).
Proof.
  intros Hk Hm. unfold writeJSONConn, WriteMessage. rewrite Hm.
  destruct (decide (k ∈ closed w)); [contradiction|reflexivity].
Qed.

Lemma saveIdentity_written (w : World) : written (fst (saveIdentity w)) = written w.
Proof.
  unfold saveIdentity.
  destruct (String.eqb (ID (identity (chan w))) "" || String.eqb (Key (identity (chan w))) "");
    [reflexivity|].
  destruct (WriteFile _ _ _). reflexivity.
Qed.

(** C9. [Stop] changes the running flag, the cancellation signal and the
    connection handle (closing the connection it held) and nothing else:
    configuration, identity, identity file, frames written and deliveries
    are as before. The auth message built after [Stop] is the one built
    before it, so a connection attempt made afterwards, once the peer has
    said hello, writes an auth frame that carries the identity held. *)
Theorem Stop_frame `{GoLib} (w : World) :
  Stop w = mkWorld (mkChannel false (config (chan w)) (cancel (ctx (chan w))) None
                      (identity (chan w)))
             (env w) (closed_after_stop w) (written w) (fs w) (delivered w)
  /\ identity (chan (Stop w)) = identity (chan w)
  /\ fs (Stop w) = fs w
  /\ (forall now_ms, buildAuthMessage (chan (Stop w)) now_ms = buildAuthMessage (chan w) now_ms)
  /\ (forall now_ms, identity_held (identity (chan w)) ->
        buildAuthMessage (chan (Stop w)) now_ms !! "identity"
        = Some (VMap (<["key" := VString (Key (identity (chan w)))]>
                        {["id" := VString (ID (identity (chan w)))]})))
  /\ (forall k hello rest now_ms data,
        k ∉ closed (Stop w) ->
        awaitHello (hello :: rest) = (None, rest) ->
        Marshal (VMap (buildAuthMessage (chan w) now_ms)) = Some data ->
        written (fst (fst (connectAndAuthenticate (Stop w) (Some (k, hello :: rest)) now_ms)))
        = (written w ++ [(k, data)])%list).
Proof.
  assert (HS : Stop w = mkWorld (mkChannel false (config (chan w)) (cancel (ctx (chan w))) None
                                   (identity (chan w)))
                          (env w) (closed_after_stop w) (written w) (fs w) (delivered w)).
  { destruct w as [[r cfg x [k|] id] e cl wr f dl]; reflexivity. }
  assert (HB : forall now_ms,
             buildAuthMessage (chan (Stop w)) now_ms = buildAuthMessage (chan w) now_ms).
  { intros now_ms. rewrite HS. reflexivity. }
  split; [exact HS|]. split; [now rewrite HS|]. split; [now rewrite HS|].
  split; [exact HB|]. split.
  - intros now_ms Hheld. rewrite HB. now apply buildAuthMessage_held.
  - intros k hello rest now_ms data Hk Hhello Hm.
    unfold connectAndAuthenticate. rewrite Hhello.
    rewrite (writeJSONConn_written (Stop w) k _ data Hk) by (now rewrite HB).
    rewrite HS. cbn [written chan conn].
    destruct (awaitAuthOK rest) as [[ok|err] rest']; cbn [fst]; [|reflexivity].
    rewrite saveIdentity_written. reflexivity.
Qed.

Lemma Stop_frame_witness :
  let id := mkIdentity "w1" "k1" in
  let w := connected_world sample_config 7%positive id in
  buildAuthMessage (chan (Stop w)) 1000 !! "identity"
  = Some (VMap (<["key" := VString "k1"]> {["id" := VString "w1"]}))
  /\ written (fst (fst (@connectAndAuthenticate example_lib (Stop w)
                          (Some (8%positive, [js "{'type':'hello'}"])) 1000)))
     = [(8%positive, "json")].
Proof.
  pose (w := connected_world sample_config 7%positive (mkIdentity "w1" "k1")).
  destruct (@Stop_frame example_lib w) as (_ & _ & _ & _ & Hid & Hconn).
  split.
  - apply (Hid 1000). split; vm_compute; discriminate.
  - apply (Hconn 8%positive (js "{'type':'hello'}") [] 1000 "json").
    + vm_compute. discriminate.
    + vm_compute. reflexivity.
    + reflexivity.
Defined.

(** ** Target resolution *)

Lemma lower_a (x : ascii) : lower x = "a"%char -> x = "a"%char \/ x = "A"%char.
Proof.
  destruct x as [[] [] [] [] [] [] [] []]; vm_compute; intros E;
    try discriminate E; auto.
Qed.

Lemma lower_l (x : ascii) : lower x = "l"%char -> x = "l"%char \/ x = "L"%char.
Proof.
  destruct x as [[] [] [] [] [] [] [] []]; vm_compute; intros E;
    try discriminate E; auto.
Qed.

(** Folding against "all" accepts its eight case variants and nothing else. *)
Lemma EqualFold_all (t : string) : EqualFold_ascii t "all" = true <-> In t all_variants.
Proof.
  split.
  - unfold EqualFold_ascii. rewrite String.eqb_eq.
    destruct t as [|a [|b [|c [|d t]]]]; simpl; try discriminate.
    intros E. injection E as Ea Eb Ec.
    apply lower_a in Ea. apply lower_l in Eb. apply lower_l in Ec.
    destruct Ea as [-> | ->], Eb as [-> | ->], Ec as [-> | ->]; simpl; tauto.
  - intros H. simpl in H.
    repeat (destruct H as [<- | H]; [reflexivity|]). contradiction.
Qed.

(** C6. [resolveTarget] sends a string that is empty after trimming to
    the broadcast marker "*"; a string that trims to "*" or to a case
    variant of "all" to that trimmed string, so "*" and the variants of
    "all" themselves come back unchanged; a string with a comma to its
    trimmed non-empty parts, a single part as a scalar, several as an
    array, none as the trimmed string itself; any other string to the
    trimmed string. The five cases the specification lists are included. *)
Theorem resolveTarget_spec :
  (forall s, TrimSpace s = "" -> resolveTarget s = VString "*")
  /\ (forall s, TrimSpace s = "*" \/ In (TrimSpace s) all_variants ->
        resolveTarget s = VString (TrimSpace s))
  /\ resolveTarget "*" = VString "*"
  /\ (forall s, In s all_variants -> resolveTarget s = VString s)
  /\ (forall s, TrimSpace s <> "" -> TrimSpace s <> "*" -> ~ In (TrimSpace s) all_variants ->
        resolveTarget s
        = if Contains (TrimSpace s) ","
          then match target_items (TrimSpace s) with
               | [] => VString (TrimSpace s)
               | [item] => VString item
               | items => VStrings items
               end
          else VString (TrimSpace s))
  /\ resolveTarget "" = VString "*"
  /\ resolveTarget "all" = VString "all"
  /\ resolveTarget "a,b" = VStrings ["a"; "b"]
  /\ resolveTarget "a" = VString "a"
  /\ resolveTarget "a, ,b" = VStrings ["a"; "b"].
Proof.
  assert (Hmark : forall s, TrimSpace s = "*" \/ In (TrimSpace s) all_variants ->
                            resolveTarget s = VString (TrimSpace s)).
  { intros s Hs. unfold resolveTarget.
    destruct (String.eqb_spec (TrimSpace s) "") as [E|_].
    - destruct Hs as [Hs|Hs]; rewrite E in Hs; [discriminate Hs|].
      simpl in Hs. repeat (destruct Hs as [Hs|Hs]; [discriminate Hs|]). contradiction.
    - destruct Hs as [Hs|Hs].
      + rewrite Hs. reflexivity.
      + apply EqualFold_all in Hs. rewrite Hs. now rewrite orb_true_r. }
  split; [|split; [exact Hmark|split; [reflexivity|split; [|split]]]].
  - intros s E. unfold resolveTarget. now rewrite E.
  - intros s Hs.
    assert (Et : TrimSpace s = s).
    { simpl in Hs. repeat (destruct Hs as [<- | Hs]; [reflexivity|]). contradiction. }
    rewrite <- Et at 2. apply Hmark. right. now rewrite Et.
  - intros s He Hstar Hall. unfold resolveTarget, target_items.
    apply eqb_empty_false in He. rewrite He.
    apply String.eqb_neq in Hstar. rewrite Hstar.
    destruct (EqualFold_ascii (TrimSpace s) "all") eqn:Ef;
      [apply EqualFold_all in Ef; contradiction|].
    simpl. rewrite trimmed_nonempty_filter.
    destruct (Contains (TrimSpace s) ","); [|reflexivity].
    destruct (List.filter _ _) as [|x [|y l]]; reflexivity.
  - repeat split; reflexivity.
Qed.

Lemma resolveTarget_spec_witness :
  resolveTarget (String (byte 9) "  ") = VString "*"
  /\ resolveTarget " ALL " = VString "ALL"
  /\ resolveTarget "aLl" = VString "aLl"
  /\ resolveTarget " boss-1 , employee-2,, " = VStrings ["boss-1"; "employee-2"]
  /\ resolveTarget "boss-1, " = VString "boss-1"
  /\ resolveTarget " , " = VString ","
  /\ resolveTarget " boss-1 " = VString "boss-1".
Proof.
  destruct resolveTarget_spec as (Hempty & Hmark & _ & Hall & Hother & _).
  split; [|split; [|split; [|split; [|split; [|split]]]]].
  - apply Hempty. reflexivity.
  - apply (Hmark " ALL "). right. vm_compute. tauto.
  - apply Hall. vm_compute. tauto.
  - apply (Hother " boss-1 , employee-2,, ");
      vm_compute; try discriminate; intuition discriminate.
  - apply (Hother "boss-1, "); vm_compute; try discriminate; intuition discriminate.
  - apply (Hother " , "); vm_compute; try discriminate; intuition discriminate.
  - apply (Hother " boss-1 "); vm_compute; try discriminate; intuition discriminate.
Defined.

(** ** Payload building *)

Lemma content_object_inj (s t : string) : content_object s = content_object t -> s = t.
Proof.
  intros E.
  apply (f_equal (fun a => match a with VMap m => m !! "content" | _ => None end)) in E.
  unfold content_object in E. cbv beta iota in E.
  rewrite !lookup_singleton_eq in E. now injection E.
Qed.

(** C2, as the code has it. [buildPayload] trims its argument; when
    nothing is left it returns {content: ""}; when what is left is strict
    JSON it returns the parsed value as it is; otherwise it returns
    {content: t}, where t is the trimmed string. The three cases the
    specification lists are included. *)
Theorem buildPayload_spec :
  (forall s, TrimSpace s = "" -> buildPayload s = content_object "")
  /\ (forall s v, TrimSpace s <> "" -> Unmarshal_any (TrimSpace s) = Ok v ->
        buildPayload s = v)
  /\ (forall s e, TrimSpace s <> "" -> Unmarshal_any (TrimSpace s) = Err e ->
        buildPayload s = content_object (TrimSpace s))
  /\ buildPayload (js "{'task':'analyze'}") = VMap {["task" := VString "analyze"]}
  /\ buildPayload "hello" = content_object "hello"
  /\ buildPayload "" = content_object "".
Proof.
  split; [|split; [|split; [|split; [|split]]]].
  - intros s E. unfold buildPayload. now rewrite E.
  - intros s v Hne Hv. unfold buildPayload.
    apply eqb_empty_false in Hne. now rewrite Hne, Hv.
  - intros s e Hne He. unfold buildPayload.
    apply eqb_empty_false in Hne. now rewrite Hne, He.
  - vm_compute. reflexivity.
  - vm_compute. reflexivity.
  - vm_compute. reflexivity.
Qed.

Lemma buildPayload_spec_witness :
  buildPayload (String (byte 10) " ") = content_object ""
  /\ buildPayload (js " ['a', {'n': null}] ")
     = VSlice [VString "a"; VMap {["n" := VNil]}]
  /\ buildPayload "  hello world " = content_object "hello world".
Proof.
  destruct buildPayload_spec as (Hempty & Hjson & Htext & _).
  split; [|split].
  - apply Hempty. reflexivity.
  - apply Hjson; [vm_compute; discriminate|]. vm_compute. reflexivity.
  - apply (Htext "  hello world " SyntaxError); [vm_compute; discriminate|].
    vm_compute. reflexivity.
Defined.

(** C2 as stated fails: for " hello ", which does not trim to empty and is
    not JSON (trimmed or not), the payload has the trimmed "hello" and not
    the string that was passed. *)
Lemma buildPayload_not_original :
  TrimSpace " hello " <> ""
  /\ Unmarshal_any (TrimSpace " hello ") = Err SyntaxError
  /\ Unmarshal_any " hello " = Err SyntaxError
  /\ buildPayload " hello " = content_object "hello"
  /\ buildPayload " hello " <> content_object " hello ".
Proof.
  assert (E : buildPayload " hello " = content_object "hello") by (vm_compute; reflexivity).
  split; [vm_compute; discriminate|].
  split; [vm_compute; reflexivity|].
  split; [vm_compute; reflexivity|].
  split; [exact E|].
  rewrite E. intros H. apply content_object_inj in H. discriminate H.
Qed.

(** ** Waiting for auth_ok *)

(** Frames that are passed over do not change the outcome of the wait. *)
Lemma awaitAuthOK_skip (pre rest : list string) :
  Forall ignorable pre -> awaitAuthOK (pre ++ rest) = awaitAuthOK rest.
Proof.
  induction 1 as [|data pre (base & Hb & Hok & Herr) _ IH]; [reflexivity|].
  simpl. rewrite Hb.
  apply String.eqb_neq in Hok, Herr. now rewrite Hok, Herr.
Qed.




(** A frame that is JSON, but whose code is not a string, does not decode
    into the frame struct; the wait ends with an error whatever the
    frame's type is. *)
Lemma awaitAuthOK_mistyped_member :
  awaitAuthOK [js "{'type':'pong','code':7}"; js "{'type':'auth_ok','id':'w1','key':'k1'}"]
  = (Err (Wrapf "auth response invalid json" (Lib (JsonError UnmarshalTypeError))),
     [js "{'type':'auth_ok','id':'w1','key':'k1'}"]).
Proof. vm_compute. reflexivity. Qed.

(** ** Numbers as text *)

Lemma all_digits_uint (d : Decimal.uint) : all_digits (NilEmpty.string_of_uint d) = true.
Proof. induction d; simpl; auto. Qed.

Lemma digits1_uint (d : Decimal.uint) : digits1 (NilZero.string_of_uint d) = true.
Proof.
  destruct d; try reflexivity; unfold NilZero.string_of_uint;
    cbn [NilEmpty.string_of_uint digits1 all_digits]; apply (all_digits_uint d).
Qed.

Lemma digits1_format_d (z : Z) : 0 <= z -> digits1 (format_d z) = true.
Proof.
  intros Hz. unfold format_d. destruct z as [|p|p]; [reflexivity| |lia].
  apply digits1_uint.
Qed.

Lemma digits1_decimal (s : string) : digits1 s = true -> decimal_integer s = true.
Proof.
  destruct s as [|c r]; [discriminate|]. unfold decimal_integer.
  destruct (Ascii.eqb_spec c "-") as [-> |_]; [discriminate|auto].
Qed.

Lemma decimal_nonempty (s : string) : decimal_integer s = true -> s <> "".
Proof. destruct s; [discriminate|discriminate]. Qed.

(** [%d] writes a decimal integer. *)
Lemma decimal_format_d (z : Z) : decimal_integer (format_d z) = true.
Proof.
  destruct z as [|p|p]; [reflexivity|now apply digits1_decimal, digits1_format_d|].
  unfold format_d. cbn [Z.to_int NilZero.string_of_int decimal_integer].
  rewrite Ascii.eqb_refl. apply digits1_uint.
Qed.

Lemma round_half_even_nonneg (m : positive) (e : Z) : 0 <= Float64.round_half_even m e.
Proof.
  unfold Float64.round_half_even. destruct (0 <=? e) eqn:He.
  - apply Z.leb_le in He. apply Z.mul_nonneg_nonneg; [lia|]. now apply Z.pow_nonneg.
  - assert (0 < 2 ^ (- e)) by (apply Z.pow_pos_nonneg; lia).
    assert (0 <= Z.pos m / 2 ^ (- e)) by (apply Z.div_pos; lia).
    destruct (_ || _); lia.
Qed.

(** [%.0f] writes something for every float64, and a decimal integer for
    every number. *)
Lemma format_f0_nonempty (f : Float64.float64) : Float64.format_f0 f <> "".
Proof.
  destruct f as [[]|[]| |[] m e]; try discriminate.
  cbn [Float64.format_f0].
  apply decimal_nonempty, digits1_decimal, digits1_format_d, round_half_even_nonneg.
Qed.

Lemma format_f0_decimal (f : Float64.float64) :
  finite f -> decimal_integer (Float64.format_f0 f) = true.
Proof.
  destruct f as [[]|[]| |[] m e]; try reflexivity; try contradiction; intros _.
  - cbn [Float64.format_f0 decimal_integer]. rewrite Ascii.eqb_refl.
    apply digits1_format_d, round_half_even_nonneg.
  - cbn [Float64.format_f0]. apply digits1_decimal, digits1_format_d, round_half_even_nonneg.
Qed.

(** ** Inbound metadata *)

Lemma add_metadata_lookup `{GoLib} (msg : gmap string any) (key k : string)
    (m : gmap string string) :
  add_metadata msg key m !! k
  = if decide (key = k)
    then (if String.eqb (asString (map_index msg key)) "" then m !! k
          else Some (asString (map_index msg key)))
    else m !! k.
Proof.
  unfold add_metadata.
  destruct (String.eqb (asString (map_index msg key)) ""); simpl.
  - now destruct (decide (key = k)).
  - destruct (decide (key = k)) as [-> |Hne].
    + apply lookup_insert_eq.
    + now apply lookup_insert_ne.
Qed.

Lemma metadata_of_lookup `{GoLib} (msg : gmap string any) (k : string) :
  In k metadata_keys ->
  metadata_of msg !! k
  = if String.eqb (asString (map_index msg k)) "" then None
    else Some (asString (map_index msg k)).
Proof.
  intros Hk. unfold metadata_of. simpl in Hk.
  repeat rewrite add_metadata_lookup. rewrite lookup_empty.
  destruct Hk as [<- |[<- |[<- |[<- |[]]]]];
    repeat (case_decide; try congruence);
    destruct (String.eqb _ ""); reflexivity.
Qed.

Lemma metadata_of_other `{GoLib} (msg : gmap string any) (k : string) :
  ~ In k metadata_keys -> metadata_of msg !! k = None.
Proof.
  intros Hk. unfold metadata_of. simpl in Hk.
  repeat rewrite add_metadata_lookup. rewrite lookup_empty.
  repeat (case_decide; [exfalso; apply Hk; subst k; tauto|]). reflexivity.
Qed.

Lemma handleInboundRoutedMessage_allowed `{GoLib} (w : World) (msg : gmap string any) :
  IsAllowed (chan w) (sender_of msg) = true ->
  handleInboundRoutedMessage w msg
  = HandleMessage w (mkDelivery (sender_of msg) (sender_of msg) (content_of msg)
                       (metadata_of msg)).
Proof.
  intros Ha. unfold handleInboundRoutedMessage. fold (sender_of msg). now rewrite Ha.
Qed.

Lemma handleInboundRoutedMessage_rejected `{GoLib} (w : World) (msg : gmap string any) :
  IsAllowed (chan w) (sender_of msg) = false -> handleInboundRoutedMessage w msg = w.
Proof.
  intros Ha. unfold handleInboundRoutedMessage. fold (sender_of msg). now rewrite Ha.
Qed.

Lemma map_index_Some (msg : gmap string any) (k : string) (v : any) :
  msg !! k = Some v -> map_index msg k = v.
Proof. unfold map_index. now intros ->. Qed.

Lemma map_index_None (msg : gmap string any) (k : string) :
  msg !! k = None -> map_index msg k = VNil.
Proof. unfold map_index. now intros ->. Qed.

Lemma asString_absent `{GoLib} (msg : gmap string any) (k : string) :
  msg !! k = None \/ msg !! k = Some VNil -> asString (map_index msg k) = "".
Proof.
  intros [E|E]; [rewrite (map_index_None _ _ E)|rewrite (map_index_Some _ _ _ E)];
    reflexivity.
Qed.

(** C10. For a routed message from an allowed sender, one delivery is made
    to the bus, and for each of msg_id, from_role, to and timestamp: a
    field that holds a number is in the metadata as text, a float64 (what a
    JSON number decodes to) written by [%.0f] (a decimal integer, with no
    fraction digits), an integer written by [%d]; a non-empty string is in
    the metadata as it is; and the key is missing from the metadata exactly
    when the field is absent, is null, or is coerced to the empty string.
    The metadata has no other keys. *)
Theorem inbound_metadata `{GoLib} (w : World) (msg : gmap string any) :
  IsAllowed (chan w) (sender_of msg) = true ->
  exists d,
    delivered (handleInboundRoutedMessage w msg) = (delivered w ++ [d])%list
    /\ (forall k, In k metadata_keys ->
          (forall f, msg !! k = Some (VFloat64 f) ->
             d_metadata d !! k = Some (Float64.format_f0 f)
             /\ (finite f -> decimal_integer (Float64.format_f0 f) = true))
          /\ (forall n, msg !! k = Some (VInt64 n) \/ msg !! k = Some (VInt n) ->
                d_metadata d !! k = Some (format_d n)
                /\ decimal_integer (format_d n) = true)
          /\ (forall s, msg !! k = Some (VString s) -> s <> "" ->
                d_metadata d !! k = Some s)
          /\ (d_metadata d !! k = None
              <-> msg !! k = None \/ msg !! k = Some VNil
                  \/ asString (map_index msg k) = ""))
    /\ (forall k, ~ In k metadata_keys -> d_metadata d !! k = None).
Proof.
  intros Ha. rewrite (handleInboundRoutedMessage_allowed w msg Ha).
  eexists. split; [reflexivity|]. cbn [d_metadata]. split.
  - intros k Hk. rewrite (metadata_of_lookup msg k Hk).
    split; [|split; [|split; [|split]]].
    + intros f Hf. rewrite (map_index_Some _ _ _ Hf). cbn [asString].
      pose proof (format_f0_nonempty f) as Hne.
      apply eqb_empty_false in Hne. rewrite Hne.
      split; [reflexivity|]. apply format_f0_decimal.
    + intros n Hn.
      pose proof (decimal_nonempty _ (decimal_format_d n)) as Hne.
      apply eqb_empty_false in Hne.
      split; [|apply decimal_format_d].
      destruct Hn as [Hn|Hn]; rewrite (map_index_Some _ _ _ Hn); cbn [asString];
        now rewrite Hne.
    + intros s Hs Hne. rewrite (map_index_Some _ _ _ Hs). cbn [asString].
      apply eqb_empty_false in Hne. now rewrite Hne.
    + destruct (String.eqb_spec (asString (map_index msg k)) ""); [auto|discriminate].
    + intros Hc.
      assert (E : asString (map_index msg k) = "").
      { destruct Hc as [Hc|[Hc|Hc]]; [apply asString_absent; auto..|exact Hc]. }
      now rewrite E.
  - intros k Hk. now apply metadata_of_other.
Qed.

Lemma handleServerMessage_message `{GoLib} (w : World) (data : string)
    (msg : gmap string any) :
  Unmarshal_map data = Ok msg -> map_index msg "type" = VString "message" ->
  handleServerMessage w data = handleInboundRoutedMessage w msg.
Proof. intros Hm Ht. unfold handleServerMessage. now rewrite Hm, Ht. Qed.

Lemma inbound_metadata_witness :
  let w := connected_world sample_config 7%positive (mkIdentity "w1" "k1") in
  let frame := js ("{'type':'message','from_id':'peer-1','msg_id':42,'from_role':'boss',"
                   ++ "'to':null,'timestamp':1700000000000.5,'payload':'hi'}") in
  exists d,
    delivered (@handleServerMessage example_lib w frame) = [d]
    /\ d_metadata d !! "msg_id" = Some "42"
    /\ d_metadata d !! "from_role" = Some "boss"
    /\ d_metadata d !! "to" = None
    /\ d_metadata d !! "timestamp" = Some "1700000000000".
Proof.
  intros w frame.
  pose (msg := message_of frame).
  pose (f1 := default (S754_zero false) (Float64.ParseFloat "42")).
  pose (f2 := default (S754_zero false) (Float64.ParseFloat "1700000000000.5")).
  destruct (@inbound_metadata example_lib w msg eq_refl) as (d & Hd & Hkeys & _).
  exists d. split; [|split; [|split; [|split]]].
  - rewrite (@handleServerMessage_message example_lib w frame msg);
      [exact Hd|vm_compute; reflexivity..].
  - destruct (Hkeys "msg_id") as (Hf & _); [simpl; tauto|].
    apply (Hf f1). vm_compute. reflexivity.
  - destruct (Hkeys "from_role") as (_ & _ & Hs & _); [simpl; tauto|].
    apply (Hs "boss"); [vm_compute; reflexivity|discriminate].
  - destruct (Hkeys "to") as (_ & _ & _ & Hnone); [simpl; tauto|].
    apply Hnone. right. left. vm_compute. reflexivity.
  - destruct (Hkeys "timestamp") as (Hf & _); [simpl; tauto|].
    apply (Hf f2). vm_compute. reflexivity.
Defined.

(** ** The identity invariant, path by path *)

Lemma held_test (id : workerWSIdentity) :
  String.eqb (ID id) "" || String.eqb (Key id) "" = false <-> identity_held id.
Proof.
  unfold identity_held. rewrite orb_false_iff, !eqb_empty_false. reflexivity.
Qed.

Lemma not_held_test (id : workerWSIdentity) :
  String.eqb (ID id) "" || String.eqb (Key id) "" = true <-> ~ identity_held id.
Proof.
  rewrite <- held_test. destruct (_ || _); split; congruence.
Qed.

(** An identity read from disk with an empty field is dropped: the world
    stays as it is. *)
Lemma loadIdentity_discards_partial (w : World) (data : string) (id : workerWSIdentity) :
  ReadFile (fs w) (resolveIdentityPath w) = FileData data ->
  Unmarshal_struct store_identity (mkIdentity "" "") data = Ok id ->
  ~ identity_held id ->
  loadIdentity w = (w, None).
Proof.
  intros Hr Hu Hp. unfold loadIdentity. rewrite Hr, Hu.
  apply not_held_test in Hp. now rewrite Hp.
Qed.

Lemma loadIdentity_whole (w : World) :
  identity_whole (identity (chan w)) ->
  identity_whole (identity (chan (fst (loadIdentity w)))).
Proof.
  intros Hw. unfold loadIdentity.
  destruct (ReadFile _ _) as [data| |]; try exact Hw.
  destruct (Unmarshal_struct _ _ _) as [id|e]; [|exact Hw].
  destruct (String.eqb (ID id) "" || String.eqb (Key id) "") eqn:E; [exact Hw|].
  right. now apply held_test.
Qed.


Lemma saveIdentity_chan (w : World) : chan (fst (saveIdentity w)) = chan w.
Proof.
  unfold saveIdentity. destruct (_ || _); [reflexivity|].
  destruct (WriteFile _ _ _). reflexivity.
Qed.

(** Whatever [saveIdentity] leaves in a file was there before, or is the
    text of the identity held. *)
Lemma saveIdentity_files (w : World) (path data : string) :
  files (fs (fst (saveIdentity w))) !! path = Some data ->
  files (fs w) !! path = Some data
  \/ (identity_held (identity (chan w))
      /\ data = MarshalIndent_identity (identity (chan w))).
Proof.
  unfold saveIdentity.
  destruct (String.eqb (ID (identity (chan w))) "" || String.eqb (Key (identity (chan w))) "")
    eqn:E; [now left|].
  apply held_test in E. unfold WriteFile.
  destruct (decide (resolveIdentityPath w ∈ denied (fs w))); [now left|].
  cbn [fst set_fs fs files]. intros Hl.
  destruct (decide (resolveIdentityPath w = path)) as [<- |Hne].
  - rewrite lookup_insert_eq in Hl. right. split; [exact E|]. now injection Hl.
  - rewrite lookup_insert_ne in Hl by exact Hne. now left.
Qed.

(** The handshake only ends well with an id and a key. *)
Lemma awaitAuthOK_ok (incoming rest : list string) (ok : workerWSAuthOK) :
  awaitAuthOK incoming = (Ok ok, rest) -> ok_ID ok <> "" /\ ok_Key ok <> "".
Proof.
  induction incoming as [|data incoming IH]; simpl; [discriminate|].
  destruct (unmarshal_base data) as [base|e]; [|discriminate].
  destruct (String.eqb (b_Type base) "auth_ok").
  - destruct (unmarshal_authOK data) as [ok'|e]; [|discriminate].
    destruct (String.eqb (ok_ID ok') "" || String.eqb (ok_Key ok') "") eqn:E; [discriminate|].
    intros Heq. assert (Hok : ok' = ok) by congruence. subst ok'.
    apply orb_false_iff in E as [E1 E2]. now rewrite <- !eqb_empty_false.
  - destruct (String.eqb (b_Type base) "error"); [discriminate|exact IH].
Qed.

Lemma writeJSONConn_chan `{GoLib} (w : World) (k : Conn) (v : any) :
  chan (fst (writeJSONConn w k v)) = chan w.
Proof.
  unfold writeJSONConn, WriteMessage.
  destruct (Marshal v); [destruct (decide _)|]; reflexivity.
Qed.

Lemma connectAndAuthenticate_whole `{GoLib} (w : World) (dial : option (Conn * list string))
    (now_ms : Z) :
  identity_whole (identity (chan w)) ->
  identity_whole (identity (chan (fst (fst (connectAndAuthenticate w dial now_ms))))).
Proof.
  intros Hw. unfold connectAndAuthenticate.
  destruct dial as [[k incoming]|]; [|exact Hw].
  destruct (awaitHello incoming) as [[err|] rest]; [exact Hw|].
  pose proof (writeJSONConn_chan w k (VMap (buildAuthMessage (chan w) now_ms))) as Hc.
  destruct (writeJSONConn w k _) as [w1 [err|]]; cbn [fst] in Hc.
  - cbn [fst Close chan]. now rewrite Hc.
  - destruct (awaitAuthOK rest) as [[ok|err] rest'] eqn:Ea; cbn [fst].
    + rewrite saveIdentity_chan. cbn [chan set_chan set_identity identity].
      right. apply (awaitAuthOK_ok _ _ _ Ea).
    + cbn [Close chan]. now rewrite Hc.
Qed.

Lemma NewWorkerWSChannel_whole (cfg : WorkerWSConfig) (e : Env) (f : FileSystem) :
  identity_whole (identity (chan (NewWorkerWSChannel cfg e f))).
Proof.
  unfold NewWorkerWSChannel. apply loadIdentity_whole. left. now split.
Qed.

(** The dispatcher changes the identity only on an auth_ok frame with an
    id, and checks nothing about the key. *)
Lemma handleServerMessage_identity `{GoLib} (w : World) (data : string) :
  identity (chan (handleServerMessage w data)) = identity (chan w)
  \/ exists msg, Unmarshal_map data = Ok msg
                 /\ asString (map_index msg "id") <> ""
                 /\ identity (chan (handleServerMessage w data))
                    = mkIdentity (asString (map_index msg "id"))
                                 (asString (map_index msg "key")).
Proof.
  unfold handleServerMessage.
  destruct (Unmarshal_map data) as [msg|e]; [|now left].
  destruct (_ || _); [now left|].
  repeat (destruct (String.eqb (string_or_zero _) _); [now left|]).
  destruct (String.eqb (string_or_zero _) "message").
  - left. unfold handleInboundRoutedMessage. now destruct (negb _).
  - destruct (String.eqb (string_or_zero _) "auth_ok"); [|now left].
    destruct (String.eqb_spec (asString (map_index msg "id")) "") as [E|E]; [now left|].
    right. exists msg. split; [reflexivity|]. split; [exact E|].
    cbn [negb]. now rewrite saveIdentity_chan.
Qed.

(** C1, where the code departs from it. A channel that holds the identity
    {w1, k1} and receives the frame {"type":"auth_ok","id":"w2"} after the
    handshake ends up holding {w2, ""}: the in-memory identity is
    partially populated. The identity file is not touched, and the next
    auth message carries no identity. *)
Theorem auth_ok_without_key `{GoLib} :
  let w := connected_world sample_config 7%positive (mkIdentity "w1" "k1") in
  let w' := handleServerMessage w (js "{'type':'auth_ok','id':'w2'}") in
  identity_whole (identity (chan w))
  /\ identity (chan w') = mkIdentity "w2" ""
  /\ ~ identity_whole (identity (chan w'))
  /\ fs w' = fs w
  /\ (forall now_ms, buildAuthMessage (chan w) now_ms !! "identity"
                     = Some (VMap (<["key" := VString "k1"]> {["id" := VString "w1"]})))
  /\ (forall now_ms, buildAuthMessage (chan w') now_ms !! "identity" = None).
Proof.
  cbv zeta.
  assert (E : handleServerMessage (connected_world sample_config 7%positive
                                     (mkIdentity "w1" "k1"))
                (js "{'type':'auth_ok','id':'w2'}")
              = set_chan (connected_world sample_config 7%positive (mkIdentity "w1" "k1"))
                  (mkChannel true sample_config Live (Some 7%positive) (mkIdentity "w2" ""))).
  { vm_compute. reflexivity. }
  rewrite E. clear E.
  split; [right; split; discriminate|].
  split; [reflexivity|].
  split; [intros [[Hid _]|[_ Hkey]]; [discriminate Hid|now apply Hkey]|].
  split; [reflexivity|].
  split; intros now_ms; rewrite buildAuthMessage_identity; reflexivity.
Qed.

(* ===================================================================== *)
(** * Further properties of the channel *)
(* ===================================================================== *)

(** ** Handshake *)

(** X1. When the wait for auth_ok succeeds, the result has an id and a key,
    it is the decoding of one frame, every frame before that one was
    passed over, and the frames after it are left unread. *)
Theorem awaitAuthOK_success (incoming rest : list string) (ok : workerWSAuthOK) :
  awaitAuthOK incoming = (Ok ok, rest) ->
  ok_ID ok <> "" /\ ok_Key ok <> ""
  /\ exists pre data,
       incoming = (pre ++ data :: rest)%list
       /\ Forall ignorable pre
       /\ unmarshal_authOK data = Ok ok.
Proof.
  revert rest ok. induction incoming as [|data incoming IH]; intros rest ok; simpl;
    [discriminate|].
  destruct (unmarshal_base data) as [base|e] eqn:Hb; [|discriminate].
  destruct (String.eqb_spec (b_Type base) "auth_ok") as [Ha|Ha].
  - destruct (unmarshal_authOK data) as [ok'|e] eqn:Hok; [|discriminate].
    destruct (String.eqb (ok_ID ok') "" || String.eqb (ok_Key ok') "") eqn:E; [discriminate|].
    intros Heq. assert (ok' = ok /\ incoming = rest) as [-> ->] by (split; congruence).
    apply orb_false_iff in E as [E1 E2]. apply eqb_empty_false in E1, E2.
    split; [exact E1|]. split; [exact E2|].
    exists [], data. split; [reflexivity|]. split; [constructor|exact Hok].
  - destruct (String.eqb_spec (b_Type base) "error") as [He|He]; [discriminate|].
    intros Heq. destruct (IH _ _ Heq) as (Hi & Hk & pre & d & -> & Hpre & Hd).
    split; [exact Hi|]. split; [exact Hk|].
    exists (data :: pre), d. split; [reflexivity|]. split; [|exact Hd].
    constructor; [|exact Hpre]. now exists base.
Qed.

Lemma awaitAuthOK_success_witness :
  let ok_frame := js "{'type':'auth_ok','id':'w1','key':'k1'}" in
  exists pre data,
    [js "{'type':'pong'}"; ok_frame; "later"] = (pre ++ data :: ["later"])%list
    /\ Forall ignorable pre
    /\ unmarshal_authOK data = Ok (mkAuthOK "auth_ok" "w1" "k1" "" false).
Proof.
  apply (awaitAuthOK_success
           [js "{'type':'pong'}"; js "{'type':'auth_ok','id':'w1','key':'k1'}"; "later"]
           ["later"] (mkAuthOK "auth_ok" "w1" "k1" "" false)).
  vm_compute. reflexivity.
Defined.

(** X2. The wait stops at the first frame that is not passed over and
    leaves the frames after it unread; when every frame is passed over, it
    ends with the read error and nothing is left. *)
Theorem awaitAuthOK_stops_at_first (incoming : list string) :
  (exists pre data rest,
     incoming = (pre ++ data :: rest)%list
     /\ Forall ignorable pre /\ ~ ignorable data
     /\ awaitAuthOK incoming = (fst (awaitAuthOK [data]), rest))
  \/ (Forall ignorable incoming
      /\ awaitAuthOK incoming = (Err (Wrapf "waiting auth_ok failed" (Lib ReadError)), [])).
Proof.
  induction incoming as [|data incoming IH].
  - right. split; [constructor|reflexivity].
  - assert (Hdec : ignorable data \/ ~ ignorable data).
    { unfold ignorable. destruct (unmarshal_base data) as [base|e] eqn:Hb.
      - destruct (String.eqb_spec (b_Type base) "auth_ok") as [Ha|Ha];
          [right; intros (b & Hb' & H1 & _); congruence|].
        destruct (String.eqb_spec (b_Type base) "error") as [He|He];
          [right; intros (b & Hb' & _ & H2); congruence|].
        left. now exists base.
      - right. intros (b & Hb' & _). congruence. }
    destruct Hdec as [Hi|Hn].
    + assert (Hskip : awaitAuthOK (data :: incoming) = awaitAuthOK incoming).
      { apply (awaitAuthOK_skip [data] incoming). constructor; [exact Hi|constructor]. }
      destruct IH as [(pre & d & rest & -> & Hpre & Hd & Heq)|[Hall Heq]].
      * left. exists (data :: pre), d, rest. split; [reflexivity|].
        split; [now constructor|]. split; [exact Hd|]. now rewrite Hskip.
      * right. split; [now constructor|]. now rewrite Hskip.
    + left. exists [], data, incoming. split; [reflexivity|]. split; [constructor|].
      split; [exact Hn|]. simpl.
      destruct (unmarshal_base data) as [base|e] eqn:Hb; [|reflexivity].
      destruct (String.eqb_spec (b_Type base) "auth_ok") as [Ha|Ha].
      * destruct (unmarshal_authOK data); [|reflexivity].
        now destruct (_ || _).
      * destruct (String.eqb_spec (b_Type base) "error") as [He|He]; [reflexivity|].
        exfalso. apply Hn. now exists base.
Qed.

Lemma awaitHello_rest (incoming : list string) : snd (awaitHello incoming) = tl incoming.
Proof.
  unfold awaitHello. destruct incoming as [|data rest]; [reflexivity|].
  destruct (Unmarshal_struct store_type "" data) as [t|e]; [|reflexivity].
  now destruct (String.eqb t "hello").
Qed.

(** X3. [awaitHello] reads exactly one frame, whatever it is, and accepts
    it only when it decodes with the type "hello"; with no frame to read
    it fails. *)
Theorem awaitHello_one_frame (incoming : list string) :
  snd (awaitHello incoming) = tl incoming
  /\ (fst (awaitHello incoming) = None
      <-> exists data rest, incoming = data :: rest
                            /\ Unmarshal_struct store_type "" data = Ok "hello").
Proof.
  unfold awaitHello. destruct incoming as [|data rest]; simpl.
  - split; [reflexivity|]. split; [discriminate|]. intros (d & r & E & _). discriminate E.
  - destruct (Unmarshal_struct store_type "" data) as [t|e] eqn:Ht; simpl.
    + destruct (String.eqb_spec t "hello") as [-> |Hne]; simpl.
      * split; [reflexivity|]. split; [|reflexivity]. intros _. now exists data, rest.
      * split; [reflexivity|]. split; [discriminate|].
        intros (d & r & E & Hd). injection E as <- <-. congruence.
    + split; [reflexivity|]. split; [discriminate|].
      intros (d & r & E & Hd). injection E as <- <-. congruence.
Qed.

(** ** One connection attempt *)

Lemma WriteMessage_cases (w : World) (k : Conn) (data : string) :
  ((k ∈ closed w) /\ WriteMessage w k data = (w, Some (Lib WriteError)))
  \/ ((k ∉ closed w)
      /\ WriteMessage w k data
         = (mkWorld (chan w) (env w) (closed w) (written w ++ [(k, data)]) (fs w)
                    (delivered w), None)).
Proof. unfold WriteMessage. destruct (decide (k ∈ closed w)); [left|right]; auto. Qed.

(** [saveIdentity] acts on the file system only, and there it leaves
    everything as it is or writes the text of the identity held at the
    identity path. *)
Lemma saveIdentity_only_fs (w : World) :
  fst (saveIdentity w) = set_fs w (fs (fst (saveIdentity w))).
Proof.
  unfold saveIdentity. destruct (_ || _); [now destruct w|].
  destruct (WriteFile _ _ _). reflexivity.
Qed.

Lemma saveIdentity_fs (w : World) :
  fs (fst (saveIdentity w)) = fs w
  \/ (identity_held (identity (chan w))
      /\ fs (fst (saveIdentity w))
         = mkFS (<[resolveIdentityPath w := MarshalIndent_identity (identity (chan w))]>
                   (files (fs w)))
                (denied (fs w))).
Proof.
  unfold saveIdentity.
  destruct (String.eqb (ID (identity (chan w))) "" || String.eqb (Key (identity (chan w))) "")
    eqn:E; [now left|].
  apply held_test in E. unfold WriteFile.
  destruct (decide (resolveIdentityPath w ∈ denied (fs w))); [now left|].
  right. split; [exact E|reflexivity].
Qed.

Lemma saveIdentity_held_file (w : World) :
  identity_held (identity (chan w)) -> resolveIdentityPath w ∉ denied (fs w) ->
  denied (fs (fst (saveIdentity w))) = denied (fs w)
  /\ files (fs (fst (saveIdentity w))) !! resolveIdentityPath w
     = Some (MarshalIndent_identity (identity (chan w))).
Proof.
  intros Hheld Hok. unfold saveIdentity.
  apply held_test in Hheld. rewrite Hheld. unfold WriteFile.
  destruct (decide (resolveIdentityPath w ∈ denied (fs w))); [contradiction|].
  cbn [fst set_fs fs files denied]. split; [reflexivity|apply lookup_insert_eq].
Qed.

Lemma connect_failure_facts `{GoLib} (w w' : World)
    (dial : option (Conn * list string)) (now_ms : Z) (e : error) (rest : list string) :
  connectAndAuthenticate w dial now_ms = (w', Some e, rest) ->
  chan w' = chan w /\ fs w' = fs w /\ delivered w' = delivered w /\ env w' = env w
  /\ closed w' = match dial with
                 | Some (k, _) => {[k]} ∪ closed w
                 | None => closed w
                 end
  /\ (written w' = written w
      \/ exists k data, Marshal (VMap (buildAuthMessage (chan w) now_ms)) = Some data
                        /\ written w' = (written w ++ [(k, data)])%list).
Proof.
  unfold connectAndAuthenticate. destruct dial as [[k incoming]|].
  - destruct (awaitHello incoming) as [[err|] r1].
    + intros Heq. injection Heq as <- _ _. repeat split; auto.
    + unfold writeJSONConn.
      destruct (Marshal (VMap (buildAuthMessage (chan w) now_ms))) as [data|] eqn:Hm.
      * destruct (WriteMessage_cases w k data) as [[Hk ->]|[Hk ->]].
        -- intros Heq. injection Heq as <- _ _. repeat split; auto.
        -- destruct (awaitAuthOK r1) as [[ok|err] r2]; [discriminate|].
           intros Heq. injection Heq as <- _ _. repeat split; auto.
           right. now exists k, data.
      * intros Heq. injection Heq as <- _ _. repeat split; auto.
  - intros Heq. injection Heq as <- _ _. repeat split; auto.
Qed.

(** X4. A connection attempt that fails leaves the channel as it was
    (connection held, identity, running flag, context, configuration), and
    also the identity file and the deliveries; the connection it had
    dialled, if any, is closed, and at most the auth frame was written. *)
Theorem connectAndAuthenticate_failure `{GoLib} (w w' : World)
    (dial : option (Conn * list string)) (now_ms : Z) (e : error) (rest : list string) :
  connectAndAuthenticate w dial now_ms = (w', Some e, rest) ->
  chan w' = chan w /\ fs w' = fs w /\ delivered w' = delivered w /\ env w' = env w
  /\ closed w' = match dial with
                 | Some (k, _) => {[k]} ∪ closed w
                 | None => closed w
                 end
  /\ (written w' = written w
      \/ exists k data, Marshal (VMap (buildAuthMessage (chan w) now_ms)) = Some data
                        /\ written w' = (written w ++ [(k, data)])%list).
Proof. apply connect_failure_facts. Qed.

Lemma connectAndAuthenticate_failure_witness :
  let w := connected_world sample_config 7%positive (mkIdentity "w1" "k1") in
  let w' := fst (fst (@connectAndAuthenticate example_lib w
                        (Some (8%positive, [js "{'type':'hello'}";
                                            js "{'type':'error','message':'banned'}"]))
                        1000)) in
  chan w' = chan w /\ fs w' = fs w /\ delivered w' = delivered w /\ env w' = env w
  /\ closed w' = {[8%positive]} ∪ closed w
  /\ (written w' = written w
      \/ exists k data, @Marshal example_lib (VMap (buildAuthMessage (chan w) 1000)) = Some data
                        /\ written w' = (written w ++ [(k, data)])%list).
Proof.
  apply (@connectAndAuthenticate_failure example_lib
           (connected_world sample_config 7%positive (mkIdentity "w1" "k1")) _
           (Some (8%positive, [js "{'type':'hello'}";
                               js "{'type':'error','message':'banned'}"]))
           1000 (Errorf "auth rejected: banned (auth_failed)") []).
  vm_compute. reflexivity.
Defined.

Lemma connect_success_facts `{GoLib} (w w' : World)
    (dial : option (Conn * list string)) (now_ms : Z) (rest : list string) :
  connectAndAuthenticate w dial now_ms = (w', None, rest) ->
  exists k incoming ok data,
    dial = Some (k, incoming)
    /\ (k ∉ closed w)
    /\ Marshal (VMap (buildAuthMessage (chan w) now_ms)) = Some data
    /\ written w' = (written w ++ [(k, data)])%list
    /\ awaitAuthOK (tl incoming) = (Ok ok, rest)
    /\ chan w' = mkChannel (running (chan w)) (config (chan w)) (ctx (chan w)) (Some k)
                   (mkIdentity (ok_ID ok) (ok_Key ok))
    /\ identity_held (identity (chan w'))
    /\ closed w' = closed_after_stop w
    /\ delivered w' = delivered w
    /\ (fs w' = fs w
        \/ fs w' = mkFS (<[resolveIdentityPath w :=
                            MarshalIndent_identity (mkIdentity (ok_ID ok) (ok_Key ok))]>
                           (files (fs w)))
                        (denied (fs w))).
Proof.
  unfold connectAndAuthenticate. destruct dial as [[k incoming]|]; [|discriminate].
  pose proof (awaitHello_rest incoming) as Htl.
  destruct (awaitHello incoming) as [[err|] r1]; [discriminate|]. simpl in Htl. subst r1.
  unfold writeJSONConn.
  destruct (Marshal (VMap (buildAuthMessage (chan w) now_ms))) as [data|] eqn:Hm;
    [|discriminate].
  destruct (WriteMessage_cases w k data) as [[Hk ->]|[Hk ->]]; [discriminate|].
  destruct (awaitAuthOK (tl incoming)) as [[ok|err] r2] eqn:Ha; [|discriminate].
  intros Heq. injection Heq as <- <-.
  exists k, incoming, ok, data.
  destruct (awaitAuthOK_ok _ _ _ Ha) as [Hid Hkey].
  split; [reflexivity|]. split; [exact Hk|]. split; [reflexivity|].
  match goal with |- context [saveIdentity ?x] => set (w2 := x) end.
  rewrite (saveIdentity_only_fs w2). cbn [written chan closed delivered fs set_fs].
  assert (Hw2 : chan w2 = mkChannel (running (chan w)) (config (chan w)) (ctx (chan w))
                            (Some k) (mkIdentity (ok_ID ok) (ok_Key ok))
                /\ written w2 = (written w ++ [(k, data)])%list
                /\ closed w2 = closed_after_stop w
                /\ delivered w2 = delivered w /\ fs w2 = fs w
                /\ resolveIdentityPath w2 = resolveIdentityPath w).
  { unfold w2, closed_after_stop, resolveIdentityPath.
    destruct w as [[r cfg x [old|] id] en cl wr f dl]; cbn; auto 7. }
  destruct Hw2 as (Hc & Hwr & Hcl & Hdl & Hfs & Hpath).
  split; [exact Hwr|]. split; [exact Ha|]. split; [exact Hc|].
  split; [rewrite Hc; now split|]. split; [exact Hcl|]. split; [exact Hdl|].
  destruct (saveIdentity_fs w2) as [E|[_ E]]; rewrite E.
  - left. exact Hfs.
  - right. now rewrite Hc, Hfs, Hpath.
Qed.

(** X5. A connection attempt that succeeds had dialled a connection that
    was open; it wrote one frame on it, the auth message built from the
    channel as it was; the channel now holds that connection and the id
    and key of the peer's auth_ok, both set; the connection held before is
    closed; running flag, context and configuration are as before; and the
    identity file is as before or has the text of the new identity. *)
Theorem connectAndAuthenticate_success `{GoLib} (w w' : World)
    (dial : option (Conn * list string)) (now_ms : Z) (rest : list string) :
  connectAndAuthenticate w dial now_ms = (w', None, rest) ->
  exists k incoming ok data,
    dial = Some (k, incoming)
    /\ (k ∉ closed w)
    /\ Marshal (VMap (buildAuthMessage (chan w) now_ms)) = Some data
    /\ written w' = (written w ++ [(k, data)])%list
    /\ awaitAuthOK (tl incoming) = (Ok ok, rest)
    /\ chan w' = mkChannel (running (chan w)) (config (chan w)) (ctx (chan w)) (Some k)
                   (mkIdentity (ok_ID ok) (ok_Key ok))
    /\ identity_held (identity (chan w'))
    /\ closed w' = closed_after_stop w
    /\ delivered w' = delivered w
    /\ (fs w' = fs w
        \/ fs w' = mkFS (<[resolveIdentityPath w :=
                            MarshalIndent_identity (mkIdentity (ok_ID ok) (ok_Key ok))]>
                           (files (fs w)))
                        (denied (fs w))).
Proof. apply connect_success_facts. Qed.

Lemma connectAndAuthenticate_success_witness :
  let w := connected_world sample_config 7%positive (mkIdentity "w1" "k1") in
  let frames := [js "{'type':'hello'}"; js "{'type':'auth_ok','id':'w2','key':'k2'}"] in
  exists k incoming ok data,
    Some (8%positive, frames) = Some (k, incoming)
    /\ (k ∉ closed w)
    /\ @Marshal example_lib (VMap (buildAuthMessage (chan w) 1000)) = Some data
    /\ written (fst (fst (@connectAndAuthenticate example_lib w (Some (8%positive, frames))
                            1000)))
       = (written w ++ [(k, data)])%list
    /\ awaitAuthOK (tl incoming) = (Ok ok, []).
Proof.
  intros w frames.
  destruct (@connectAndAuthenticate_success example_lib w
              (fst (fst (@connectAndAuthenticate example_lib w (Some (8%positive, frames))
                           1000)))
              (Some (8%positive, frames)) 1000 [])
    as (k & incoming & ok & data & H1 & H2 & H3 & H4 & H5 & _).
  - vm_compute. reflexivity.
  - exists k, incoming, ok, data. auto.
Defined.

(** ** The identity and its file *)

Lemma set_identity_same (w : World) :
  set_chan w (set_identity (chan w) (identity (chan w))) = w.
Proof. now destruct w as [[r cfg x k id] en cl wr f dl]. Qed.

Lemma handleServerMessage_identity_cases `{GoLib} (w : World) (data : string) :
  identity (chan (handleServerMessage w data)) = identity (chan w)
  \/ exists msg, Unmarshal_map data = Ok msg
                 /\ map_index msg "type" = VString "auth_ok"
                 /\ asString (map_index msg "id") <> ""
                 /\ identity (chan (handleServerMessage w data))
                    = mkIdentity (asString (map_index msg "id"))
                                 (asString (map_index msg "key")).
Proof.
  unfold handleServerMessage.
  destruct (Unmarshal_map data) as [msg|e]; [|now left].
  destruct (_ || _); [now left|].
  repeat (destruct (String.eqb (string_or_zero _) _); [now left|]).
  destruct (String.eqb (string_or_zero _) "message").
  - left. unfold handleInboundRoutedMessage. now destruct (negb _).
  - destruct (String.eqb_spec (string_or_zero (map_index msg "type")) "auth_ok") as [Ht|Ht];
      [|now left].
    destruct (String.eqb_spec (asString (map_index msg "id")) "") as [E|E]; [now left|].
    right. exists msg. split; [reflexivity|]. split.
    + destruct (map_index msg "type"); try discriminate Ht. simpl in Ht. now subst.
    + split; [exact E|]. cbn [negb]. now rewrite saveIdentity_chan.
Qed.

Lemma Send_chan `{GoLib} (w : World) (now : Z) (msg : OutboundMessage) :
  chan (fst (Send w now msg)) = chan w.
Proof.
  unfold Send, sendJSON. destruct (negb _); [reflexivity|].
  destruct (getConn (chan w)); [apply writeJSONConn_chan|reflexivity].
Qed.

(** X6. A new channel holds a whole identity (none or both fields), and
    loading, a connection attempt, [Stop] and [Send] keep it whole. The
    dispatcher keeps it whole on every frame except an auth_ok frame with
    an id whose key is missing or coerces to the empty string. *)
Theorem identity_whole_kept `{GoLib} (w : World) :
  identity_whole (identity (chan w)) ->
  identity_whole (identity (chan (fst (loadIdentity w))))
  /\ (forall dial now_ms,
        identity_whole (identity (chan (fst (fst (connectAndAuthenticate w dial now_ms))))))
  /\ identity_whole (identity (chan (Stop w)))
  /\ (forall now msg, identity_whole (identity (chan (fst (Send w now msg)))))
  /\ (forall data,
        identity_whole (identity (chan (handleServerMessage w data)))
        \/ exists msg, Unmarshal_map data = Ok msg
                       /\ map_index msg "type" = VString "auth_ok"
                       /\ asString (map_index msg "id") <> ""
                       /\ asString (map_index msg "key") = "")
  /\ (forall cfg e f, identity_whole (identity (chan (NewWorkerWSChannel cfg e f)))).
Proof.
  intros Hw. split; [now apply loadIdentity_whole|].
  split; [intros dial now_ms; now apply connectAndAuthenticate_whole|].
  split; [now destruct w as [[r cfg x [k|] id] en cl wr f dl]|].
  split; [intros now msg; now rewrite Send_chan|].
  split; [|apply NewWorkerWSChannel_whole].
  intros data.
  destruct (handleServerMessage_identity_cases w data) as [E|(msg & Hm & Ht & Hid & E)].
  - left. now rewrite E.
  - destruct (String.eqb_spec (asString (map_index msg "key")) "") as [Hk|Hk].
    + right. now exists msg.
    + left. rewrite E. right. now split.
Qed.

Lemma identity_whole_kept_witness :
  let w := connected_world sample_config 7%positive (mkIdentity "w1" "k1") in
  identity_whole (identity (chan (Stop w)))
  /\ identity_whole
       (identity (chan (@handleServerMessage example_lib w
                          (js "{'type':'auth_ok','id':'w2','key':'k2'}")))).
Proof.
  intros w.
  destruct (@identity_whole_kept example_lib w) as (_ & _ & Hstop & _ & Hmsg & _).
  - right. split; discriminate.
  - split; [exact Hstop|].
    destruct (Hmsg (js "{'type':'auth_ok','id':'w2','key':'k2'}"))
      as [Hwhole|(msg & Hm & _ & _ & Hk)]; [exact Hwhole|].
    exfalso. vm_compute in Hm. injection Hm as <-. vm_compute in Hk. discriminate Hk.
Defined.



(** X8. [loadIdentity] changes nothing but the identity in memory, and
    that only to an identity with both fields set, read from the identity
    file. A file that does not exist is no error; an unreadable file, a
    file that is not JSON for an identity, and a file with an empty id or
    key all leave the channel as it was. *)
Theorem loadIdentity_effect (w : World) :
  fst (loadIdentity w)
  = set_chan w (set_identity (chan w) (identity (chan (fst (loadIdentity w)))))
  /\ (identity (chan (fst (loadIdentity w))) = identity (chan w)
      \/ (identity_held (identity (chan (fst (loadIdentity w))))
          /\ exists data,
               ReadFile (fs w) (resolveIdentityPath w) = FileData data
               /\ Unmarshal_struct store_identity (mkIdentity "" "") data
                  = Ok (identity (chan (fst (loadIdentity w))))))
  /\ (snd (loadIdentity w) <> None -> fst (loadIdentity w) = w)
  /\ (ReadFile (fs w) (resolveIdentityPath w) = NotExist -> loadIdentity w = (w, None))
  /\ (forall data id,
        ReadFile (fs w) (resolveIdentityPath w) = FileData data ->
        Unmarshal_struct store_identity (mkIdentity "" "") data = Ok id ->
        loadIdentity w
        = (if String.eqb (ID id) "" || String.eqb (Key id) "" then w
           else set_chan w (set_identity (chan w) id), None)).
Proof.
  unfold loadIdentity.
  destruct (ReadFile (fs w) (resolveIdentityPath w)) as [data| |] eqn:Hr; cbn [fst snd].
  - destruct (Unmarshal_struct store_identity (mkIdentity "" "") data) as [id|e] eqn:Hu;
      cbn [fst snd].
    + destruct (String.eqb (ID id) "" || String.eqb (Key id) "") eqn:E; cbn [fst snd].
      * rewrite set_identity_same. repeat split; auto; try discriminate; try congruence.
        intros d i Hd Hi. assert (d = data) by congruence. subst d.
        assert (i = id) by congruence. subst i. now rewrite E.
      * split; [now destruct w as [[r cfg x k i] en cl wr f dl]|].
        split; [right; split; [now apply held_test|now exists data]|].
        split; [congruence|]. split; [discriminate|].
        intros d i Hd Hi. assert (d = data) by congruence. subst d.
        assert (i = id) by congruence. subst i. now rewrite E.
    + rewrite set_identity_same. repeat split; auto; try discriminate.
      intros d i Hd Hi. assert (d = data) by congruence. subst d. congruence.
  - rewrite set_identity_same. repeat split; auto; discriminate.
  - rewrite set_identity_same. repeat split; auto; discriminate.
Qed.

Lemma loadIdentity_effect_witness :
  loadIdentity (fresh_world sample_config) = (fresh_world sample_config, None).
Proof.
  apply (proj1 (proj2 (proj2 (proj2 (loadIdentity_effect (fresh_world sample_config)))))).
  vm_compute. reflexivity.
Defined.

(** ** The identity file read back *)

Lemma lex_run_steps (l : list ascii) (st : lex_state) :
  lex_run st l
  = match lex_steps st l with
    | Some (st', ts) => option_map (app ts) (lex_end st')
    | None => None
    end.
Proof.
  revert st. induction l as [|c r IH]; intros st; simpl.
  - now destruct (lex_end st).
  - destruct (lex_step st c) as [[st' toks]|]; [|reflexivity].
    rewrite IH. destruct (lex_steps st' r) as [[st'' ts]|]; [|reflexivity].
    destruct (lex_end st''); simpl; [|reflexivity]. now rewrite app_assoc.
Qed.

Lemma lex_steps_app (a b : list ascii) (st : lex_state) :
  lex_steps st (a ++ b)
  = match lex_steps st a with
    | Some (st', ts) =>
        match lex_steps st' b with
        | Some (st'', ts') => Some (st'', (ts ++ ts')%list)
        | None => None
        end
    | None => None
    end.
Proof.
  revert st. induction a as [|c r IH]; intros st; simpl.
  - now destruct (lex_steps st b) as [[st'' ts']|].
  - destruct (lex_step st c) as [[st' toks]|]; [|reflexivity].
    rewrite IH. destruct (lex_steps st' r) as [[st1 ts1]|]; [|reflexivity].
    destruct (lex_steps st1 b) as [[st2 ts2]|]; [|reflexivity].
    now rewrite app_assoc.
Qed.

Lemma str_ok_nil : str_ok [].
Proof. intros body. reflexivity. Qed.

Lemma str_ok_app (a b : list ascii) : str_ok a -> str_ok b -> str_ok (a ++ b).
Proof.
  intros Ha Hb body. rewrite lex_steps_app, Ha, Hb. now rewrite rev_app_distr, app_assoc.
Qed.

Lemma str_ok_plain (c : ascii) : plain c = true -> str_ok [c].
Proof.
  unfold plain. intros Hp body.
  apply andb_true_iff in Hp as [Hp H92]. apply andb_true_iff in Hp as [H32 H34].
  apply negb_true_iff in H92, H34. apply N.leb_le in H32.
  simpl. rewrite H34, H92.
  destruct (N.ltb_spec (code c) 32) as [Hlt|_]; [lia|reflexivity].
Qed.

Lemma str_ok_plain_list (v : list ascii) : Forall (fun c => plain c = true) v -> str_ok v.
Proof.
  induction 1 as [|c v Hc _ IH]; [apply str_ok_nil|].
  apply (str_ok_app [c] v); [now apply str_ok_plain|exact IH].
Qed.

Lemma simple_escape_not_u (x c : ascii) : simple_escape x = Some c -> (code x =? 117)%N = false.
Proof.
  intros Hx. destruct (N.eqb_spec (code x) 117) as [E|E]; [|reflexivity].
  unfold simple_escape in Hx. rewrite E in Hx. discriminate Hx.
Qed.

Lemma str_ok_esc (x c : ascii) : simple_escape x = Some c -> str_ok ["\"%char; x].
Proof.
  intros Hx body. simpl. now rewrite (simple_escape_not_u x c Hx), Hx.
Qed.

Lemma lex_step_hex (body : list ascii) (h : ascii) (k : nat) (v : N) :
  hex_val h = Some v ->
  lex_step (LHex body (S k)) h
  = Some (match k with O => LString (h :: body) | S _ => LHex (h :: body) k end, []).
Proof. intros Hh. simpl. rewrite Hh. now destruct k. Qed.

Lemma lex_steps_silent (st st' : lex_state) (c : ascii) (r : list ascii) :
  lex_step st c = Some (st', []) -> lex_steps st (c :: r) = lex_steps st' r.
Proof.
  intros Hs. cbn [lex_steps]. rewrite Hs. now destruct (lex_steps st' r) as [[st'' ts]|].
Qed.

Lemma str_ok_u16 (h1 h2 h3 h4 : ascii) (n : N) :
  hex4 h1 h2 h3 h4 = Some n -> str_ok ["\"%char; "u"%char; h1; h2; h3; h4].
Proof.
  unfold hex4. intros Hh body.
  destruct (hex_val h1) as [v1|] eqn:H1; [|discriminate].
  destruct (hex_val h2) as [v2|] eqn:H2; [|discriminate].
  destruct (hex_val h3) as [v3|] eqn:H3; [|discriminate].
  destruct (hex_val h4) as [v4|] eqn:H4; [|discriminate].
  rewrite (lex_steps_silent (LString body) (LEscape ("\"%char :: body))) by reflexivity.
  rewrite (lex_steps_silent _ (LHex ("u"%char :: "\"%char :: body) 4)) by reflexivity.
  rewrite (lex_steps_silent _ _ h1 _ (lex_step_hex _ h1 3 v1 H1)).
  rewrite (lex_steps_silent _ _ h2 _ (lex_step_hex _ h2 2 v2 H2)).
  rewrite (lex_steps_silent _ _ h3 _ (lex_step_hex _ h3 1 v3 H3)).
  rewrite (lex_steps_silent _ _ h4 _ (lex_step_hex _ h4 0 v4 H4)).
  reflexivity.
Qed.

Lemma enc_rel_str_ok (l e d : list ascii) : enc_rel l e d -> str_ok e.
Proof.
  induction 1 as [|v l e d Hv _ _ IH|c x l e d Hx _ _ IH|inp h1 h2 h3 h4 n l e d Hh _ _ IH].
  - apply str_ok_nil.
  - apply str_ok_app; [now apply str_ok_plain_list|exact IH].
  - apply (str_ok_app ["\"%char; x] e); [now apply (str_ok_esc x c)|exact IH].
  - apply (str_ok_app ["\"%char; "u"%char; h1; h2; h3; h4] e);
      [now apply (str_ok_u16 h1 h2 h3 h4 n)|exact IH].
Qed.

Lemma units_of_plain (c : ascii) (r : list ascii) :
  plain c = true -> units_of (c :: r) = option_map (cons (UByte c)) (units_of r).
Proof.
  unfold plain. intros Hp.
  apply andb_true_iff in Hp as [Hp H92]. apply andb_true_iff in Hp as [H32 H34].
  apply negb_true_iff in H92, H34. apply N.leb_le in H32.
  cbn [units_of]. rewrite H92, H34.
  destruct (N.ltb_spec (code c) 32) as [Hlt|_]; [lia|].
  now destruct (units_of r).
Qed.

Lemma units_of_plain_list (v r : list ascii) :
  Forall (fun c => plain c = true) v ->
  units_of (v ++ r) = option_map (app (List.map UByte v)) (units_of r).
Proof.
  induction 1 as [|c v Hc _ IH]; simpl app.
  - now destruct (units_of r).
  - rewrite (units_of_plain c _ Hc), IH. now destruct (units_of r).
Qed.

Lemma units_of_esc (x c : ascii) (r : list ascii) :
  simple_escape x = Some c ->
  units_of ("\"%char :: x :: r) = option_map (cons (UByte c)) (units_of r).
Proof.
  intros Hx. cbn [units_of].
  change (code "\"%char =? 92)%N with true. cbn iota.
  rewrite (simple_escape_not_u x c Hx), Hx. now destruct (units_of r).
Qed.

Lemma units_of_u16 (h1 h2 h3 h4 : ascii) (n : N) (r : list ascii) :
  hex4 h1 h2 h3 h4 = Some n ->
  units_of ("\"%char :: "u"%char :: h1 :: h2 :: h3 :: h4 :: r)
  = option_map (cons (U16 n)) (units_of r).
Proof.
  intros Hh. cbn [units_of].
  change (code "\"%char =? 92)%N with true. change (code "u"%char =? 117)%N with true.
  cbn iota. rewrite Hh. now destruct (units_of r).
Qed.

Lemma closed_run_nil : closed_run [].
Proof. intros b. reflexivity. Qed.

Lemma closed_run_app (a v : list ascii) : closed_run a -> closed_run v -> closed_run (a ++ v).
Proof. intros Ha Hv b. now rewrite <- !app_assoc, Ha, Hv. Qed.

Lemma closed_run_fixed (a : list ascii) : closed_run a -> coerce_utf8 a = a.
Proof.
  intros Ha. specialize (Ha []). cbn [coerce_utf8] in Ha. now rewrite !app_nil_r in Ha.
Qed.

Lemma closed_run_ascii (c : ascii) : (code c <? 128)%N = true -> closed_run [c].
Proof. intros Hc b. cbn [app coerce_utf8]. now rewrite Hc. Qed.

Lemma flush_units_bytes (v run : list ascii) (items : list (option ascii * list ascii)) :
  flush_units run (List.map (fun c => (Some c, [])) v ++ items)
  = flush_units (rev v ++ run) items.
Proof.
  revert run. induction v as [|c v IH]; intros run; [reflexivity|].
  cbn [List.map app flush_units]. rewrite IH. cbn [rev]. now rewrite <- app_assoc.
Qed.

Lemma join_units_bytes (v : list ascii) (us : list unit16) :
  join_units (List.map UByte v ++ us)
  = (List.map (fun c => (Some c, [])) v ++ join_units us)%list.
Proof. induction v as [|c v IH]; [reflexivity|]. cbn [List.map app join_units]. now rewrite IH. Qed.

(** What a literal written piece by piece stands for. *)
Lemma enc_rel_units (l e d : list ascii) :
  enc_rel l e d ->
  exists us, units_of e = Some us
             /\ forall run, closed_run (rev run) ->
                            flush_units run (join_units us) = (rev run ++ d)%list.
Proof.
  induction 1 as [|v l e d Hv Hcl _ (us & Hus & IH)|c x l e d Hx Hc _ (us & Hus & IH)
                  |inp h1 h2 h3 h4 n l e d Hh Hs _ (us & Hus & IH)].
  - exists []. split; [reflexivity|]. intros run Hrun. cbn [join_units flush_units].
    rewrite app_nil_r. now apply closed_run_fixed.
  - exists (List.map UByte v ++ us)%list. split.
    + now rewrite (units_of_plain_list v e Hv), Hus.
    + intros run Hrun. rewrite join_units_bytes, flush_units_bytes, IH.
      * now rewrite rev_app_distr, rev_involutive, <- app_assoc.
      * rewrite rev_app_distr, rev_involutive. now apply closed_run_app.
  - exists (UByte c :: us). split.
    + now rewrite (units_of_esc x c e Hx), Hus.
    + intros run Hrun. cbn [join_units flush_units]. rewrite IH.
      * cbn [rev]. now rewrite <- app_assoc.
      * cbn [rev]. apply closed_run_app; [exact Hrun|now apply closed_run_ascii].
  - exists (U16 n :: us). split.
    + now rewrite (units_of_u16 h1 h2 h3 h4 n e Hh), Hus.
    + intros run Hrun. cbn [join_units]. rewrite Hs. cbn [flush_units].
      rewrite (closed_run_fixed _ Hrun), (IH [] closed_run_nil). reflexivity.
Qed.

Lemma enc_rel_unquote (l e d : list ascii) :
  enc_rel l e d -> unquote e = Some (string_of d).
Proof.
  intros Hr. destruct (enc_rel_units l e d Hr) as (us & Hus & Hf).
  unfold unquote. rewrite Hus. now rewrite (Hf [] closed_run_nil).
Qed.

(** How one ASCII byte is written in a string literal. *)
Lemma ascii_chunk (c : ascii) :
  (code c <? 128)%N = true ->
  (plain c = true /\ encode_ascii c = [c])
  \/ (exists x, simple_escape x = Some c /\ encode_ascii c = ["\"%char; x])
  \/ (exists h3 h4,
        encode_ascii c = ["\"%char; "u"%char; "0"%char; "0"%char; h3; h4]
        /\ hex4 "0" "0" h3 h4 = Some (code c)
        /\ is_surrogate (code c) = false
        /\ encode_rune (code c) = [c]).
Proof.
  destruct c as [[] [] [] [] [] [] [] []]; intros H; try discriminate H; clear H;
    first [ left; split; reflexivity
          | right; left; eexists; split; [|reflexivity]; reflexivity
          | right; right; eexists; eexists; split; [reflexivity|];
            split; [reflexivity|]; split; reflexivity ].
Qed.

Lemma lead_info_spec (c : ascii) (lo hi : N) (m : nat) :
  lead_info c = Some (lo, hi, m) -> (128 <= lo)%N /\ (m = 1 \/ m = 2 \/ m = 3)%nat.
Proof.
  unfold lead_info. intros H.
  repeat match type of H with
         | (if ?b then _ else _) = _ => destruct b
         end;
    try discriminate H; injection H as <- <- <-; split; (lia || auto).
Qed.

Lemma plain_high (c : ascii) : (code c <? 128)%N = false -> plain c = true.
Proof.
  intros Hc. apply N.ltb_ge in Hc. unfold plain.
  destruct (N.leb_spec 32 (code c)); [|lia].
  destruct (N.eqb_spec (code c) 34); [lia|].
  destruct (N.eqb_spec (code c) 92); [lia|]. reflexivity.
Qed.

Lemma in_range_high (lo hi : N) (c : ascii) :
  (128 <= lo)%N -> in_range lo hi c = true -> (code c <? 128)%N = false.
Proof.
  unfold in_range. intros Hlo Hr. apply andb_true_iff in Hr as [Hr _].
  apply N.leb_le in Hr. apply N.ltb_ge. lia.
Qed.

Lemma is_cont_high (c : ascii) : is_cont c = true -> (code c <? 128)%N = false.
Proof. apply (in_range_high 128 191 c). lia. Qed.

Lemma code_byte (c : ascii) (n : N) : code c = n -> c = byte n.
Proof. intros <-. unfold byte, code. now rewrite ascii_N_embedding. Qed.

Lemma enc_bad (c1 : ascii) (l e d : list ascii) :
  enc_rel l e d -> enc_rel (c1 :: l) (bytes_of "\ufffd" ++ e) (replacement ++ d).
Proof.
  intros Hr.
  exact (enc_u16 [c1] "f" "f" "f" "d" 65533 l e d eq_refl eq_refl Hr).
Qed.

Lemma enc_rel_encode_bound (n : nat) (l : list ascii) :
  (length l <= n)%nat -> enc_rel l (encode_bytes l) (coerce_utf8 l).
Proof.
  revert l. induction n as [|n IH]; intros l Hl.
  { destruct l; [constructor|simpl in Hl; lia]. }
  destruct l as [|c1 r1]; [constructor|]. simpl in Hl.
  assert (Hr1 : enc_rel r1 (encode_bytes r1) (coerce_utf8 r1)) by (apply IH; lia).
  cbn [encode_bytes coerce_utf8].
  destruct (code c1 <? 128)%N eqn:Hc.
  - destruct (ascii_chunk c1 Hc) as [[Hp E]|[(x & Hx & E)|(h3 & h4 & E & Hh & Hs & Hr)]];
      rewrite E.
    + apply (enc_raw [c1] r1 _ _); [repeat constructor; exact Hp| |exact Hr1].
      now apply closed_run_ascii.
    + exact (enc_esc c1 x r1 _ _ Hx Hc Hr1).
    + change (c1 :: coerce_utf8 r1) with ([c1] ++ coerce_utf8 r1)%list. rewrite <- Hr.
      exact (enc_u16 [c1] "0" "0" h3 h4 (code c1) r1 _ _ Hh Hs Hr1).
  - destruct (lead_info c1) as [[[lo hi] m]|] eqn:Hlead; [|now apply enc_bad].
    destruct (lead_info_spec _ _ _ _ Hlead) as [Hlo Hm].
    destruct r1 as [|c2 r2]; [now apply enc_bad|].
    destruct (in_range lo hi c2) eqn:H2; cbn [negb]; [|now apply enc_bad].
    pose proof (plain_high c1 Hc) as Hp1.
    pose proof (plain_high c2 (in_range_high lo hi c2 Hlo H2)) as Hp2.
    simpl in Hl.
    destruct Hm as [-> |[-> | ->]].
    + apply (enc_raw [c1; c2] r2 _ _); [repeat constructor; assumption| |apply IH; lia].
      intros b. cbn [app coerce_utf8]. rewrite Hc, Hlead. cbn iota beta.
      now rewrite H2.
    + destruct r2 as [|c3 r3]; [now apply enc_bad|].
      destruct (is_cont c3) eqn:H3; cbn [negb]; [|now apply enc_bad].
      pose proof (plain_high c3 (is_cont_high c3 H3)) as Hp3.
      simpl in Hl.
      assert (Hr3 : enc_rel r3 (encode_bytes r3) (coerce_utf8 r3)) by (apply IH; lia).
      destruct ((code c1 =? 226) && (code c2 =? 128)
                && ((code c3 =? 168) || (code c3 =? 169)))%N eqn:Hls.
      * apply andb_true_iff in Hls as [Hls E3]. apply andb_true_iff in Hls as [E1 E2].
        apply N.eqb_eq in E1, E2. apply code_byte in E1, E2. subst c1 c2.
        apply orb_true_iff in E3 as [E3|E3]; apply N.eqb_eq in E3; apply code_byte in E3;
          subst c3.
        -- exact (enc_u16 [byte 226; byte 128; byte 168] "2" "0" "2" "8" 8232 r3 _ _
                    eq_refl eq_refl Hr3).
        -- exact (enc_u16 [byte 226; byte 128; byte 169] "2" "0" "2" "9" 8233 r3 _ _
                    eq_refl eq_refl Hr3).
      * apply (enc_raw [c1; c2; c3] r3 _ _); [repeat constructor; assumption| |exact Hr3].
        intros b. cbn [app coerce_utf8]. rewrite Hc, Hlead. cbn iota beta.
        rewrite H2. cbn [negb]. now rewrite H3.
    + destruct r2 as [|c3 r3]; [now apply enc_bad|].
      destruct (is_cont c3) eqn:H3; cbn [negb]; [|now apply enc_bad].
      destruct r3 as [|c4 r4]; [now apply enc_bad|].
      destruct (is_cont c4) eqn:H4; cbn [negb]; [|now apply enc_bad].
      pose proof (plain_high c3 (is_cont_high c3 H3)) as Hp3.
      pose proof (plain_high c4 (is_cont_high c4 H4)) as Hp4.
      simpl in Hl.
      apply (enc_raw [c1; c2; c3; c4] r4 _ _); [repeat constructor; assumption| |apply IH; lia].
      intros b. cbn [app coerce_utf8]. rewrite Hc, Hlead. cbn iota beta.
      rewrite H2. cbn [negb]. rewrite H3. cbn [negb]. now rewrite H4.
Qed.

Lemma enc_rel_encode (l : list ascii) : enc_rel l (encode_bytes l) (coerce_utf8 l).
Proof. now apply (enc_rel_encode_bound (length l)). Qed.

Lemma bytes_of_string_of (l : list ascii) : bytes_of (string_of l) = l.
Proof. apply list_ascii_of_string_of_list_ascii. Qed.

Lemma string_of_bytes_of (s : string) : string_of (bytes_of s) = s.
Proof. apply string_of_list_ascii_of_string. Qed.

Lemma bytes_of_app (a b : string) : bytes_of (a ++ b) = (bytes_of a ++ bytes_of b)%list.
Proof. induction a as [|c a IH]; [reflexivity|]. simpl. now rewrite <- IH. Qed.

(** A string written by [quote] is one string token, which stands for the
    string with its invalid bytes replaced. *)
Lemma lex_quote (s : string) :
  lex_steps LIdle (bytes_of (quote s)) = Some (LIdle, [TString (coerce s)]).
Proof.
  unfold quote. rewrite bytes_of_string_of.
  pose proof (enc_rel_encode (bytes_of s)) as Hr.
  rewrite (lex_steps_silent LIdle (LString []) dquote) by reflexivity.
  rewrite lex_steps_app, (enc_rel_str_ok _ _ _ Hr []).
  cbn [lex_steps lex_step].
  change (code dquote =? 34)%N with true. cbn iota.
  rewrite app_nil_r, rev_involutive, (enc_rel_unquote _ _ _ Hr). reflexivity.
Qed.

Lemma lex_identity_head :
  lex_steps LIdle (bytes_of ("{" ++ newline ++ "  " ++ quote "id" ++ ": "))
  = Some (LIdle, [TLBrace; TString "id"; TColon]).
Proof. vm_compute. reflexivity. Qed.

Lemma lex_identity_middle :
  lex_steps LIdle (bytes_of ("," ++ newline ++ "  " ++ quote "key" ++ ": "))
  = Some (LIdle, [TComma; TString "key"; TColon]).
Proof. vm_compute. reflexivity. Qed.

Lemma lex_identity_tail :
  lex_steps LIdle (bytes_of (newline ++ "}")) = Some (LIdle, [TRBrace]).
Proof. vm_compute. reflexivity. Qed.

Lemma MarshalIndent_identity_bytes (id : workerWSIdentity) :
  bytes_of (MarshalIndent_identity id)
  = (bytes_of ("{" ++ newline ++ "  " ++ quote "id" ++ ": ")
     ++ bytes_of (quote (ID id))
     ++ bytes_of ("," ++ newline ++ "  " ++ quote "key" ++ ": ")
     ++ bytes_of (quote (Key id))
     ++ bytes_of (newline ++ "}"))%list.
Proof.
  unfold MarshalIndent_identity. rewrite !bytes_of_app, <- !app_assoc. reflexivity.
Qed.

(** The text [saveIdentity] writes decodes to the identity it was written
    from, up to the replacement of invalid bytes. *)
Lemma Unmarshal_MarshalIndent_identity (id : workerWSIdentity) :
  Unmarshal_struct store_identity (mkIdentity "" "") (MarshalIndent_identity id)
  = Ok (mkIdentity (coerce (ID id)) (coerce (Key id))).
Proof.
  unfold Unmarshal_struct, parse, lex.
  rewrite lex_run_steps, MarshalIndent_identity_bytes.
  rewrite lex_steps_app, lex_identity_head.
  rewrite lex_steps_app, lex_quote.
  rewrite lex_steps_app, lex_identity_middle.
  rewrite lex_steps_app, lex_quote, lex_identity_tail.
  reflexivity.
Qed.

Lemma coerce_utf8_nonempty (l : list ascii) : coerce_utf8 l = [] -> l = [].
Proof.
  destruct l as [|c1 r1]; [reflexivity|]. cbn [coerce_utf8].
  destruct (code c1 <? 128)%N; [discriminate|].
  destruct (lead_info c1) as [[[lo hi] m]|]; [|discriminate].
  destruct r1 as [|c2 r2]; [discriminate|].
  destruct (negb (in_range lo hi c2)); [discriminate|].
  destruct m as [|[|m]]; try discriminate.
  - destruct r2 as [|c3 r3]; [discriminate|]. destruct (negb (is_cont c3)); [discriminate|].
    destruct r3 as [|c4 r4]; [discriminate|]. now destruct (negb (is_cont c4)).
  - destruct r2 as [|c3 r3]; [discriminate|]. destruct (negb (is_cont c3)); [discriminate|].
    destruct m; [discriminate|].
    destruct r3 as [|c4 r4]; [discriminate|]. now destruct (negb (is_cont c4)).
Qed.

Lemma coerce_nonempty (s : string) : s <> "" -> coerce s <> "".
Proof.
  intros Hs Hc. apply Hs. unfold coerce in Hc.
  assert (Hl : coerce_utf8 (bytes_of s) = []).
  { rewrite <- (bytes_of_string_of (coerce_utf8 (bytes_of s))), Hc. reflexivity. }
  apply coerce_utf8_nonempty in Hl.
  rewrite <- (string_of_bytes_of s), Hl. reflexivity.
Qed.

(** X9. An identity that was saved is found again by a channel created
    later with the same configuration and environment on the file system
    the save left: the new channel holds the same id and key, each with its
    bytes that are not well-formed UTF-8 replaced by U+FFFD; so an identity
    made of well-formed UTF-8 comes back exactly. *)
Theorem identity_survives_restart (w : World) :
  identity_held (identity (chan w)) ->
  resolveIdentityPath w ∉ denied (fs w) ->
  identity (chan (NewWorkerWSChannel (config (chan w)) (env w) (fs (fst (saveIdentity w)))))
  = mkIdentity (coerce (ID (identity (chan w)))) (coerce (Key (identity (chan w))))
  /\ (coerce (ID (identity (chan w))) = ID (identity (chan w)) ->
      coerce (Key (identity (chan w))) = Key (identity (chan w)) ->
      identity (chan (NewWorkerWSChannel (config (chan w)) (env w)
                        (fs (fst (saveIdentity w)))))
      = identity (chan w)).
Proof.
  intros Hheld Hok.
  assert (E : identity (chan (NewWorkerWSChannel (config (chan w)) (env w)
                                (fs (fst (saveIdentity w)))))
              = mkIdentity (coerce (ID (identity (chan w))))
                  (coerce (Key (identity (chan w))))).
  { destruct (saveIdentity_held_file w Hheld Hok) as [Hden Hfile].
    unfold NewWorkerWSChannel, loadIdentity.
    match goal with |- context [resolveIdentityPath ?x] =>
      change (resolveIdentityPath x) with (resolveIdentityPath w) end.
    cbn [fs]. unfold ReadFile. rewrite Hden.
    destruct (decide (resolveIdentityPath w ∈ denied (fs w))); [contradiction|].
    rewrite Hfile, Unmarshal_MarshalIndent_identity. cbn [ID Key].
    destruct Hheld as [Hi Hk]. apply coerce_nonempty in Hi, Hk.
    apply eqb_empty_false in Hi, Hk. rewrite Hi, Hk. reflexivity. }
  split; [exact E|].
  intros Hi Hk. rewrite E, Hi, Hk. now destruct (identity (chan w)).
Qed.

Lemma identity_survives_restart_witness :
  let w := connected_world sample_config 7%positive (mkIdentity "w1" "k<1>") in
  identity (chan (NewWorkerWSChannel sample_config sample_env (fs (fst (saveIdentity w)))))
  = mkIdentity "w1" "k<1>".
Proof.
  intros w.
  apply (proj2 (identity_survives_restart w
                  ltac:(split; discriminate) ltac:(vm_compute; discriminate)));
    reflexivity.
Defined.

(** ** The dispatcher and the read loop *)

Lemma handleServerMessage_effects `{GoLib} (w : World) (data : string) :
  exists id f dl,
    handleServerMessage w data
    = mkWorld (set_identity (chan w) id) (env w) (closed w) (written w) f dl
    /\ denied f = denied (fs w)
    /\ (dl = delivered w \/ exists d, dl = (delivered w ++ [d])%list).
Proof.
  assert (Hsame : exists id f dl,
             w = mkWorld (set_identity (chan w) id) (env w) (closed w) (written w) f dl
             /\ denied f = denied (fs w)
             /\ (dl = delivered w \/ exists d, dl = (delivered w ++ [d])%list)).
  { exists (identity (chan w)), (fs w), (delivered w).
    split; [now destruct w as [[r cfg x k id] en cl wr f dl]|]. auto. }
  unfold handleServerMessage.
  destruct (Unmarshal_map data) as [msg|e]; [|exact Hsame].
  destruct (_ || _); [exact Hsame|].
  repeat (destruct (String.eqb (string_or_zero _) _); [exact Hsame|]).
  destruct (String.eqb (string_or_zero _) "message").
  - unfold handleInboundRoutedMessage. destruct (negb _); [exact Hsame|].
    eexists (identity (chan w)), (fs w), _.
    split; [destruct w as [[r cfg x k id] en cl wr f dl]; reflexivity|].
    split; [reflexivity|]. right. eexists. reflexivity.
  - destruct (String.eqb (string_or_zero _) "auth_ok"); [|exact Hsame].
    destruct (negb _); [|exact Hsame].
    match goal with |- context [saveIdentity ?x] => set (w2 := x) end.
    rewrite (saveIdentity_only_fs w2).
    exists (identity (chan w2)), (fs (fst (saveIdentity w2))), (delivered w).
    split; [reflexivity|]. split; [|now left].
    destruct (saveIdentity_fs w2) as [E|[_ E]]; now rewrite E.
Qed.

(** X10. Whatever frame it is given, the dispatcher writes no frame,
    closes no connection, and leaves the connection handle, the running
    flag, the context and the configuration as they are; it makes at most
    one delivery to the bus. *)
Theorem handleServerMessage_frame `{GoLib} (w : World) (data : string) :
  written (handleServerMessage w data) = written w
  /\ closed (handleServerMessage w data) = closed w
  /\ env (handleServerMessage w data) = env w
  /\ conn (chan (handleServerMessage w data)) = conn (chan w)
  /\ running (chan (handleServerMessage w data)) = running (chan w)
  /\ ctx (chan (handleServerMessage w data)) = ctx (chan w)
  /\ config (chan (handleServerMessage w data)) = config (chan w)
  /\ (delivered (handleServerMessage w data) = delivered w
      \/ exists d, delivered (handleServerMessage w data) = (delivered w ++ [d])%list).
Proof.
  destruct (handleServerMessage_effects w data) as (id & f & dl & -> & _ & Hdl).
  repeat split; try reflexivity. exact Hdl.
Qed.

(** X11. The dispatch by type. A frame that is not a JSON object (or
    null), and a frame whose type is none of "message" and "auth_ok",
    heartbeats, acknowledgements, errors, system events and unknown types
    alike, leave the world exactly as it was; so does an auth_ok frame
    whose id is missing or empty. An auth_ok frame with an id replaces the
    identity by its id and key as text and then saves it. *)
Theorem handleServerMessage_dispatch `{GoLib} (w : World) (data : string) :
  (forall e, Unmarshal_map data = Err e -> handleServerMessage w data = w)
  /\ (forall msg, Unmarshal_map data = Ok msg ->
        string_or_zero (map_index msg "type") <> "message" ->
        string_or_zero (map_index msg "type") <> "auth_ok" ->
        handleServerMessage w data = w)
  /\ (forall msg, Unmarshal_map data = Ok msg ->
        map_index msg "type" = VString "message" ->
        handleServerMessage w data = handleInboundRoutedMessage w msg)
  /\ (forall msg, Unmarshal_map data = Ok msg ->
        map_index msg "type" = VString "auth_ok" ->
        asString (map_index msg "id") = "" ->
        handleServerMessage w data = w)
  /\ (forall msg, Unmarshal_map data = Ok msg ->
        map_index msg "type" = VString "auth_ok" ->
        asString (map_index msg "id") <> "" ->
        handleServerMessage w data
        = fst (saveIdentity
                 (set_chan w (set_identity (chan w)
                                (mkIdentity (asString (map_index msg "id"))
                                            (asString (map_index msg "key"))))))).
Proof.
  unfold handleServerMessage. split; [|split; [|split; [|split]]].
  - intros e ->. reflexivity.
  - intros msg -> Hm Ha.
    apply String.eqb_neq in Hm, Ha. rewrite Hm, Ha. clear Hm Ha.
    destruct (_ || _); [reflexivity|].
    repeat (destruct (String.eqb (string_or_zero _) _); [reflexivity|]). reflexivity.
  - intros msg -> ->. reflexivity.
  - intros msg -> -> ->. reflexivity.
  - intros msg -> -> Hid. apply eqb_empty_false in Hid. cbn [string_or_zero].
    change ("auth_ok" =? "pong")%string with false.
    cbn. now rewrite Hid.
Qed.

Lemma handleServerMessage_dispatch_witness :
  let w := connected_world sample_config 7%positive (mkIdentity "w1" "k1") in
  @handleServerMessage example_lib w "not json" = w
  /\ @handleServerMessage example_lib w (js "{'type':'pong'}") = w
  /\ @handleServerMessage example_lib w (js "{'type':'auth_ok','key':'k9'}") = w
  /\ identity (chan (@handleServerMessage example_lib w
                       (js "{'type':'auth_ok','id':'w2','key':'k2'}")))
     = mkIdentity "w2" "k2".
Proof.
  intros w.
  split; [|split; [|split]].
  - apply (proj1 (@handleServerMessage_dispatch example_lib w "not json") SyntaxError).
    vm_compute. reflexivity.
  - apply (proj1 (proj2 (@handleServerMessage_dispatch example_lib w _))
             (message_of (js "{'type':'pong'}")));
      [vm_compute; reflexivity|vm_compute; discriminate..].
  - apply (proj1 (proj2 (proj2 (proj2 (@handleServerMessage_dispatch example_lib w _))))
             (message_of (js "{'type':'auth_ok','key':'k9'}")));
      vm_compute; reflexivity.
  - rewrite (proj2 (proj2 (proj2 (proj2 (@handleServerMessage_dispatch example_lib w _))))
               (message_of (js "{'type':'auth_ok','id':'w2','key':'k2'}")));
      [|vm_compute; reflexivity|vm_compute; reflexivity|vm_compute; discriminate].
    rewrite saveIdentity_chan. vm_compute. reflexivity.
Defined.

Lemma first_text_found (p : gmap string any) (pre post : list string) (key s : string) :
  Forall (fun k => ~ usable p k) pre ->
  map_index p key = VString s -> TrimSpace s <> "" ->
  first_text p (pre ++ key :: post) = Some s.
Proof.
  intros Hpre Hkey Hs. induction Hpre as [|k pre Hk _ IH]; simpl.
  - rewrite Hkey. apply eqb_empty_false in Hs. now rewrite Hs.
  - destruct (map_index p k) as [|s'| | | | | | | |] eqn:Ek; try exact IH.
    destruct (String.eqb_spec (TrimSpace s') "") as [E|E]; [exact IH|].
    exfalso. apply Hk. now exists s'.
Qed.

Lemma first_text_none (p : gmap string any) (keys : list string) :
  Forall (fun k => ~ usable p k) keys -> first_text p keys = None.
Proof.
  induction 1 as [|k keys Hk _ IH]; simpl; [reflexivity|].
  destruct (map_index p k) as [|s'| | | | | | | |] eqn:Ek; try exact IH.
  destruct (String.eqb_spec (TrimSpace s') "") as [E|E]; [exact IH|].
  exfalso. apply Hk. now exists s'.
Qed.

(** X12. The content delivered for a routed message is never empty. A
    payload that is a non-empty string is delivered as it is; a payload
    that is missing or null gives "{}"; for an object payload the content
    is the first of content, message, text, result, task that is a string
    and not blank, the later ones being looked at only when the earlier
    ones are missing, not strings or blank; with none of them, it is what
    the library writes for the whole object. *)
Theorem content_of_spec `{GoLib} (msg : gmap string any) :
  content_of msg <> ""
  /\ (forall s, map_index msg "payload" = VString s -> s <> "" -> content_of msg = s)
  /\ (map_index msg "payload" = VNil -> content_of msg = "{}")
  /\ (forall p pre key post s,
        map_index msg "payload" = VMap p ->
        text_keys = (pre ++ key :: post)%list ->
        Forall (fun k => ~ usable p k) pre ->
        map_index p key = VString s -> TrimSpace s <> "" ->
        content_of msg = s)
  /\ (forall p,
        map_index msg "payload" = VMap p ->
        Forall (fun k => ~ usable p k) text_keys ->
        marshal_or_print (VMap p) <> "" ->
        content_of msg = marshal_or_print (VMap p)).
Proof.
  unfold content_of. split; [|split; [|split; [|split]]].
  - destruct (String.eqb_spec (payloadToContent (map_index msg "payload")) "");
      [discriminate|assumption].
  - intros s -> Hs. cbn [payloadToContent]. apply eqb_empty_false in Hs. now rewrite Hs.
  - intros ->. reflexivity.
  - intros p pre key post s -> Hkeys Hpre Hkey Hs. cbn [payloadToContent].
    change ["content"; "message"; "text"; "result"; "task"] with text_keys.
    rewrite Hkeys, (first_text_found p pre post key s Hpre Hkey Hs).
    assert (Hne : s <> "") by (intros ->; now apply Hs).
    apply eqb_empty_false in Hne. now rewrite Hne.
  - intros p -> Hnone Hm. cbn [payloadToContent].
    change ["content"; "message"; "text"; "result"; "task"] with text_keys.
    rewrite (first_text_none p text_keys Hnone).
    apply eqb_empty_false in Hm. now rewrite Hm.
Qed.

Lemma content_of_spec_witness :
  let msg := message_of (js "{'payload':{'content':'  ','message':7,'text':'hi','task':'t'}}") in
  @content_of example_lib msg = "hi".
Proof.
  intros msg.
  destruct (@content_of_spec example_lib msg) as (_ & _ & _ & Hobj & _).
  apply (Hobj (<["content" := VString "  "]>
                 (<["message" := VFloat64 (S754_finite false 7881299347898368 (-50))]>
                    (<["text" := VString "hi"]> {["task" := VString "t"]})))
              ["content"; "message"] "text" ["result"; "task"] "hi").
  - vm_compute. reflexivity.
  - reflexivity.
  - constructor; [|constructor; [|constructor]].
    + intros (s & Hs & Hne). vm_compute in Hs. injection Hs as <-. now apply Hne.
    + intros (s & Hs & _). vm_compute in Hs. discriminate Hs.
  - vm_compute. reflexivity.
  - vm_compute. discriminate.
Defined.

(** X13. A routed message from a sender the allow-list rejects changes
    nothing. One from an allowed sender makes one delivery, with the
    sender as both sender and display name, the content and the metadata.
    The sender is from_id as text, or "worker_ws" when from_id is missing,
    null or empty; it is never empty. *)
Theorem routed_message_delivery `{GoLib} (w : World) (data : string)
    (msg : gmap string any) :
  Unmarshal_map data = Ok msg ->
  map_index msg "type" = VString "message" ->
  sender_of msg <> ""
  /\ (asString (map_index msg "from_id") = "" -> sender_of msg = "worker_ws")
  /\ (asString (map_index msg "from_id") <> "" ->
      sender_of msg = asString (map_index msg "from_id"))
  /\ (IsAllowed (chan w) (sender_of msg) = false -> handleServerMessage w data = w)
  /\ (IsAllowed (chan w) (sender_of msg) = true ->
      handleServerMessage w data
      = mkWorld (chan w) (env w) (closed w) (written w) (fs w)
          (delivered w ++ [mkDelivery (sender_of msg) (sender_of msg) (content_of msg)
                                      (metadata_of msg)])).
Proof.
  intros Hm Ht. rewrite (handleServerMessage_message w data msg Hm Ht).
  unfold sender_of. split; [|split; [|split; [|split]]].
  - destruct (String.eqb_spec (asString (map_index msg "from_id")) "");
      [discriminate|assumption].
  - now intros ->.
  - intros Hne. apply eqb_empty_false in Hne. now rewrite Hne.
  - apply handleInboundRoutedMessage_rejected.
  - intros Ha. now rewrite (handleInboundRoutedMessage_allowed w msg Ha).
Qed.

Lemma routed_message_delivery_witness :
  let cfg := {| Address := "ws://127.0.0.1:3001/ws"; Role := "boss"; Name := "b";
                Tags := ["t"]; AuthKey := ""; IdentityFile := "";
                ReconnectInterval := 0; PingInterval := 0; AllowFrom := ["peer-1"] |} in
  let w := connected_world cfg 7%positive (mkIdentity "w1" "k1") in
  @handleServerMessage example_lib w (js "{'type':'message','from_id':'peer-2','payload':'x'}")
  = w
  /\ delivered (@handleServerMessage example_lib w
                  (js "{'type':'message','from_id':'peer-1','payload':'x'}"))
     = [mkDelivery "peer-1" "peer-1" "x" ∅].
Proof.
  intros cfg w.
  pose (f1 := js "{'type':'message','from_id':'peer-1','payload':'x'}").
  pose (f2 := js "{'type':'message','from_id':'peer-2','payload':'x'}").
  assert (H1 : Unmarshal_map f1 = Ok (message_of f1)) by (vm_compute; reflexivity).
  assert (H2 : Unmarshal_map f2 = Ok (message_of f2)) by (vm_compute; reflexivity).
  split.
  - apply (proj1 (proj2 (proj2 (proj2
             (@routed_message_delivery example_lib w f2 (message_of f2) H2 eq_refl))))).
    vm_compute. reflexivity.
  - change (js "{'type':'message','from_id':'peer-1','payload':'x'}") with f1.
    rewrite (proj2 (proj2 (proj2 (proj2
               (@routed_message_delivery example_lib w f1 (message_of f1) H1 eq_refl)))))
      by (vm_compute; reflexivity).
    vm_compute. reflexivity.
Defined.

Lemma handle_frames_fixed `{GoLib} (frames : list string) (w : World) :
  let w' := fold_left handleServerMessage frames w in
  written w' = written w /\ closed w' = closed w
  /\ conn (chan w') = conn (chan w) /\ ctx (chan w') = ctx (chan w)
  /\ running (chan w') = running (chan w) /\ config (chan w') = config (chan w).
Proof.
  revert w. induction frames as [|data frames IH]; intros w; cbn [fold_left].
  - repeat split.
  - destruct (IH (handleServerMessage w data)) as (H1 & H2 & H3 & H4 & H5 & H6).
    destruct (handleServerMessage_effects w data) as (id & f & dl & E & _).
    cbv zeta. rewrite H1, H2, H3, H4, H5, H6, E. repeat split.
Qed.

Lemma readLoop_done `{GoLib} (w : World) (k : option Conn) (turns : list turn)
    (last : World -> World) :
  ctx (chan w) = Cancelled -> readLoop w k turns last = Some w.
Proof. intros E. destruct turns; cbn [readLoop]; now rewrite E. Qed.

Lemma readLoop_turn `{GoLib} (w : World) (k : option Conn) (t : turn) (rest : list turn)
    (last : World -> World) :
  ctx (chan w) = Live ->
  readLoop w k (t :: rest) last
  = readLoop (tn_after t (handleServerMessage (tn_during t w) (tn_frame t))) k rest last.
Proof. intros E. cbn [readLoop]. now rewrite E. Qed.

Lemma handleServerMessage_ctx `{GoLib} (w : World) (data : string) :
  ctx (chan (handleServerMessage w data)) = ctx (chan w).
Proof.
  destruct (handleServerMessage_effects w data) as (id & f & dl & E & _). now rewrite E.
Qed.

Lemma readLoop_fold `{GoLib} (frames : list string) (w : World) (k : option Conn)
    (last : World -> World) :
  readLoop w k (undisturbed frames) last
  = match ctx (chan w) with
    | NoContext => None
    | Cancelled => Some w
    | Live => clearConnIfCurrent (last (fold_left handleServerMessage frames w)) k
    end.
Proof.
  revert w. induction frames as [|data frames IH]; intros w.
  - reflexivity.
  - destruct (ctx (chan w)) eqn:Hc.
    + cbn [undisturbed map readLoop]. now rewrite Hc.
    + change (undisturbed (data :: frames))
        with (mkTurn idle data idle :: undisturbed frames).
      rewrite readLoop_turn by exact Hc. cbn [tn_during tn_frame tn_after]. unfold idle.
      rewrite IH, handleServerMessage_ctx, Hc. reflexivity.
    + now apply readLoop_done.
Qed.

(** X14. The read loop tests the context at the top of each turn and
    nowhere else. If the context is done at that test, the loop returns
    there, without reading, and leaves the world as it is. While the
    context is live and the other goroutines do nothing before the read
    that fails, the loop handles the frames it reads one after the other,
    in the order read, and when the read fails it calls the compare-and-
    clear on the world as it is then. A cancellation that comes while the
    loop is blocked in a read does not stop that turn: the frame the read
    returns is still dispatched, and the loop returns at its next test. *)
Theorem readLoop_in_order `{GoLib} (w : World) (k : Conn) (frames : list string) :
  (ctx (chan w) = Cancelled -> forall turns last, readLoop w (Some k) turns last = Some w)
  /\ (ctx (chan w) = Live -> forall last,
      readLoop w (Some k) (undisturbed frames) last
      = clearConnIfCurrent (last (fold_left handleServerMessage frames w)) (Some k))
  /\ (ctx (chan w) = Live -> forall data rest last,
      readLoop w (Some k) (mkTurn cancel_only data idle :: rest) last
      = Some (handleServerMessage (cancel_only w) data)).
Proof.
  split; [|split].
  - intros E turns last. now apply readLoop_done.
  - intros E last. rewrite readLoop_fold. now rewrite E.
  - intros E data rest last. rewrite readLoop_turn by exact E.
    cbn [tn_during tn_frame tn_after]. unfold idle.
    apply readLoop_done. rewrite handleServerMessage_ctx.
    unfold cancel_only. cbn. now rewrite E.
Qed.

Lemma readLoop_in_order_witness :
  let w := connected_world sample_config 7%positive (mkIdentity "w1" "k1") in
  let frames := [js "{'type':'pong'}"; js "{'type':'message','from_id':'p','payload':'x'}"] in
  @readLoop example_lib (Stop w) (Some 7%positive) (undisturbed frames) idle = Some (Stop w)
  /\ @readLoop example_lib w (Some 7%positive) (undisturbed frames) cancel_only
     = clearConnIfCurrent
         (cancel_only (fold_left (@handleServerMessage example_lib) frames w))
         (Some 7%positive)
  /\ identity (chan (default w
         (@readLoop example_lib w (Some 7%positive)
            [mkTurn cancel_only (js "{'type':'auth_ok','id':'w2','key':'k2'}") idle] idle)))
     = mkIdentity "w2" "k2".
Proof.
  intros w frames. split; [|split].
  - apply (proj1 (@readLoop_in_order example_lib (Stop w) 7%positive frames)). reflexivity.
  - apply (proj1 (proj2 (@readLoop_in_order example_lib w 7%positive frames))). reflexivity.
  - rewrite (proj2 (proj2 (@readLoop_in_order example_lib w 7%positive frames)) eq_refl).
    vm_compute. reflexivity.
Defined.

Lemma clearConnIfCurrent_result (w w' : World) (k : Conn) :
  clearConnIfCurrent w (Some k) = Some w' ->
  written w' = written w
  /\ running (chan w') = running (chan w)
  /\ (conn (chan w) <> Some k -> conn (chan w') = conn (chan w) /\ closed w' = closed w)
  /\ (conn (chan w) = Some k -> conn (chan w') = None /\ closed w' = {[k]} ∪ closed w).
Proof.
  unfold clearConnIfCurrent.
  destruct (decide (conn (chan w) = Some k)) as [E|E].
  - rewrite E. intros [= <-]. cbn.
    split; [reflexivity|]. split; [reflexivity|].
    split; [intros Hne; contradiction|intros _; now split].
  - intros [= <-].
    split; [reflexivity|]. split; [reflexivity|].
    split; [intros _; now split|intros Hk; contradiction].
Qed.

(** X15. A read loop of a started channel writes nothing and touches no
    connection but its own. If the context is done at the loop's first
    test, the loop returns with the world as it is. Otherwise, with the
    other goroutines doing nothing before the read that fails, the
    dispatches leave the frames written, the closed connections and the
    handle as they were, and the loop ends in the world the others left at
    that read, changed in this only: when the channel then still holds the
    loop's connection, that connection is closed and the handle emptied,
    also when the context was cancelled meanwhile; when it holds another
    connection, or none, nothing changes. *)
Theorem readLoop_own_connection `{GoLib} (w w' : World) (k : Conn) (frames : list string)
    (last : World -> World) :
  ctx (chan w) <> NoContext ->
  readLoop w (Some k) (undisturbed frames) last = Some w' ->
  (ctx (chan w) = Cancelled -> w' = w)
  /\ (ctx (chan w) = Live ->
      let w0 := fold_left handleServerMessage frames w in
      let w1 := last w0 in
      written w0 = written w /\ closed w0 = closed w /\ conn (chan w0) = conn (chan w)
      /\ written w' = written w1
      /\ running (chan w') = running (chan w1)
      /\ ctx (chan w') = ctx (chan w1)
      /\ (conn (chan w1) <> Some k -> w' = w1)
      /\ (conn (chan w1) = Some k ->
          conn (chan w') = None /\ closed w' = {[k]} ∪ closed w1)).
Proof.
  intros Hstarted. rewrite readLoop_fold.
  destruct (handle_frames_fixed frames w) as (H1 & H2 & H3 & _).
  cbv zeta in *.
  destruct (ctx (chan w)) eqn:Hctx.
  - now elim Hstarted.
  - intros Hclear. split; [discriminate|]. intros _.
    split; [exact H1|]. split; [exact H2|]. split; [exact H3|].
    revert Hclear. unfold clearConnIfCurrent.
    destruct (decide (conn (chan (last (fold_left handleServerMessage frames w))) = Some k))
      as [E|E].
    + rewrite E. intros [= <-]. cbn.
      split; [reflexivity|]. split; [reflexivity|]. split; [reflexivity|].
      split; [intros Hne; contradiction|intros _; now split].
    + intros [= <-].
      split; [reflexivity|]. split; [reflexivity|]. split; [reflexivity|].
      split; [reflexivity|intros Hk; contradiction].
  - intros [= <-]. split; [reflexivity|discriminate].
Qed.

Lemma readLoop_own_connection_witness :
  let w := connected_world sample_config 7%positive (mkIdentity "w1" "k1") in
  let w' := mkWorld (mkChannel true sample_config Cancelled None (mkIdentity "w1" "k1"))
              (env w) ({[7%positive]} ∪ closed w) (written w) (fs w) (delivered w) in
  conn (chan w') = None /\ closed w' = {[7%positive]} ∪ closed (cancel_only w).
Proof.
  intros w w'.
  destruct (@readLoop_own_connection example_lib w w' 7%positive [js "{'type':'pong'}"]
              cancel_only)
    as (_ & Hlive).
  - discriminate.
  - vm_compute. reflexivity.
  - destruct (Hlive eq_refl) as (_ & _ & _ & _ & _ & _ & _ & Hown).
    apply Hown. reflexivity.
Defined.

(** ** Send, message ids, Stop *)

(** X16. On a running channel that holds a connection, [Send] marshals
    one envelope with exactly the members type ("message"), to, payload
    and msg_id. If the connection is open, that one frame is written on it,
    nothing else changes and no error is returned; if the connection was
    closed, nothing is written and the write error is returned; if the
    envelope cannot be marshalled, nothing is written either. *)
Theorem Send_one_frame `{GoLib} (w : World) (now : Z) (msg : OutboundMessage) (k : Conn) :
  IsRunning (chan w) = true -> getConn (chan w) = Some k ->
  (forall data, Marshal (VMap (envelope_of now msg)) = Some data -> k ∉ closed w ->
     Send w now msg = (with_frame w k data, None))
  /\ (forall data, Marshal (VMap (envelope_of now msg)) = Some data -> k ∈ closed w ->
        Send w now msg = (w, Some (Lib WriteError)))
  /\ (Marshal (VMap (envelope_of now msg)) = None ->
      Send w now msg = (w, Some (Lib MarshalError)))
  /\ envelope_of now msg !! "type" = Some (VString "message")
  /\ envelope_of now msg !! "to" = Some (resolveTarget (ChatID msg))
  /\ envelope_of now msg !! "payload" = Some (buildPayload (Content msg))
  /\ envelope_of now msg !! "msg_id" = Some (VString (nextMsgID now))
  /\ (forall key, ~ In key ["type"; "to"; "payload"; "msg_id"] ->
        envelope_of now msg !! key = None).
Proof.
  intros Hrun Hconn. unfold Send, sendJSON, writeJSONConn. rewrite Hrun, Hconn. cbn [negb].
  fold (envelope_of now msg).
  split; [|split; [|split]].
  - intros data -> Hk. destruct (WriteMessage_cases w k data) as [[Hc _]|[_ ->]];
      [contradiction|reflexivity].
  - intros data -> Hk. destruct (WriteMessage_cases w k data) as [[_ ->]|[Hc _]];
      [reflexivity|contradiction].
  - intros ->. reflexivity.
  - unfold envelope_of.
    split; [reflexivity|]. split; [reflexivity|]. split; [reflexivity|].
    split; [reflexivity|].
    intros key Hkey.
    rewrite !lookup_insert_ne, lookup_singleton_ne; [reflexivity|..];
      intros <-; apply Hkey; simpl; tauto.
Qed.

Lemma Send_one_frame_witness :
  let w := connected_world sample_config 7%positive (mkIdentity "w1" "k1") in
  @Send example_lib w 42 {| ChatID := "peer-2"; Content := "hi" |}
  = (with_frame w 7%positive "json", None).
Proof.
  intros w.
  apply (proj1 (@Send_one_frame example_lib w 42 {| ChatID := "peer-2"; Content := "hi" |}
                  7%positive eq_refl eq_refl) "json");
    [reflexivity|vm_compute; discriminate].
Defined.

Lemma format_d_inj (z1 z2 : Z) : format_d z1 = format_d z2 -> z1 = z2.
Proof.
  unfold format_d. intros E. apply DecimalZ.to_int_inj.
  assert (Hn : forall z, Z.to_int z <> Decimal.Pos Decimal.Nil
                         /\ Z.to_int z <> Decimal.Neg Decimal.Nil).
  { intros [|p|p]; split; try discriminate; simpl; intros [= Hp];
      now apply DecimalPos.Unsigned.to_uint_nonnil in Hp. }
  destruct (Hn z1) as [Hp1 Hn1], (Hn z2) as [Hp2 Hn2].
  pose proof (NilZero.isi _ Hp1 Hn1) as E1. pose proof (NilZero.isi _ Hp2 Hn2) as E2.
  rewrite E in E1. congruence.
Qed.

(** X17. A message id is "mimiclaw-" followed by the clock reading as a
    decimal integer, so two ids are equal exactly when they were made at
    the same clock reading. *)
Theorem nextMsgID_unique (now1 now2 : Z) :
  (nextMsgID now1 = nextMsgID now2 <-> now1 = now2)
  /\ exists digits, nextMsgID now1 = "mimiclaw-" ++ digits
                    /\ decimal_integer digits = true
                    /\ digits = format_d now1.
Proof.
  split.
  - split; [|now intros ->].
    unfold nextMsgID. intros E. simpl in E. injection E as E. now apply format_d_inj.
  - exists (format_d now1). split; [reflexivity|]. split; [apply decimal_format_d|reflexivity].
Qed.

(** X18. [Stop] is idempotent. After it the channel is not running and
    holds no connection, every [Send] fails with the not-running error
    and writes nothing, and a ping tick does nothing. If a context had
    been created, a read loop that comes to its context test after [Stop]
    returns there, without reading, and changes nothing. A read loop that
    was blocked in its read when [Stop] ran, and whose read then fails,
    finds the handle empty and leaves the world as [Stop] left it. *)
Theorem Stop_idempotent `{GoLib} (w : World) :
  Stop (Stop w) = Stop w
  /\ IsRunning (chan (Stop w)) = false
  /\ getConn (chan (Stop w)) = None
  /\ (forall now msg,
        Send (Stop w) now msg = (Stop w, Some (Errorf "worker_ws channel not running")))
  /\ pingTick (Stop w) = Stop w
  /\ (ctx (chan w) <> NoContext ->
      forall k turns last, readLoop (Stop w) k turns last = Some (Stop w))
  /\ (ctx (chan w) = Live ->
      forall k, readLoop w (Some k) [] Stop = Some (Stop w)).
Proof.
  destruct w as [[r cfg x [k|] id] en cl wr f dl]; destruct x.
  all: split; [reflexivity|]; split; [reflexivity|]; split; [reflexivity|].
  all: split; [reflexivity|]; split; [reflexivity|].
  all: split;
    [intros Hx k' turns last; first [now elim Hx|now apply readLoop_done]
    |intros Hl k'; try discriminate Hl].
  all: cbn [readLoop chan ctx]; unfold clearConnIfCurrent.
  all: match goal with
       | |- context [decide (?a = ?b)] => destruct (decide (a = b)) as [E|E]
       end.
  all: first [discriminate E|reflexivity].
Qed.

Lemma Stop_idempotent_witness :
  let w := connected_world sample_config 7%positive (mkIdentity "w1" "k1") in
  @readLoop example_lib (Stop w) (Some 7%positive)
    (undisturbed [js "{'type':'auth_ok','id':'x'}"]) idle
  = Some (Stop w)
  /\ @readLoop example_lib w (Some 7%positive) [] Stop = Some (Stop w).
Proof.
  intros w.
  destruct (@Stop_idempotent example_lib w) as (_ & _ & _ & _ & _ & Hafter & Hblocked).
  split; [apply Hafter; discriminate|apply Hblocked; reflexivity].
Defined.

(** ** Start and recovery *)

Lemma connect_chan_fields `{GoLib} (w : World) (dial : option (Conn * list string))
    (now_ms : Z) :
  let w' := fst (fst (connectAndAuthenticate w dial now_ms)) in
  config (chan w') = config (chan w) /\ running (chan w') = running (chan w)
  /\ ctx (chan w') = ctx (chan w).
Proof.
  destruct (connectAndAuthenticate w dial now_ms) as [[w' [e|]] rest] eqn:E; cbn [fst].
  - destruct (connect_failure_facts w w' dial now_ms e rest E) as (-> & _). auto.
  - destruct (connect_success_facts w w' dial now_ms rest E)
      as (k & inc & ok & data & _ & _ & _ & _ & _ & -> & _). auto.
Qed.

(** X19. [Start] with a configuration that does not validate returns the
    validation error, starts nothing and changes nothing. Otherwise it
    creates the context and makes one connection attempt. If the attempt
    fails and reconnection is disabled, [Start] returns the attempt's
    error, starts no loop and does not mark the channel running. If the
    attempt succeeds, or fails with reconnection enabled, [Start] returns
    no error, marks the channel running, and has started the read loop of
    the new connection (only on success), the reconnect loop (only when
    the reconnect interval is positive) and the ping loop (only when the
    ping interval is positive). *)
Theorem Start_outcomes `{GoLib} (w : World) (parent_done : bool)
    (dial : option (Conn * list string)) (now_ms : Z) :
  (forall e, validateConfig (chan w) = Some e ->
     Start w parent_done dial now_ms = (w, Some e, []))
  /\ (validateConfig (chan w) = None ->
      forall w1 err1 rest,
        connectAndAuthenticate (set_chan w (set_ctx (chan w) (WithCancel parent_done)))
          dial now_ms = (w1, err1, rest) ->
        ctx (chan w1) = WithCancel parent_done
        /\ (err1 <> None -> reconnectInterval (chan w) <= 0 ->
            Start w parent_done dial now_ms = (w1, err1, [])
            /\ running (chan w1) = running (chan w))
        /\ (err1 = None \/ 0 < reconnectInterval (chan w) ->
            Start w parent_done dial now_ms
            = (set_chan w1 (setRunning (chan w1) true), None,
               (read_loop_of dial err1 ++ loops_of (chan w))%list))).
Proof.
  unfold Start. split.
  - now intros e ->.
  - intros -> w1 err1 rest E.
    pose proof (connect_chan_fields (set_chan w (set_ctx (chan w) (WithCancel parent_done)))
                  dial now_ms) as Hf.
    rewrite E in Hf. cbv zeta in Hf. cbn [fst chan set_chan set_ctx config running ctx] in Hf.
    destruct Hf as (Hcfg & Hrun & Hctx).
    assert (Hri : reconnectInterval (chan w1) = reconnectInterval (chan w))
      by (unfold reconnectInterval; now rewrite Hcfg).
    assert (Hpi : pingInterval (chan w1) = pingInterval (chan w))
      by (unfold pingInterval; now rewrite Hcfg).
    rewrite E. rewrite Hri, Hpi. unfold loops_of.
    split; [exact Hctx|]. split.
    + intros Herr Hdis. destruct err1 as [e|]; [|now elim Herr].
      apply Z.leb_le in Hdis. rewrite Hdis. split; [|exact Hrun].
      f_equal. unfold read_loop_of. now destruct dial as [[k inc]|].
    + intros Hor. destruct err1 as [e|].
      * destruct Hor as [Hor|Hor]; [discriminate Hor|].
        destruct (Z.leb_spec (reconnectInterval (chan w)) 0) as [Hle|_]; [lia|].
        apply Z.ltb_lt in Hor. rewrite Hor. reflexivity.
      * reflexivity.
Qed.

Lemma Start_outcomes_witness :
  let w := fresh_world (with_intervals sample_config 10 0) in
  @Start example_lib w false None 1000
  = (mkWorld (mkChannel true (with_intervals sample_config 10 0) Live None (mkIdentity "" ""))
       sample_env ∅ [] (mkFS ∅ ∅) [],
     None, [GoReconnectLoop; GoPingLoop])
  /\ @Start example_lib (fresh_world sample_config) false None 1000
     = (mkWorld (mkChannel false sample_config Live None (mkIdentity "" ""))
          sample_env ∅ [] (mkFS ∅ ∅) [],
        Some (Wrapf "dial worker ws failed" (Lib DialError)), []).
Proof.
  intros w. split.
  - destruct (proj2 (@Start_outcomes example_lib w false None 1000) eq_refl
                (set_chan w (set_ctx (chan w) Live))
                (Some (Wrapf "dial worker ws failed" (Lib DialError))) [] eq_refl)
      as (_ & _ & Hon).
    rewrite Hon; [reflexivity|]. right. vm_compute. reflexivity.
  - destruct (proj2 (@Start_outcomes example_lib (fresh_world sample_config) false None 1000)
                eq_refl
                (set_chan (fresh_world sample_config)
                   (set_ctx (chan (fresh_world sample_config)) Live))
                (Some (Wrapf "dial worker ws failed" (Lib DialError))) [] eq_refl)
      as (_ & Hoff & _).
    destruct Hoff as [Hs _]; [discriminate|vm_compute; discriminate|].
    rewrite Hs. reflexivity.
Defined.

(** X20. Recovery after a loss. When the read loop of the connection the
    channel holds ends on a read failure (the context being live and the
    other goroutines doing nothing meanwhile), the handle is empty; the next
    reconnect tick then runs a connection attempt, and if that succeeds
    the channel holds the new connection, the lost one is closed, the
    frame written on the new connection is the auth message built from
    the channel as the read loop left it (with the identity held then),
    and the read loop of the new connection is started. While a
    connection is held, a reconnect tick does nothing, whatever dialling
    would have given. *)
Theorem reconnect_after_loss `{GoLib} (w w1 w2 : World) (k1 k2 : Conn)
    (frames incoming rest : list string) (now_ms : Z) :
  conn (chan w) = Some k1 -> ctx (chan w) = Live ->
  readLoop w (Some k1) (undisturbed frames) idle = Some w1 ->
  connectAndAuthenticate w1 (Some (k2, incoming)) now_ms = (w2, None, rest) ->
  getConn (chan w1) = None
  /\ k1 ∈ closed w1
  /\ reconnectTick w1 (Some (k2, incoming)) now_ms = (w2, [GoReadLoop k2])
  /\ getConn (chan w2) = Some k2
  /\ k1 ∈ closed w2
  /\ (exists data, Marshal (VMap (buildAuthMessage (chan w1) now_ms)) = Some data
                   /\ written w2 = (written w ++ [(k2, data)])%list)
  /\ (identity_held (identity (chan w1)) ->
      buildAuthMessage (chan w1) now_ms !! "identity"
      = Some (VMap (<["key" := VString (Key (identity (chan w1)))]>
                      {["id" := VString (ID (identity (chan w1)))]})))
  /\ (forall dial now', reconnectTick w2 dial now' = (w2, [])).
Proof.
  intros Hk1 Hctx Hloop Hconn.
  rewrite readLoop_fold in Hloop.
  assert (Hclear : clearConnIfCurrent (fold_left handleServerMessage frames w) (Some k1)
                   = Some w1) by (rewrite Hctx in Hloop; exact Hloop).
  destruct (handle_frames_fixed frames w) as (H1 & H2 & H3 & _).
  cbv zeta in H1, H2, H3.
  destruct (clearConnIfCurrent_result _ _ _ Hclear) as (Ew & _ & _ & Hown).
  destruct Hown as [Hnone Hclosed]; [congruence|].
  destruct (connect_success_facts w1 w2 _ now_ms rest Hconn)
    as (k & inc & ok & data & Hd & Hopen & Hm & Hwr & _ & Hchan & _ & Hcl & _).
  injection Hd as <- <-.
  split; [exact Hnone|].
  split; [rewrite Hclosed; apply elem_of_union_l, elem_of_singleton_2; reflexivity|].
  split; [unfold reconnectTick, getConn; now rewrite Hnone, Hconn|].
  split; [now rewrite Hchan|].
  split.
  { rewrite Hcl. unfold closed_after_stop. rewrite Hnone, Hclosed.
    apply elem_of_union_l, elem_of_singleton_2; reflexivity. }
  split; [exists data; split; [exact Hm|congruence]|].
  split; [apply buildAuthMessage_held|].
  intros dial now'. unfold reconnectTick, getConn. now rewrite Hchan.
Qed.

Lemma reconnect_after_loss_witness :
  let w := connected_world sample_config 7%positive (mkIdentity "w1" "k1") in
  let w1 := mkWorld (set_conn (chan w) None) (env w) ({[7%positive]} ∪ closed w)
              (written w) (fs w) (delivered w) in
  let frames := [js "{'type':'hello'}"; js "{'type':'auth_ok','id':'w1','key':'k1'}"] in
  getConn (chan w1) = None
  /\ 7%positive ∈ closed w1
  /\ snd (@reconnectTick example_lib w1 (Some (8%positive, frames)) 1000)
     = [GoReadLoop 8%positive].
Proof.
  intros w w1 frames.
  destruct (@reconnect_after_loss example_lib w w1
              (fst (fst (@connectAndAuthenticate example_lib w1 (Some (8%positive, frames))
                           1000)))
              7%positive 8%positive [] frames [] 1000)
    as (Hnone & Hcl & Htick & _).
  - reflexivity.
  - reflexivity.
  - vm_compute. reflexivity.
  - vm_compute. reflexivity.
  - split; [exact Hnone|]. split; [exact Hcl|]. exact (f_equal snd Htick).
Defined.

(** X21. A ping tick changes nothing but the frames written: the
    connection handle, the identity, the closed connections, the files and
    the deliveries are as before, also when the ping fails, so a failed
    ping never drops the connection. With an open connection held it
    writes exactly one frame on it, the marshalled ping object; with no
    connection, or a closed one, it writes nothing. *)
Theorem pingTick_effect `{GoLib} (w : World) :
  chan (pingTick w) = chan w
  /\ closed (pingTick w) = closed w
  /\ fs (pingTick w) = fs w
  /\ delivered (pingTick w) = delivered w
  /\ (getConn (chan w) = None -> pingTick w = w)
  /\ (forall k, getConn (chan w) = Some k -> k ∈ closed w -> pingTick w = w)
  /\ (forall k data, getConn (chan w) = Some k -> (k ∉ closed w) ->
        Marshal ping_message = Some data -> pingTick w = with_frame w k data).
Proof.
  assert (Hcases : pingTick w = w
                   \/ exists k data, pingTick w = with_frame w k data).
  { unfold pingTick, sendJSON, writeJSONConn.
    destruct (getConn (chan w)) as [k|]; [|now left].
    destruct (Marshal ping_message) as [data|]; [|now left].
    destruct (WriteMessage_cases w k data) as [[_ ->]|[_ ->]]; [now left|].
    right. now exists k, data. }
  split; [destruct Hcases as [->|(k & data & ->)]; reflexivity|].
  split; [destruct Hcases as [->|(k & data & ->)]; reflexivity|].
  split; [destruct Hcases as [->|(k & data & ->)]; reflexivity|].
  split; [destruct Hcases as [->|(k & data & ->)]; reflexivity|].
  split; [intros Hk; unfold pingTick; now rewrite Hk|].
  split.
  { intros k Hk Hcl. unfold pingTick, sendJSON, writeJSONConn. rewrite Hk.
    destruct (Marshal ping_message) as [data|]; [|reflexivity].
    destruct (WriteMessage_cases w k data) as [[_ ->]|[Hn _]]; [reflexivity|contradiction]. }
  intros k data Hk Hcl Hm. unfold pingTick, sendJSON, writeJSONConn. rewrite Hk, Hm.
  destruct (WriteMessage_cases w k data) as [[Hn _]|[_ ->]]; [contradiction|reflexivity].
Qed.

Lemma pingTick_effect_witness :
  let w := connected_world sample_config 7%positive (mkIdentity "w1" "k1") in
  @pingTick example_lib w = with_frame w 7%positive "json"
  /\ @pingTick example_lib (Close w 7%positive) = Close w 7%positive.
Proof.
  intros w.
  destruct (@pingTick_effect example_lib w) as (_ & _ & _ & _ & _ & _ & Hopen).
  destruct (@pingTick_effect example_lib (Close w 7%positive))
    as (_ & _ & _ & _ & _ & Hclosed & _).
  split.
  - apply Hopen; [reflexivity|vm_compute; discriminate|reflexivity].
  - apply (Hclosed 7%positive); [reflexivity|vm_compute; reflexivity].
Defined.

(** X22. The reconnect loop's tick does not look at the cancellation
    signal or the running flag, and [Stop] empties the connection handle:
    if the loop handles one more tick after [Stop] (its select may take
    the tick while the context is already done) and the attempt
    succeeds, the stopped channel holds the new, open connection.
    The read loop started on that connection returns at once, so nothing
    reads from it or clears it; [Send] still fails as not running; only
    another [Stop] closes it. *)
Theorem reconnect_after_Stop `{GoLib} (w w2 : World) (k : Conn)
    (incoming rest : list string) (now_ms : Z) :
  ctx (chan w) <> NoContext ->
  connectAndAuthenticate (Stop w) (Some (k, incoming)) now_ms = (w2, None, rest) ->
  reconnectTick (Stop w) (Some (k, incoming)) now_ms = (w2, [GoReadLoop k])
  /\ getConn (chan w2) = Some k
  /\ (k ∉ closed w2)
  /\ IsRunning (chan w2) = false
  /\ (forall turns last, readLoop w2 (Some k) turns last = Some w2)
  /\ (forall now msg,
        Send w2 now msg = (w2, Some (Errorf "worker_ws channel not running")))
  /\ getConn (chan (Stop w2)) = None
  /\ k ∈ closed (Stop w2).
Proof.
  intros Hstarted Hconn.
  assert (Hs : conn (chan (Stop w)) = None /\ running (chan (Stop w)) = false
               /\ ctx (chan (Stop w)) = Cancelled).
  { destruct w as [[r cfg x [k0|] id] en cl wr f dl]; destruct x;
      try (now elim Hstarted); repeat split. }
  destruct Hs as (Hnone & Hrun & Hctx).
  destruct (connect_success_facts _ _ _ _ _ Hconn)
    as (k' & inc & ok & data & Hd & Hopen & _ & _ & _ & Hchan & _ & Hcl & _).
  injection Hd as <- <-.
  rewrite Hrun, Hctx in Hchan.
  unfold closed_after_stop in Hcl. rewrite Hnone in Hcl.
  split; [unfold reconnectTick, getConn; now rewrite Hnone, Hconn|].
  split; [now rewrite Hchan|].
  split; [now rewrite Hcl|].
  split; [now rewrite Hchan|].
  split; [intros turns last; apply readLoop_done; now rewrite Hchan|].
  split; [intros now msg; unfold Send, IsRunning; now rewrite Hchan|].
  destruct w2 as [c2 en2 cl2 wr2 f2 dl2]. cbn [chan] in Hchan. subst c2.
  split; [reflexivity|].
  cbn. apply elem_of_union_l, elem_of_singleton_2. reflexivity.
Qed.

Lemma reconnect_after_Stop_witness :
  let w := connected_world sample_config 7%positive (mkIdentity "w1" "k1") in
  let frames := [js "{'type':'hello'}"; js "{'type':'auth_ok','id':'w1','key':'k1'}"] in
  let w2 := fst (fst (@connectAndAuthenticate example_lib (Stop w)
                        (Some (8%positive, frames)) 1000)) in
  getConn (chan w2) = Some 8%positive /\ IsRunning (chan w2) = false.
Proof.
  intros w frames w2.
  destruct (@reconnect_after_Stop example_lib w w2 8%positive frames [] 1000)
    as (_ & Hk & _ & Hr & _).
  - discriminate.
  - vm_compute. reflexivity.
  - split; [exact Hk|exact Hr].
Defined.

(** ** Trimming *)

Lemma trim_left_length (n : nat) :
  forall l, (length l <= n)%nat -> (length (trim_left l) <= length l)%nat.
Proof.
  induction n as [|n IH]; intros l Hl.
  - destruct l; [simpl; lia|simpl in Hl; lia].
  - destruct l as [|c1 r1]; [simpl; lia|]. cbn [trim_left].
    destruct (is_ascii_space c1);
      [etransitivity; [apply IH; simpl in *; lia|simpl; lia]|].
    destruct r1 as [|c2 r2]; [simpl; lia|].
    destruct (is_space2 c1 c2);
      [etransitivity; [apply IH; simpl in *; lia|simpl; lia]|].
    destruct r2 as [|c3 r3]; [simpl; lia|].
    destruct (is_space3 c1 c2 c3); [|simpl; lia].
    etransitivity; [apply IH; simpl in *; lia|simpl; lia].
Qed.

(** What [trim_left_rev] returns is the end of its argument. *)
Lemma trim_left_rev_suffix (n : nat) :
  forall l, (length l <= n)%nat -> exists p, l = (p ++ trim_left_rev l)%list.
Proof.
  induction n as [|n IH]; intros l Hl.
  - destruct l; [now exists []|simpl in Hl; lia].
  - destruct l as [|c1 r1]; [now exists []|]. cbn [trim_left_rev].
    destruct (is_ascii_space c1).
    { destruct (IH r1) as [p Hp]; [simpl in *; lia|]. exists (c1 :: p).
      simpl. now rewrite <- Hp. }
    destruct r1 as [|c2 r2]; [now exists []|].
    destruct (is_space2 c2 c1).
    { destruct (IH r2) as [p Hp]; [simpl in *; lia|]. exists (c1 :: c2 :: p).
      simpl. now rewrite <- Hp. }
    destruct r2 as [|c3 r3]; [now exists []|].
    destruct (is_space3 c3 c2 c1); [|now exists []].
    destruct (IH r3) as [p Hp]; [simpl in *; lia|]. exists (c1 :: c2 :: c3 :: p).
    simpl. now rewrite <- Hp.
Qed.

(** What [trim_right] returns is the beginning of its argument. *)
Lemma trim_right_prefix (l : list ascii) : exists q, l = (trim_right l ++ q)%list.
Proof.
  unfold trim_right.
  destruct (trim_left_rev_suffix (length (rev l)) (rev l) (le_n _)) as [p Hp].
  exists (rev p). rewrite <- rev_app_distr, <- Hp. now rewrite rev_involutive.
Qed.

(** The result of [trim_left] starts no white-space rune, and neither
    does any beginning of it. *)
Lemma trim_left_fixed_prefix (p q : list ascii) :
  trim_left (p ++ q) = (p ++ q)%list -> trim_left p = p.
Proof.
  assert (Hlen : forall l x, trim_left l = (x ++ l)%list -> x = []).
  { intros l x E. pose proof (trim_left_length (length l) l (le_n _)) as Hl.
    rewrite E, length_app in Hl. destruct x; [reflexivity|simpl in Hl; lia]. }
  destruct p as [|c1 r1]; [reflexivity|]. cbn [trim_left app].
  destruct (is_ascii_space c1);
    [intros E; specialize (Hlen (r1 ++ q)%list [c1] E); discriminate|].
  destruct r1 as [|c2 r2]; [reflexivity|]. cbn [app].
  destruct (is_space2 c1 c2);
    [intros E; specialize (Hlen (r2 ++ q)%list [c1; c2] E); discriminate|].
  destruct r2 as [|c3 r3]; [reflexivity|]. cbn [app].
  destruct (is_space3 c1 c2 c3); [|reflexivity].
  intros E. specialize (Hlen (r3 ++ q)%list [c1; c2; c3] E). discriminate.
Qed.

Lemma trim_left_idempotent (n : nat) :
  forall l, (length l <= n)%nat -> trim_left (trim_left l) = trim_left l.
Proof.
  induction n as [|n IH]; intros l Hl.
  - destruct l; [reflexivity|simpl in Hl; lia].
  - destruct l as [|c1 r1]; [reflexivity|]. cbn [trim_left].
    destruct (is_ascii_space c1) eqn:E1; [apply IH; simpl in *; lia|].
    destruct r1 as [|c2 r2]; [cbn [trim_left]; now rewrite E1|].
    destruct (is_space2 c1 c2) eqn:E2; [apply IH; simpl in *; lia|].
    destruct r2 as [|c3 r3]; [cbn [trim_left]; now rewrite E1, E2|].
    destruct (is_space3 c1 c2 c3) eqn:E3; [apply IH; simpl in *; lia|].
    cbn [trim_left]. now rewrite E1, E2, E3.
Qed.

Lemma trim_left_rev_idempotent (n : nat) :
  forall l, (length l <= n)%nat -> trim_left_rev (trim_left_rev l) = trim_left_rev l.
Proof.
  induction n as [|n IH]; intros l Hl.
  - destruct l; [reflexivity|simpl in Hl; lia].
  - destruct l as [|c1 r1]; [reflexivity|]. cbn [trim_left_rev].
    destruct (is_ascii_space c1) eqn:E1; [apply IH; simpl in *; lia|].
    destruct r1 as [|c2 r2]; [cbn [trim_left_rev]; now rewrite E1|].
    destruct (is_space2 c2 c1) eqn:E2; [apply IH; simpl in *; lia|].
    destruct r2 as [|c3 r3]; [cbn [trim_left_rev]; now rewrite E1, E2|].
    destruct (is_space3 c3 c2 c1) eqn:E3; [apply IH; simpl in *; lia|].
    cbn [trim_left_rev]. now rewrite E1, E2, E3.
Qed.

(** [strings.TrimSpace] is idempotent. *)
Lemma TrimSpace_idempotent (s : string) : TrimSpace (TrimSpace s) = TrimSpace s.
Proof.
  unfold TrimSpace. rewrite bytes_of_string_of. f_equal.
  set (m := trim_left (bytes_of s)).
  assert (Hm : trim_left m = m) by (apply (trim_left_idempotent _ _ (le_n _))).
  destruct (trim_right_prefix m) as [q Hq].
  assert (Hfix : trim_left (trim_right m) = trim_right m).
  { apply (trim_left_fixed_prefix _ q). now rewrite <- Hq. }
  rewrite Hfix. unfold trim_right. rewrite rev_involutive.
  now rewrite (trim_left_rev_idempotent _ _ (le_n _)).
Qed.

Lemma trimmed_nonempty_Forall (l : list string) :
  Forall (fun t => t <> "" /\ TrimSpace t = t) (trimmed_nonempty l).
Proof.
  induction l as [|x l IH]; cbn [trimmed_nonempty]; [constructor|].
  destruct (String.eqb (TrimSpace x) "") eqn:E; [exact IH|].
  constructor; [|exact IH]. split; [now apply String.eqb_neq|apply TrimSpace_idempotent].
Qed.

(** X23. The target [resolveTarget] returns is never empty: it is a
    single string that is not empty and has no white space around it, or
    a list of at least two such strings. White space around the chat id
    or around the content makes no difference to the target or to the
    payload. *)
Theorem resolveTarget_never_empty (s : string) :
  match resolveTarget s with
  | VString t => t <> "" /\ TrimSpace t = t
  | VStrings l => (2 <= length l)%nat /\ Forall (fun t => t <> "" /\ TrimSpace t = t) l
  | _ => False
  end
  /\ resolveTarget (TrimSpace s) = resolveTarget s
  /\ buildPayload (TrimSpace s) = buildPayload s.
Proof.
  split; [|split].
  - unfold resolveTarget.
    destruct (String.eqb (TrimSpace s) "") eqn:E; [split; [discriminate|reflexivity]|].
    apply String.eqb_neq in E.
    assert (Hself : TrimSpace s <> "" /\ TrimSpace (TrimSpace s) = TrimSpace s)
      by (split; [exact E|apply TrimSpace_idempotent]).
    destruct (String.eqb (TrimSpace s) "*" || EqualFold_ascii (TrimSpace s) "all");
      [exact Hself|].
    destruct (Contains (TrimSpace s) ","); [|exact Hself].
    pose proof (trimmed_nonempty_Forall (Split (TrimSpace s) ",")) as Hall.
    destruct (trimmed_nonempty (Split (TrimSpace s) ",")) as [|t [|t' l]].
    + exact Hself.
    + now inversion Hall.
    + split; [simpl; lia|exact Hall].
  - unfold resolveTarget. now rewrite TrimSpace_idempotent.
  - unfold buildPayload. now rewrite TrimSpace_idempotent.
Qed.

(** X24. The auth message of a configuration that passed validation: its
    type is "auth"; its role is "employee" or "boss"; its name is the
    configured name, untrimmed, and not blank; its tags are the
    configured tags trimmed, without the empty ones, and there is at
    least one; its meta member holds the client name and the clock
    reading; the auth key is present exactly when the configured key is
    not blank, and then untrimmed; and besides these and the identity
    there is no other member. *)
Theorem auth_message_of_valid_config (c : WorkerWSChannel) (now_ms : Z) :
  validateConfig c = None ->
  buildAuthMessage c now_ms !! "type" = Some (VString "auth")
  /\ (buildAuthMessage c now_ms !! "role" = Some (VString "employee")
      \/ buildAuthMessage c now_ms !! "role" = Some (VString "boss"))
  /\ buildAuthMessage c now_ms !! "name" = Some (VString (Name (config c)))
  /\ TrimSpace (Name (config c)) <> ""
  /\ (exists tags, buildAuthMessage c now_ms !! "tags" = Some (VStrings tags)
                   /\ tags = cleanTags c
                   /\ tags <> []
                   /\ Forall (fun t => t <> "" /\ TrimSpace t = t) tags)
  /\ buildAuthMessage c now_ms !! "meta"
     = Some (VMap (<["timestamp" := VInt64 now_ms]> {["client" := VString "mimiclaw"]}))
  /\ buildAuthMessage c now_ms !! "authkey"
     = (if String.eqb (TrimSpace (AuthKey (config c))) "" then None
        else Some (VString (AuthKey (config c))))
  /\ (forall key, ~ In key ["type"; "role"; "name"; "tags"; "meta"; "authkey"; "identity"] ->
        buildAuthMessage c now_ms !! key = None).
Proof.
  intros Hvalid.
  assert (Hlook : forall key,
            buildAuthMessage c now_ms !! key
            = if String.eqb key "identity" then buildAuthMessage c now_ms !! "identity"
              else if String.eqb key "authkey"
              then (if String.eqb (TrimSpace (AuthKey (config c))) "" then None
                    else Some (VString (AuthKey (config c))))
              else if String.eqb key "meta"
              then Some (VMap (<["timestamp" := VInt64 now_ms]>
                                 {["client" := VString "mimiclaw"]}))
              else if String.eqb key "tags" then Some (VStrings (cleanTags c))
              else if String.eqb key "name" then Some (VString (Name (config c)))
              else if String.eqb key "role" then Some (VString (Role (config c)))
              else if String.eqb key "type" then Some (VString "auth")
              else None).
  { intros key.
    destruct (String.eqb key "identity") eqn:E0;
      [apply String.eqb_eq in E0; now subst key|].
    apply String.eqb_neq in E0.
    unfold buildAuthMessage.
    assert (Hrest : forall m : gmap string any,
              (if negb (String.eqb (ID (identity c)) "")
                  && negb (String.eqb (Key (identity c)) "")
               then <["identity" := VMap (<["key" := VString (Key (identity c))]>
                                             {["id" := VString (ID (identity c))]})]> m
               else m) !! key = m !! key).
    { intros m.
      destruct (negb (String.eqb (ID (identity c)) "")
                && negb (String.eqb (Key (identity c)) "")); [|reflexivity].
      now rewrite lookup_insert_ne by congruence. }
    cbv zeta. rewrite Hrest.
    destruct (String.eqb key "authkey") eqn:E1.
    { apply String.eqb_eq in E1. subst key.
      destruct (String.eqb (TrimSpace (AuthKey (config c))) "");
        [|now rewrite lookup_insert_eq].
      repeat (rewrite lookup_insert_ne by discriminate).
      now rewrite lookup_singleton_ne by discriminate. }
    apply String.eqb_neq in E1.
    assert (Hkey : forall m : gmap string any,
              (if String.eqb (TrimSpace (AuthKey (config c))) "" then m
               else <["authkey" := VString (AuthKey (config c))]> m) !! key = m !! key).
    { intros m. destruct (String.eqb (TrimSpace (AuthKey (config c))) "");
        [reflexivity|].
      now rewrite lookup_insert_ne by congruence. }
    rewrite Hkey.
    destruct (String.eqb key "meta") eqn:E2;
      [apply String.eqb_eq in E2; subst key; now rewrite lookup_insert_eq|].
    apply String.eqb_neq in E2. rewrite lookup_insert_ne by congruence.
    destruct (String.eqb key "tags") eqn:E3;
      [apply String.eqb_eq in E3; subst key; now rewrite lookup_insert_eq|].
    apply String.eqb_neq in E3. rewrite lookup_insert_ne by congruence.
    destruct (String.eqb key "name") eqn:E4;
      [apply String.eqb_eq in E4; subst key; now rewrite lookup_insert_eq|].
    apply String.eqb_neq in E4. rewrite lookup_insert_ne by congruence.
    destruct (String.eqb key "role") eqn:E5;
      [apply String.eqb_eq in E5; subst key; now rewrite lookup_insert_eq|].
    apply String.eqb_neq in E5. rewrite lookup_insert_ne by congruence.
    destruct (String.eqb key "type") eqn:E6;
      [apply String.eqb_eq in E6; subst key; now rewrite lookup_singleton_eq|].
    apply String.eqb_neq in E6. now rewrite lookup_singleton_ne by congruence. }
  unfold validateConfig in Hvalid.
  destruct (String.eqb (TrimSpace (Address (config c))) ""); [discriminate|].
  destruct (String.eqb (TrimSpace (Role (config c))) ""); [discriminate|].
  destruct (String.eqb (Role (config c)) "employee") eqn:Ee.
  2: destruct (String.eqb (Role (config c)) "boss") eqn:Eb; [|discriminate].
  all: cbn [negb andb] in Hvalid.
  all: destruct (String.eqb (TrimSpace (Name (config c))) "") eqn:En; [discriminate|].
  all: destruct (length (cleanTags c) =? 0)%nat eqn:Et; [discriminate|].
  all: apply String.eqb_neq in En; apply Nat.eqb_neq in Et.
  all: split; [now rewrite Hlook|].
  all: split;
    [rewrite Hlook; cbn;
     first [apply String.eqb_eq in Ee; rewrite Ee; now left
           |apply String.eqb_eq in Eb; rewrite Eb; now right]|].
  all: split; [now rewrite Hlook|].
  all: split; [exact En|].
  all: split;
    [exists (cleanTags c); split; [now rewrite Hlook|]; split; [reflexivity|];
     split; [intros E; rewrite E in Et; now apply Et|apply trimmed_nonempty_Forall]|].
  all: split; [now rewrite Hlook|].
  all: split; [now rewrite Hlook|].
  all: intros key Hnot; rewrite Hlook.
  all: repeat match goal with
         | |- context [String.eqb ?x ?k] =>
             is_var x;
             let E := fresh "E" in
             destruct (String.eqb x k) eqn:E;
             [apply String.eqb_eq in E; subst x; exfalso; apply Hnot; simpl; tauto|]
         end.
  all: reflexivity.
Qed.

Lemma auth_message_of_valid_config_witness :
  let c := chan (fresh_world sample_config) in
  buildAuthMessage c 1000 !! "tags" = Some (VStrings ["research"])
  /\ buildAuthMessage c 1000 !! "authkey" = None.
Proof.
  intros c.
  destruct (auth_message_of_valid_config c 1000)
    as (_ & _ & _ & _ & (tags & Htags & -> & _) & _ & Hkey & _).
  - reflexivity.
  - split; [exact Htags|exact Hkey].
Defined.
